(** * Employee-management GraphQL resolvers: a shallow embedding

    The development follows [graphql/resolvers.js] and [models/Employee.js].
    Resolvers are written in a small state-and-exception monad over a
    [World] holding the two collections, the process environment and a log
    of calls made to external collaborators.  Library code the resolvers
    call (validator.js predicates, bcrypt, jsonwebtoken, the ObjectId
    format test and cast, the Cloudinary uploader) is bundled in a record
    [Libs] and every theorem holds for every value of that record.

    Strings are byte strings; [toLowerCase] and case-insensitive matching
    act on the ASCII letters. *)

From Stdlib Require Import String Ascii List Bool Arith ZArith QArith Lia Lqa.
From Stdlib Require Import Sorted Permutation.
Import ListNotations.
Local Open Scope string_scope.
Local Open Scope list_scope.

(* ================================================================== *)
(** * JavaScript values and strings *)
(* ================================================================== *)

Module JS.

(** A GraphQL argument of a nullable type: left out of the call, passed
    as [null], or passed with a value.  The [args] object has no key for
    an omitted argument. *)
Inductive arg (A : Type) : Type :=
| Omitted : arg A
| IsNull : arg A
| Given : A -> arg A.
Arguments Omitted {A}.
Arguments IsNull {A}.
Arguments Given {A} _.

(** The values a field of [req.body] can hold. *)
Inductive value : Type :=
| Undefined
| Null
| Str (s : string)
| Num (q : Q).

Definition str_value (a : arg string) : value :=
  match a with Omitted => Undefined | IsNull => Null | Given s => Str s end.

Definition num_value (a : arg Q) : value :=
  match a with Omitted => Undefined | IsNull => Null | Given q => Num q end.

(** [!!s] for a string: the empty string is falsy. *)
Definition truthy_string (s : string) : bool :=
  match s with EmptyString => false | String _ _ => true end.

(** [!!x] for a nullable string argument. *)
Definition truthy (a : arg string) : bool :=
  match a with Given s => truthy_string s | _ => false end.

(** The string read from a truthy argument. *)
Definition the_string (a : arg string) : string :=
  match a with Given s => s | _ => "" end.

Definition is_upper (c : ascii) : bool :=
  let n := nat_of_ascii c in (65 <=? n)%nat && (n <=? 90)%nat.

Definition lower_char (c : ascii) : ascii :=
  if is_upper c then ascii_of_nat (nat_of_ascii c + 32) else c.

Fixpoint toLowerCase (s : string) : string :=
  match s with
  | EmptyString => EmptyString
  | String c s' => String (lower_char c) (toLowerCase s')
  end.

(** White space removed by [String.prototype.trim] (ASCII part). *)
Definition is_space (c : ascii) : bool :=
  let n := nat_of_ascii c in ((9 <=? n)%nat && (n <=? 13)%nat) || (n =? 32)%nat.

Fixpoint trim_start (s : string) : string :=
  match s with
  | EmptyString => EmptyString
  | String c s' => if is_space c then trim_start s' else s
  end.

Fixpoint rev_string (acc s : string) : string :=
  match s with
  | EmptyString => acc
  | String c s' => rev_string (String c acc) s'
  end.

Definition trim (s : string) : string :=
  rev_string "" (trim_start (rev_string "" (trim_start s))).

(** [hay.toLowerCase().startsWith(needle.toLowerCase())] *)
Fixpoint starts_with_ci (needle hay : list ascii) : bool :=
  match needle, hay with
  | [], _ => true
  | _ :: _, [] => false
  | a :: needle', b :: hay' =>
      Ascii.eqb (lower_char a) (lower_char b) && starts_with_ci needle' hay'
  end.

(** [hay.toLowerCase().includes(needle.toLowerCase())]: the needle
    occurs in the hay stack as a substring, letter case ignored. *)
Fixpoint includes_ci_chars (needle hay : list ascii) : bool :=
  starts_with_ci needle hay ||
  match hay with
  | [] => false
  | _ :: hay' => includes_ci_chars needle hay'
  end.

Definition includes_ci (needle hay : string) : bool :=
  includes_ci_chars (list_ascii_of_string needle) (list_ascii_of_string hay).

End JS.
Export JS.

(* ================================================================== *)
(** * Regular expressions: [new RegExp(source, 'i')] *)
(* ================================================================== *)

(** [searchEmployee] hands the filter text to [new RegExp(text, 'i')] and
    the store matches the field against the pattern, unanchored.  The
    fragment embedded here is: literal characters, [.], a backslash before
    a syntax character, alternation, groups and the quantifiers [*], [+],
    [?] (greedy or lazy).  Character classes, anchors, braces and the
    other escapes are reported as [Unsupported]. *)

Module RegExp.

Inductive cset : Type :=
| CChar (c : ascii)   (* a literal, compared ignoring case *)
| CDot.               (* any character but a line feed *)

Inductive regex : Type :=
| Eps
| Sym (cs : cset)
| Cat (r1 r2 : regex)
| Alt (r1 r2 : regex)
| Star (r : regex)
| Void.

Definition cset_mem (cs : cset) (c : ascii) : bool :=
  match cs with
  | CChar d => Ascii.eqb (lower_char d) (lower_char c)
  | CDot => negb (nat_of_ascii c =? 10)%nat
  end.

Fixpoint nullable (r : regex) : bool :=
  match r with
  | Eps => true
  | Sym _ => false
  | Cat r1 r2 => nullable r1 && nullable r2
  | Alt r1 r2 => nullable r1 || nullable r2
  | Star _ => true
  | Void => false
  end.

(** Brzozowski derivative. *)
Fixpoint deriv (c : ascii) (r : regex) : regex :=
  match r with
  | Eps => Void
  | Sym cs => if cset_mem cs c then Eps else Void
  | Cat r1 r2 =>
      if nullable r1
      then Alt (Cat (deriv c r1) r2) (deriv c r2)
      else Cat (deriv c r1) r2
  | Alt r1 r2 => Alt (deriv c r1) (deriv c r2)
  | Star r1 => Cat (deriv c r1) (Star r1)
  | Void => Void
  end.

(** Some prefix of the subject is in the language of [r]. *)
Fixpoint match_here (r : regex) (s : list ascii) : bool :=
  nullable r ||
  match s with
  | [] => false
  | c :: s' => match_here (deriv c r) s'
  end.

(** [RegExp.prototype.test]: a match starting at some position. *)
Fixpoint search (r : regex) (s : list ascii) : bool :=
  match_here r s ||
  match s with
  | [] => false
  | _ :: s' => search r s'
  end.

Definition test (r : regex) (s : string) : bool :=
  search r (list_ascii_of_string s).

(** ** Parsing the pattern source *)

Inductive compiled : Type :=
| Compiled (r : regex)
| SyntaxError          (* the constructor throws *)
| Unsupported.         (* outside the embedded fragment *)

(** What the last token was, for the quantifier rules. *)
Inductive last_token : Type :=
| NoAtom | GroupOpen | Atom | Quantified | QuantifiedLazy.

(** A group being read: the finished alternatives and the items of the
    current alternative, both most recent first. *)
Record frame : Type := mkFrame { alts : list regex; items : list regex }.

Definition cat_items (its : list regex) : regex :=
  fold_left (fun acc r => Cat r acc) its Eps.

Definition close_frame (f : frame) : regex :=
  fold_left (fun acc r => Alt r acc) (alts f) (cat_items (items f)).

Definition push_item (r : regex) (f : frame) : frame :=
  mkFrame (alts f) (r :: items f).

(** The characters with a meaning of their own in a pattern. *)
Definition syntax_char (c : ascii) : bool :=
  existsb (Ascii.eqb c)
    (list_ascii_of_string "\^$.|?*+()[]{}").

(** After a backslash, a syntax character or the solidus stands for
    itself. *)
Definition escapable (c : ascii) : bool :=
  syntax_char c || Ascii.eqb c "/".

Definition quantify (q : ascii) (r : regex) : regex :=
  if Ascii.eqb q "*" then Star r
  else if Ascii.eqb q "+" then Cat r (Star r)
  else Alt r Eps.

Definition is_quantifier (c : ascii) : bool :=
  Ascii.eqb c "*" || Ascii.eqb c "+" || Ascii.eqb c "?".

(** One pass over the source.  [cur] is the innermost open group,
    [stack] the enclosing ones, [esc] tells that the previous character
    was an unescaped backslash. *)
Fixpoint parse (src : list ascii) (cur : frame) (stack : list frame)
         (lt : last_token) (esc : bool) : compiled :=
  match src with
  | [] =>
      if esc then SyntaxError
      else match stack with
           | [] => Compiled (close_frame cur)
           | _ :: _ => SyntaxError
           end
  | c :: rest =>
      if esc then
        if escapable c
        then parse rest (push_item (Sym (CChar c)) cur) stack Atom false
        else Unsupported
      else if Ascii.eqb c "\" then parse rest cur stack lt true
      else if Ascii.eqb c "." then
        parse rest (push_item (Sym CDot) cur) stack Atom false
      else if is_quantifier c then
        match lt, items cur with
        | Atom, r :: its =>
            parse rest (mkFrame (alts cur) (quantify c r :: its)) stack
                  Quantified false
        | Quantified, _ =>
            if Ascii.eqb c "?" then parse rest cur stack QuantifiedLazy false
            else SyntaxError
        | GroupOpen, _ =>
            if Ascii.eqb c "?" then Unsupported else SyntaxError
        | _, _ => SyntaxError
        end
      else if Ascii.eqb c "|" then
        parse rest (mkFrame (cat_items (items cur) :: alts cur) []) stack
              NoAtom false
      else if Ascii.eqb c "(" then
        parse rest (mkFrame [] []) (cur :: stack) GroupOpen false
      else if Ascii.eqb c ")" then
        match stack with
        | [] => SyntaxError
        | parent :: stack' =>
            parse rest (push_item (close_frame cur) parent) stack' Atom false
        end
      else if syntax_char c then Unsupported
      else parse rest (push_item (Sym (CChar c)) cur) stack Atom false
  end.

Definition compile (source : string) : compiled :=
  parse (list_ascii_of_string source) (mkFrame [] []) [] NoAtom false.

Definition sym (c : ascii) : regex := Sym (CChar c).

(** The pattern of a source without syntax characters. *)
Definition literal (p : list ascii) : regex :=
  fold_right (fun c r => Cat (Sym (CChar c)) r) Eps p.

Definition plain (source : string) : bool :=
  forallb (fun c => negb (syntax_char c)) (list_ascii_of_string source).

End RegExp.

(* ================================================================== *)
(** * Errors *)
(* ================================================================== *)

(** One entry of express-validator's [errors.array()]. *)
Record validation_error : Type :=
  mkValidationError { param : string; msg : string }.

(** [extensions.details] of a [GraphQLError]. *)
Inductive detail : Type :=
| NoDetail
| DetailText (text : string)
| DetailList (errors : list validation_error).

(** What a resolver can throw. *)
Inductive error : Type :=
| GraphQLError (message : string) (code : string) (details : detail)
| MongoServerError (code : Z) (keyPattern : list string)
| ValidationError (paths : list string) (* mongoose schema validation *)
| RegExpSyntaxError (source : string)   (* thrown by [new RegExp] *)
| UploadRejected (message : string).    (* rejection of the uploader *)

(** [error.message] *)
Definition message_of (e : error) : string :=
  match e with
  | GraphQLError m _ _ => m
  | MongoServerError _ _ => "E11000 duplicate key error collection"
  | ValidationError paths =>
      "Employee validation failed: " ++ String.concat ", " paths
  | RegExpSyntaxError source => "Invalid regular expression: /" ++ source ++ "/"
  | UploadRejected m => m
  end.

Definition email_exists : error :=
  GraphQLError "Email already exists." "BAD_USER_INPUT" NoDetail.
Definition invalid_employee_id : error :=
  GraphQLError "Invalid employee ID." "BAD_USER_INPUT" NoDetail.
Definition employee_not_found : error :=
  GraphQLError "Employee not found." "NOT_FOUND" NoDetail.
Definition invalid_credentials : error :=
  GraphQLError "Invalid credentials." "UNAUTHENTICATED" NoDetail.
Definition jwt_secret_missing : error :=
  GraphQLError "JWT_SECRET is not configured." "INTERNAL_SERVER_ERROR" NoDetail.
Definition duplicate_key_on (fields : list string) : error :=
  MongoServerError 11000 fields.

(** The error kinds of the specification, read off [extensions.code]. *)
Definition has_code (c : string) (e : error) : Prop :=
  match e with GraphQLError _ c' _ => c' = c | _ => False end.
Definition InvalidInput : error -> Prop := has_code "BAD_USER_INPUT".
Definition Unauthenticated : error -> Prop := has_code "UNAUTHENTICATED".
Definition NotFound : error -> Prop := has_code "NOT_FOUND".
Definition InternalError : error -> Prop := has_code "INTERNAL_SERVER_ERROR".

(* ================================================================== *)
(** * Documents *)
(* ================================================================== *)

Module User.
(** The fields [resolvers.js] writes and reads on an account. *)
Record doc : Type :=
  mk { _id : string; username : string; email : string; password : string }.
End User.

Module Employee.
(** A stored document of [models/Employee.js]. *)
Record doc : Type := mk {
  _id : string;
  first_name : string;
  last_name : string;
  email : string;
  gender : option string;
  designation : string;
  salary : Q;
  date_of_joining : string;
  department : string;
  employee_photo : option string;
  created_at : nat;
  updated_at : nat }.

(** The object given to [Employee.create]. *)
Record fields : Type := mkFields {
  f_first_name : string;
  f_last_name : string;
  f_email : string;
  f_gender : arg string;
  f_designation : string;
  f_salary : Q;
  f_date_of_joining : string;
  f_department : string;
  f_employee_photo : option string }.

(** The [updates] object given to [Employee.findByIdAndUpdate]: a key
    for every argument the call carried. *)
Record patch : Type := mkPatch {
  p_first_name : arg string;
  p_last_name : arg string;
  p_email : arg string;
  p_gender : arg string;
  p_designation : arg string;
  p_salary : arg Q;
  p_date_of_joining : arg string;
  p_department : arg string;
  p_employee_photo : arg string }.

Definition with_email (e : arg string) (p : patch) : patch :=
  mkPatch (p_first_name p) (p_last_name p) e (p_gender p) (p_designation p)
          (p_salary p) (p_date_of_joining p) (p_department p)
          (p_employee_photo p).
End Employee.

(* ================================================================== *)
(** * Library code and the world *)
(* ================================================================== *)

Record token_payload : Type :=
  mkPayload { userId : string; tk_username : string; tk_email : string }.

(** Functions of the packages the resolvers import. *)
Record Libs : Type := mkLibs {
  validator_isEmail : string -> bool;
  validator_isISO8601 : string -> bool;
  (** validator.js [isFloat] on text: the number read, when the text is
      a float literal *)
  validator_readFloat : string -> option Q;
  number_toString : Q -> string;
  ObjectId_isValid : string -> bool;
  (** the ObjectId the driver makes of a valid string, by the hex text
      that prints it: an id given with capital hex digits, or as twelve
      characters where the driver takes those, is the ObjectId of
      another text *)
  ObjectId_cast : string -> string;
  ObjectId_generate : nat -> string;
  bcrypt_hash : string -> nat -> string;
  bcrypt_compare : string -> string -> bool;
  jwt_sign : token_payload -> string -> string -> string;
  (** [cloudinary.uploader.upload]: the rejection's message, or the
      [secure_url] of the result *)
  cloudinary_upload : string -> string + string;
  (** the engine on a pattern outside the fragment of [RegExp]: nothing
      when the constructor throws, else the unanchored match test *)
  regexp_beyond : string -> option (string -> bool) }.

(** A write of another request that lands while this one is waiting. *)
Inductive Write : Type :=
| PutUser (u : User.doc)
| PutEmployee (e : Employee.doc)
| DropEmployee (id : string).

(** Calls that leave the process. *)
Inductive Call : Type :=
| StoreCall (operation : string)
| UploadCall (payload : string) (folder : string).

Record World : Type := mkWorld {
  users : list User.doc;
  employees : list Employee.doc;
  clock : nat;                       (* store time, also seeds new ids *)
  pending : list (list Write);       (* one batch per store call to come *)
  calls : list Call;                 (* most recent first *)
  JWT_SECRET : option string }.      (* [process.env.JWT_SECRET] *)

(** ** The resolver monad: state, and an exception or a value *)

Definition M (A : Type) : Type := World -> (error + A) * World.

Definition ret {A} (a : A) : M A := fun w => (inr a, w).
Definition throw {A} (e : error) : M A := fun w => (inl e, w).
Definition bind {A B} (m : M A) (k : A -> M B) : M B :=
  fun w => match m w with
           | (inl e, w') => (inl e, w')
           | (inr a, w') => k a w'
           end.
(** [try { body } catch (error) { handler(error) }] *)
Definition try_catch {A} (body : M A) (handler : error -> M A) : M A :=
  fun w => match body w with
           | (inl e, w') => handler e w'
           | (inr a, w') => (inr a, w')
           end.

Declare Scope resolver_scope.
Delimit Scope resolver_scope with resolver.
Notation "x <- m ;; k" := (bind m (fun x => k))
  (at level 61, m at next level, right associativity) : resolver_scope.
Notation "m ;; k" := (bind m (fun _ => k))
  (at level 61, right associativity) : resolver_scope.
Local Open Scope resolver_scope.

(* ================================================================== *)
(** * express-validator: [checkSchema] and [validationResult] *)
(* ================================================================== *)

Module Validation.

(** The validators the schemas of [resolvers.js] use. *)
Inductive check : Type :=
| notEmpty
| isLength_min (n : nat)
| isEmail
| isFloat_min (m : Q)
| isISO8601
| isString.

Record rule : Type :=
  mkRule { field : string; optional : bool; checks : list (check * string) }.

Definition schema : Type := list rule.
Definition body : Type := list (string * value).

Fixpoint lookup (name : string) (b : body) : value :=
  match b with
  | [] => Undefined
  | (k, v) :: b' => if String.eqb k name then v else lookup name b'
  end.

Section WithLibs.
Context (L : Libs).

(** The text the string validators see. *)
Definition to_text (v : value) : string :=
  match v with
  | Str s => s
  | Num q => number_toString L q
  | Undefined | Null => ""
  end.

(** [isFloat] reads the text of the value.  A finite number prints to a
    float literal that reads back as the same number, so on a number the
    test is the comparison with the minimum. *)
Definition holds (c : check) (v : value) : bool :=
  match c with
  | notEmpty => negb (String.eqb (to_text v) "")
  | isLength_min n => (n <=? String.length (to_text v))%nat
  | isEmail => validator_isEmail L (to_text v)
  | isFloat_min m =>
      match v with
      | Num q => Qle_bool m q
      | Str s => match validator_readFloat L s with
                 | Some q => Qle_bool m q
                 | None => false
                 end
      | Undefined | Null => false
      end
  | isISO8601 => validator_isISO8601 L (to_text v)
  | isString => match v with Str _ => true | _ => false end
  end.

(** An optional field is skipped only when it is [undefined]; every
    failing validator of a chain reports. *)
Definition rule_errors (b : body) (r : rule) : list validation_error :=
  let v := lookup (field r) b in
  match optional r, v with
  | true, Undefined => []
  | _, _ =>
      flat_map (fun cm : check * string =>
                  if holds (fst cm) v then []
                  else [mkValidationError (field r) (snd cm)])
               (checks r)
  end.

(** The chains of a schema run side by side, one validator of each at
    a time, and a chain hands in its findings when its last validator is
    done: a chain of fewer validators reports before a longer one, and
    chains of the same length in the order of the schema. *)
Fixpoint insert_by_length (r : rule) (l : schema) : schema :=
  match l with
  | [] => [r]
  | x :: l' =>
      if (length (checks r) <=? length (checks x))%nat
      then r :: l
      else x :: insert_by_length r l'
  end.

Definition completion_order (s : schema) : schema :=
  fold_right insert_by_length [] s.

Definition validate (s : schema) (b : body) : list validation_error :=
  flat_map (rule_errors b) (completion_order s).

End WithLibs.
End Validation.
Import Validation.

(* ================================================================== *)
(** * The document store *)
(* ================================================================== *)

Module Store.

Definition land_write (wr : Write) (w : World) : World :=
  match wr with
  | PutUser u =>
      mkWorld (users w ++ [u]) (employees w) (clock w) (pending w) (calls w)
              (JWT_SECRET w)
  | PutEmployee e =>
      mkWorld (users w) (employees w ++ [e]) (clock w) (pending w) (calls w)
              (JWT_SECRET w)
  | DropEmployee id =>
      mkWorld (users w)
              (filter (fun e => negb (String.eqb (Employee._id e) id))
                      (employees w))
              (clock w) (pending w) (calls w) (JWT_SECRET w)
  end.

(** A store call begins: the writes that other requests completed in the
    meantime are in the collections, the call is logged, time advances. *)
Definition enter (operation : string) (w : World) : World :=
  let w1 := match pending w with
            | [] => w
            | batch :: later =>
                fold_left (fun acc wr => land_write wr acc) batch
                  (mkWorld (users w) (employees w) (clock w) later (calls w)
                           (JWT_SECRET w))
            end in
  mkWorld (users w1) (employees w1) (S (clock w1)) (pending w1)
          (StoreCall operation :: calls w1) (JWT_SECRET w1).

Definition set_users (us : list User.doc) (w : World) : World :=
  mkWorld us (employees w) (clock w) (pending w) (calls w) (JWT_SECRET w).

Definition set_employees (es : list Employee.doc) (w : World) : World :=
  mkWorld (users w) es (clock w) (pending w) (calls w) (JWT_SECRET w).

(** ** Accounts *)

Inductive user_query : Type :=
| ByUsername (username : string)
| ByEmail (email : string).

Definition user_matches (q : user_query) (u : User.doc) : bool :=
  match q with
  | ByUsername n => String.eqb (User.username u) n
  | ByEmail e => String.eqb (User.email u) e
  end.

Definition User_findOne (q : user_query) : M (option User.doc) :=
  fun w => let w1 := enter "User.findOne" w in
           (inr (find (user_matches q) (users w1)), w1).

Section WithLibs.
Context (L : Libs).

(** Modelled from the spec: [models/User.js] is not among the sources.
    The account collection has a uniqueness constraint on [email] and the
    write signals a duplicate key on it (sections 1 and 3); [create]
    returns the document it stored. *)
Definition User_create (username email password : string) : M User.doc :=
  fun w =>
    let w1 := enter "User.create" w in
    if existsb (fun u => String.eqb (User.email u) email) (users w1)
    then (inl (duplicate_key_on ["email"]), w1)
    else let u := User.mk (ObjectId_generate L (clock w1))
                          username email password in
         (inr u, set_users (users w1 ++ [u]) w1).

(** ** Employees *)

Inductive employee_query : Type :=
| EmailIs (email : string)
| EmailIsAndIdIsNot (id : string) (email : string).   (* [_id: { $ne }] *)

(** The setters of the schema's [email] path ([lowercase], [trim]); the
    store applies them to a written value and to a queried one. *)
Definition email_setters (s : string) : string := trim (toLowerCase s).

(** An [_id] is stored as the hex text of its ObjectId.  A query casts
    the id it is given to an ObjectId before it compares. *)
Definition has_id (id : string) (e : Employee.doc) : bool :=
  String.eqb (Employee._id e) (ObjectId_cast L id).

Definition employee_matches (q : employee_query) (e : Employee.doc) : bool :=
  match q with
  | EmailIs m => String.eqb (Employee.email e) (email_setters m)
  | EmailIsAndIdIsNot id m =>
      negb (has_id id e) &&
      String.eqb (Employee.email e) (email_setters m)
  end.

Definition Employee_findOne (q : employee_query) : M (option Employee.doc) :=
  fun w => let w1 := enter "Employee.findOne" w in
           (inr (find (employee_matches q) (employees w1)), w1).

Definition Employee_findById (id : string) : M (option Employee.doc) :=
  fun w => let w1 := enter "Employee.findById" w in
           (inr (find (has_id id) (employees w1)), w1).

(** [.sort({ created_at: -1 })] *)
Fixpoint insert_newest_first (e : Employee.doc) (l : list Employee.doc)
  : list Employee.doc :=
  match l with
  | [] => [e]
  | x :: l' =>
      if (Employee.created_at x <=? Employee.created_at e)%nat
      then e :: l
      else x :: insert_newest_first e l'
  end.

Definition newest_first (l : list Employee.doc) : list Employee.doc :=
  fold_right insert_newest_first [] l.

(** [Employee.find(filter).sort(...)], the filter a predicate. *)
Definition Employee_find (keep : Employee.doc -> bool) : M (list Employee.doc) :=
  fun w => let w1 := enter "Employee.find" w in
           (inr (newest_first (filter keep (employees w1))), w1).

(** Schema of [models/Employee.js].  The setters ([trim], and
    [lowercase] on the email) run when a path is assigned; [required] on
    a string path then rejects the empty string and [min] a salary under
    1000.  A failed validation names the failing paths. *)
Definition required (path : string) (s : string) : list string :=
  if String.eqb s "" then [path] else [].

Definition min_salary (q : Q) : list string :=
  if Qle_bool 1000 q then [] else ["salary"].

Definition cast_text (a : arg string) : arg string :=
  match a with Given s => Given (trim s) | Omitted => Omitted | IsNull => IsNull end.

Definition cast_email (a : arg string) : arg string :=
  match a with
  | Given s => Given (email_setters s)
  | Omitted => Omitted
  | IsNull => IsNull
  end.

Definition to_option (a : arg string) : option string :=
  match a with Given s => Some s | Omitted | IsNull => None end.

Definition new_employee (id : string) (now : nat) (f : Employee.fields)
  : Employee.doc :=
  Employee.mk id
    (trim (Employee.f_first_name f))
    (trim (Employee.f_last_name f))
    (email_setters (Employee.f_email f))
    (to_option (cast_text (Employee.f_gender f)))
    (trim (Employee.f_designation f))
    (Employee.f_salary f)
    (trim (Employee.f_date_of_joining f))
    (trim (Employee.f_department f))
    (option_map trim (Employee.f_employee_photo f))
    now now.

Definition invalid_paths (d : Employee.doc) : list string :=
  required "first_name" (Employee.first_name d) ++
  required "last_name" (Employee.last_name d) ++
  required "email" (Employee.email d) ++
  required "designation" (Employee.designation d) ++
  min_salary (Employee.salary d) ++
  required "date_of_joining" (Employee.date_of_joining d) ++
  required "department" (Employee.department d).

Definition email_taken (by_other_than : option string) (email : string)
           (l : list Employee.doc) : bool :=
  existsb (fun x =>
             match by_other_than with
             | Some id => negb (String.eqb (Employee._id x) id)
             | None => true
             end && String.eqb (Employee.email x) email) l.

Definition Employee_create (f : Employee.fields) : M Employee.doc :=
  fun w =>
    let w1 := enter "Employee.create" w in
    let d := new_employee (ObjectId_generate L (clock w1)) (clock w1) f in
    match invalid_paths d with
    | _ :: _ => (inl (ValidationError (invalid_paths d)), w1)
    | [] =>
        if email_taken None (Employee.email d) (employees w1)
        then (inl (duplicate_key_on ["email"]), w1)
        else (inr d, set_employees (employees w1 ++ [d]) w1)
    end.

(** The update, cast with the schema: setters run on the values it
    names. *)
Definition cast_patch (p : Employee.patch) : Employee.patch :=
  Employee.mkPatch
    (cast_text (Employee.p_first_name p))
    (cast_text (Employee.p_last_name p))
    (cast_email (Employee.p_email p))
    (cast_text (Employee.p_gender p))
    (cast_text (Employee.p_designation p))
    (Employee.p_salary p)
    (cast_text (Employee.p_date_of_joining p))
    (cast_text (Employee.p_department p))
    (cast_text (Employee.p_employee_photo p)).

(** Update validators ([runValidators: true]) look at the paths the
    update names. *)
Definition patch_required (path : string) (a : arg string) : list string :=
  match a with
  | Omitted => []
  | IsNull => [path]
  | Given s => required path s
  end.

Definition patch_invalid_paths (p : Employee.patch) : list string :=
  patch_required "first_name" (Employee.p_first_name p) ++
  patch_required "last_name" (Employee.p_last_name p) ++
  patch_required "email" (Employee.p_email p) ++
  patch_required "designation" (Employee.p_designation p) ++
  match Employee.p_salary p with
  | Omitted => []
  | IsNull => ["salary"]
  | Given q => min_salary q
  end ++
  patch_required "date_of_joining" (Employee.p_date_of_joining p) ++
  patch_required "department" (Employee.p_department p).

Definition set_text (a : arg string) (old : string) : string :=
  match a with Given s => s | Omitted | IsNull => old end.

Definition set_opt_text (a : arg string) (old : option string) : option string :=
  match a with Omitted => old | IsNull => None | Given s => Some s end.

(** [$set] of the named paths; unnamed paths keep their value. *)
Definition apply_patch (now : nat) (p : Employee.patch) (e : Employee.doc)
  : Employee.doc :=
  Employee.mk (Employee._id e)
    (set_text (Employee.p_first_name p) (Employee.first_name e))
    (set_text (Employee.p_last_name p) (Employee.last_name e))
    (set_text (Employee.p_email p) (Employee.email e))
    (set_opt_text (Employee.p_gender p) (Employee.gender e))
    (set_text (Employee.p_designation p) (Employee.designation e))
    (match Employee.p_salary p with
     | Given q => q
     | Omitted | IsNull => Employee.salary e
     end)
    (set_text (Employee.p_date_of_joining p) (Employee.date_of_joining e))
    (set_text (Employee.p_department p) (Employee.department e))
    (set_opt_text (Employee.p_employee_photo p) (Employee.employee_photo e))
    (Employee.created_at e) now.

Definition replace_doc (d : Employee.doc) (l : list Employee.doc)
  : list Employee.doc :=
  map (fun x => if String.eqb (Employee._id x) (Employee._id d) then d else x)
      l.

(** [findByIdAndUpdate(id, updates, { new: true, runValidators: true })];
    the unique index is consulted when the email changes. *)
Definition Employee_findByIdAndUpdate (id : string) (updates : Employee.patch)
  : M (option Employee.doc) :=
  fun w =>
    let w1 := enter "Employee.findByIdAndUpdate" w in
    let p := cast_patch updates in
    match patch_invalid_paths p with
    | _ :: _ => (inl (ValidationError (patch_invalid_paths p)), w1)
    | [] =>
        match find (has_id id) (employees w1) with
        | None => (inr None, w1)
        | Some old =>
            let d := apply_patch (clock w1) p old in
            if negb (String.eqb (Employee.email d) (Employee.email old)) &&
               email_taken (Some (Employee._id old)) (Employee.email d)
                           (employees w1)
            then (inl (duplicate_key_on ["email"]), w1)
            else (inr (Some d), set_employees (replace_doc d (employees w1)) w1)
        end
    end.

Definition Employee_findByIdAndDelete (id : string) : M (option Employee.doc) :=
  fun w =>
    let w1 := enter "Employee.findByIdAndDelete" w in
    match find (has_id id) (employees w1) with
    | None => (inr None, w1)
    | Some old =>
        (inr (Some old),
         set_employees (filter (fun x => negb (has_id id x)) (employees w1)) w1)
    end.

End WithLibs.
End Store.
Import Store.

(* ================================================================== *)
(** * graphql/resolvers.js *)
(* ================================================================== *)

Module LoginArgs.
Record t : Type :=
  mk { username : arg string; email : arg string; password : string }.
End LoginArgs.

Module SignupArgs.
Record t : Type := mk { username : string; email : string; password : string }.
End SignupArgs.

Module SearchArgs.
Record t : Type := mk { designation : arg string; department : arg string }.
End SearchArgs.

Module AddArgs.
Record t : Type := mk {
  first_name : string;
  last_name : string;
  email : string;
  gender : arg string;
  designation : string;
  salary : Q;
  date_of_joining : string;
  department : string;
  employee_photo : arg string }.
End AddArgs.

Module UpdateArgs.
Record t : Type := mk {
  eid : string;
  first_name : arg string;
  last_name : arg string;
  email : arg string;
  gender : arg string;
  designation : arg string;
  salary : arg Q;
  date_of_joining : arg string;
  department : arg string;
  employee_photo : arg string }.
End UpdateArgs.

Module Resolvers.

(** ** The validation schemas, as written in the source *)

Definition password_rule : rule :=
  mkRule "password" false
    [(notEmpty, "Password is required.");
     (isLength_min 6, "Password must be at least 6 characters.")].

Definition login_schema : schema := [password_rule].

Definition signup_schema : schema :=
  [mkRule "username" false
     [(notEmpty, "Username is required.");
      (isLength_min 3, "Username must be at least 3 characters.")];
   mkRule "email" false
     [(notEmpty, "Email is required.");
      (isEmail, "Email format is invalid.")];
   password_rule].

Definition addEmployee_schema : schema :=
  [mkRule "first_name" false [(notEmpty, "First name is required.")];
   mkRule "last_name" false [(notEmpty, "Last name is required.")];
   mkRule "email" false
     [(notEmpty, "Email is required.");
      (isEmail, "Email format is invalid.")];
   mkRule "designation" false [(notEmpty, "Designation is required.")];
   mkRule "salary" false
     [(isFloat_min 1000, "Salary must be at least 1000.")];
   mkRule "date_of_joining" false
     [(notEmpty, "Date of joining is required.");
      (isISO8601, "date_of_joining must be a valid date (YYYY-MM-DD).")];
   mkRule "department" false [(notEmpty, "Department is required.")];
   mkRule "employee_photo" true
     [(isString,
       "employee_photo must be a string (URL or base64 image data).")]].

Definition updateEmployee_schema : schema :=
  [mkRule "eid" false [(notEmpty, "Employee ID is required.")];
   mkRule "email" true [(isEmail, "Email format is invalid.")];
   mkRule "salary" true
     [(isFloat_min 1000, "Salary must be at least 1000.")]].

(** ** The [args] objects as [req.body] *)

Definition login_body (a : LoginArgs.t) : body :=
  [("username", str_value (LoginArgs.username a));
   ("email", str_value (LoginArgs.email a));
   ("password", Str (LoginArgs.password a))].

Definition signup_body (a : SignupArgs.t) : body :=
  [("username", Str (SignupArgs.username a));
   ("email", Str (SignupArgs.email a));
   ("password", Str (SignupArgs.password a))].

Definition addEmployee_body (a : AddArgs.t) : body :=
  [("first_name", Str (AddArgs.first_name a));
   ("last_name", Str (AddArgs.last_name a));
   ("email", Str (AddArgs.email a));
   ("gender", str_value (AddArgs.gender a));
   ("designation", Str (AddArgs.designation a));
   ("salary", Num (AddArgs.salary a));
   ("date_of_joining", Str (AddArgs.date_of_joining a));
   ("department", Str (AddArgs.department a));
   ("employee_photo", str_value (AddArgs.employee_photo a))].

Definition updateEmployee_body (a : UpdateArgs.t) : body :=
  [("eid", Str (UpdateArgs.eid a));
   ("first_name", str_value (UpdateArgs.first_name a));
   ("last_name", str_value (UpdateArgs.last_name a));
   ("email", str_value (UpdateArgs.email a));
   ("gender", str_value (UpdateArgs.gender a));
   ("designation", str_value (UpdateArgs.designation a));
   ("salary", num_value (UpdateArgs.salary a));
   ("date_of_joining", str_value (UpdateArgs.date_of_joining a));
   ("department", str_value (UpdateArgs.department a));
   ("employee_photo", str_value (UpdateArgs.employee_photo a))].

(** [const { eid, ...updates } = args] *)
Definition updates_of (a : UpdateArgs.t) : Employee.patch :=
  Employee.mkPatch (UpdateArgs.first_name a) (UpdateArgs.last_name a)
    (UpdateArgs.email a) (UpdateArgs.gender a) (UpdateArgs.designation a)
    (UpdateArgs.salary a) (UpdateArgs.date_of_joining a)
    (UpdateArgs.department a) (UpdateArgs.employee_photo a).

(** [{ ...args, email: args.email.toLowerCase(), employee_photo: photoUrl }] *)
Definition create_fields (a : AddArgs.t) (photoUrl : option string)
  : Employee.fields :=
  Employee.mkFields (AddArgs.first_name a) (AddArgs.last_name a)
    (toLowerCase (AddArgs.email a)) (AddArgs.gender a)
    (AddArgs.designation a) (AddArgs.salary a) (AddArgs.date_of_joining a)
    (AddArgs.department a) photoUrl.

Definition upload_folder : string := "employee-management/employees".

Definition getenv_JWT_SECRET : M (option string) :=
  fun w => (inr (JWT_SECRET w), w).

Section WithLibs.
Context (L : Libs).

Definition runValidation (s : schema) (args : body) : M unit :=
  match validate L s args with
  | [] => ret tt
  | firstError :: others =>
      throw (GraphQLError (msg firstError) "BAD_USER_INPUT"
                          (DetailList (firstError :: others)))
  end.

Definition cloudinary_uploader_upload (payload folder : string) : M string :=
  fun w =>
    let w1 := mkWorld (users w) (employees w) (clock w) (pending w)
                      (UploadCall payload folder :: calls w) (JWT_SECRET w) in
    match cloudinary_upload L payload with
    | inl m => (inl (UploadRejected m), w1)
    | inr secure_url => (inr secure_url, w1)
    end.

Definition uploadEmployeePhoto (employeePhoto : arg string) : M (option string) :=
  if negb (truthy employeePhoto) then ret None
  else
    try_catch
      (secure_url <- cloudinary_uploader_upload (the_string employeePhoto)
                                                upload_folder ;;
       ret (Some secure_url))
      (fun error =>
         throw (GraphQLError "Employee photo upload failed."
                             "INTERNAL_SERVER_ERROR"
                             (DetailText (message_of error)))).

Definition handleDuplicateEmailError {A} (error : error) : M A :=
  match error with
  | MongoServerError code keyPattern =>
      if (code =? 11000)%Z && existsb (String.eqb "email") keyPattern
      then throw email_exists
      else throw error
  | _ => throw error
  end.

(** *** Query *)

Definition login_query (a : LoginArgs.t) : user_query :=
  if truthy (LoginArgs.username a)
  then ByUsername (the_string (LoginArgs.username a))
  else ByEmail (toLowerCase (the_string (LoginArgs.email a))).

Definition login (a : LoginArgs.t) : M string :=
  runValidation login_schema (login_body a) ;;
  if negb (truthy (LoginArgs.username a)) && negb (truthy (LoginArgs.email a))
  then throw (GraphQLError "Either username or email is required for login."
                           "BAD_USER_INPUT" NoDetail)
  else
    user <- User_findOne (login_query a) ;;
    match user with
    | None => throw invalid_credentials
    | Some u =>
        if negb (bcrypt_compare L (LoginArgs.password a) (User.password u))
        then throw invalid_credentials
        else
          jwtSecret <- getenv_JWT_SECRET ;;
          match jwtSecret with
          | Some secret =>
              if truthy_string secret
              then ret (jwt_sign L
                          (mkPayload (User._id u) (User.username u)
                                     (User.email u))
                          secret "1d")
              else throw jwt_secret_missing
          | None => throw jwt_secret_missing
          end
    end.

Definition getEmployees : M (list Employee.doc) :=
  Employee_find (fun _ => true).

Definition getEmployeeById (eid : string) : M Employee.doc :=
  if negb (ObjectId_isValid L eid) then throw invalid_employee_id
  else
    employee <- Employee_findById L eid ;;
    match employee with
    | None => throw employee_not_found
    | Some e => ret e
    end.

(** [new RegExp(source, 'i')], as the test the store applies. *)
Definition new_RegExp_i (source : string) : M (string -> bool) :=
  match RegExp.compile source with
  | RegExp.Compiled r => ret (RegExp.test r)
  | RegExp.SyntaxError => throw (RegExpSyntaxError source)
  | RegExp.Unsupported =>
      match regexp_beyond L source with
      | Some matcher => ret matcher
      | None => throw (RegExpSyntaxError source)
      end
  end.

(** A key of [filter] that was not set matches every document. *)
Definition filter_key (a : arg string) : M (option (string -> bool)) :=
  if truthy a
  then re <- new_RegExp_i (the_string a) ;; ret (Some re)
  else ret None.

Definition key_accepts (k : option (string -> bool)) (text : string) : bool :=
  match k with Some re => re text | None => true end.

Definition searchEmployee (a : SearchArgs.t) : M (list Employee.doc) :=
  if negb (truthy (SearchArgs.designation a)) &&
     negb (truthy (SearchArgs.department a))
  then throw (GraphQLError
                "Provide at least one filter: designation or department."
                "BAD_USER_INPUT" NoDetail)
  else
    by_designation <- filter_key (SearchArgs.designation a) ;;
    by_department <- filter_key (SearchArgs.department a) ;;
    Employee_find (fun e =>
      key_accepts by_designation (Employee.designation e) &&
      key_accepts by_department (Employee.department e)).

(** *** Mutation *)

Definition signup (a : SignupArgs.t) : M User.doc :=
  runValidation signup_schema (signup_body a) ;;
  existingUser <- User_findOne (ByEmail (toLowerCase (SignupArgs.email a))) ;;
  match existingUser with
  | Some _ => throw email_exists
  | None =>
      let hashedPassword := bcrypt_hash L (SignupArgs.password a) 10 in
      try_catch
        (User_create L (SignupArgs.username a)
                     (toLowerCase (SignupArgs.email a)) hashedPassword)
        handleDuplicateEmailError
  end.

(** Lines 267-270: [let photoUrl = null; if (args.employee_photo) ...] *)
Definition photo_step (a : AddArgs.t) : M (option string) :=
  if truthy (AddArgs.employee_photo a)
  then uploadEmployeePhoto (AddArgs.employee_photo a)
  else ret None.

Definition addEmployee (a : AddArgs.t) : M Employee.doc :=
  runValidation addEmployee_schema (addEmployee_body a) ;;
  existingEmployee <-
    Employee_findOne L (EmailIs (toLowerCase (AddArgs.email a))) ;;
  match existingEmployee with
  | Some _ => throw email_exists
  | None =>
      photoUrl <- photo_step a ;;
      try_catch (Employee_create L (create_fields a photoUrl))
                handleDuplicateEmailError
  end.

(** Lines 315-329: the uniqueness pre-check of a supplied email. *)
Definition check_update_email (eid : string) (updates : Employee.patch)
  : M Employee.patch :=
  if truthy (Employee.p_email updates)
  then
    let emailLower := toLowerCase (the_string (Employee.p_email updates)) in
    existingEmployee <-
      Employee_findOne L (EmailIsAndIdIsNot eid emailLower) ;;
    match existingEmployee with
    | Some _ => throw email_exists
    | None => ret (Employee.with_email (Given emailLower) updates)
    end
  else ret updates.

(** Lines 331-347: the write, inside [try]. *)
Definition write_update (eid : string) (updates : Employee.patch)
  : M Employee.doc :=
  try_catch
    (updatedEmployee <- Employee_findByIdAndUpdate L eid updates ;;
     match updatedEmployee with
     | None => throw employee_not_found
     | Some e => ret e
     end)
    handleDuplicateEmailError.

Definition updateEmployee (a : UpdateArgs.t) : M Employee.doc :=
  runValidation updateEmployee_schema (updateEmployee_body a) ;;
  let eid := UpdateArgs.eid a in
  if negb (ObjectId_isValid L eid) then throw invalid_employee_id
  else
    updates <- check_update_email eid (updates_of a) ;;
    write_update eid updates.

Definition deleteEmployee (eid : string) : M string :=
  if negb (ObjectId_isValid L eid) then throw invalid_employee_id
  else
    deletedEmployee <- Employee_findByIdAndDelete L eid ;;
    match deletedEmployee with
    | None => throw employee_not_found
    | Some _ => ret "Employee deleted successfully."
    end.

End WithLibs.
End Resolvers.
Import Resolvers.

(* ================================================================== *)
(** * Sample libraries and worlds, for the closed examples *)
(* ================================================================== *)

Module Sample.

Definition object_id (n : nat) : string :=
  ("65f00000000000000000000" ++
   String (ascii_of_nat (48 + Nat.modulo n 10)) "")%string.

(** The same id, its hex digits in capitals. *)
Definition object_id_in_capitals (n : nat) : string :=
  ("65F00000000000000000000" ++
   String (ascii_of_nat (48 + Nat.modulo n 10)) "")%string.

Definition libs : Libs :=
  mkLibs
    (fun s => includes_ci "@" s)
    (fun s => (String.length s =? 10)%nat)
    (fun _ => None)
    (fun _ => "0")
    (fun s => (String.length s =? 24)%nat)
    toLowerCase
    object_id
    (fun pw _ => ("$2b$10$" ++ pw)%string)
    (fun pw h => String.eqb h ("$2b$10$" ++ pw)%string)
    (fun p _ expiresIn => ("jwt:" ++ userId p ++ ":" ++ expiresIn)%string)
    (fun payload =>
       if String.prefix "data:image/" payload
       then inr "https://res.cloudinary.com/demo/photo.png"
       else inl "Invalid image file")
    (fun _ => None).

Definition ada : User.doc :=
  User.mk (object_id 1) "ada" "ada@x.io" "$2b$10$lovelace".

Definition eng : Employee.doc :=
  Employee.mk (object_id 2) "Grace" "Hopper" "grace@x.io" None
              "Senior Engineer" 5000 "2024-01-15" "Eng" None 2 2.

Definition ops : Employee.doc :=
  Employee.mk (object_id 3) "Alan" "Turing" "alan@x.io" (Some "male")
              "Analyst" 4200 "2024-02-01" "Operations" None 3 3.

(** Documents written by a concurrent request. *)
Definition eve : User.doc :=
  User.mk (object_id 9) "eve" "bob@x.io" "$2b$10$evesecret".

Definition twin : Employee.doc :=
  Employee.mk (object_id 9) "Edsger" "Dijkstra" "edsger@x.io" None
              "Researcher" 3000 "2024-02-29" "Eng" None 4 4.

(** No request is running beside ours. *)
Definition quiet (us : list User.doc) (es : list Employee.doc)
           (secret : option string) : World :=
  mkWorld us es 4 [] [] secret.

(** Another request's writes land before our second store call. *)
Definition racing (us : list User.doc) (es : list Employee.doc)
           (late : list Write) : World :=
  mkWorld us es 4 [[]; late] [] (Some "s3cret").

Definition new_hire : AddArgs.t :=
  AddArgs.mk "Edsger" "Dijkstra" "Edsger@X.io" Omitted "Researcher" 1000
             "2024-03-01" "Eng" Omitted.

Definition no_update (eid : string) : UpdateArgs.t :=
  UpdateArgs.mk eid Omitted Omitted Omitted Omitted Omitted Omitted Omitted
                Omitted Omitted.

Definition update_salary (eid : string) (q : Q) : UpdateArgs.t :=
  UpdateArgs.mk eid Omitted Omitted Omitted Omitted Omitted (Given q) Omitted
                Omitted Omitted.

Definition update_email (eid : string) (e : string) : UpdateArgs.t :=
  UpdateArgs.mk eid Omitted Omitted (Given e) Omitted Omitted Omitted Omitted
                Omitted Omitted.

Definition update_first_name (eid : string) (n : string) : UpdateArgs.t :=
  UpdateArgs.mk eid (Given n) Omitted Omitted Omitted Omitted Omitted Omitted
                Omitted Omitted.

End Sample.


(* ================================================================== *)
(** * Vocabulary of the specification *)
(* ================================================================== *)

(** "Each supplied filter is matched case-insensitively as a substring
    against the corresponding field": a filter that was not supplied
    constrains nothing. *)
Definition supplied_matches (filter_text : arg string) (field_text : string)
  : bool :=
  if truthy filter_text then includes_ci (the_string filter_text) field_text
  else true.

(** The collections as a store call sees them. *)
Definition users_seen_by (operation : string) (w : World) : list User.doc :=
  users (enter operation w).
Definition employees_seen_by (operation : string) (w : World)
  : list Employee.doc :=
  employees (enter operation w).

(** "Other inputs valid", for [addEmployee]: what the validation schema
    and the model's schema ask of the fields other than the salary. *)
Definition nonblank (s : string) : bool := negb (String.eqb (trim s) "").

Definition add_other_inputs_valid (L : Libs) (a : AddArgs.t) : bool :=
  nonblank (AddArgs.first_name a) &&
  nonblank (AddArgs.last_name a) &&
  negb (String.eqb (email_setters (AddArgs.email a)) "") &&
  validator_isEmail L (AddArgs.email a) &&
  nonblank (AddArgs.designation a) &&
  nonblank (AddArgs.date_of_joining a) &&
  validator_isISO8601 L (AddArgs.date_of_joining a) &&
  nonblank (AddArgs.department a) &&
  match AddArgs.employee_photo a with IsNull => false | _ => true end.

(** The store and the image host are ready for the call: no other
    request is writing, no employee holds the email, a present photo
    uploads. *)
Definition add_can_proceed (L : Libs) (a : AddArgs.t) (w : World) : Prop :=
  pending w = [] /\
  (forall e, In e (employees w) ->
             Employee.email e <> email_setters (AddArgs.email a)) /\
  (truthy (AddArgs.employee_photo a) = true ->
   exists url, cloudinary_upload L (the_string (AddArgs.employee_photo a))
               = inr url).

(** The same for [updateEmployee]. *)
Definition patch_text_ok (a : arg string) : bool :=
  match a with Omitted => true | IsNull => false | Given s => nonblank s end.

Definition update_other_inputs_valid (L : Libs) (a : UpdateArgs.t) : bool :=
  negb (String.eqb (UpdateArgs.eid a) "") &&
  ObjectId_isValid L (UpdateArgs.eid a) &&
  patch_text_ok (UpdateArgs.first_name a) &&
  patch_text_ok (UpdateArgs.last_name a) &&
  match UpdateArgs.email a with
  | Omitted => true
  | IsNull => false
  | Given e => validator_isEmail L e && negb (String.eqb (email_setters e) "")
  end &&
  patch_text_ok (UpdateArgs.designation a) &&
  patch_text_ok (UpdateArgs.date_of_joining a) &&
  patch_text_ok (UpdateArgs.department a).

(** The id is read as the store reads it: as the ObjectId it spells. *)
Definition update_can_proceed (L : Libs) (a : UpdateArgs.t) (w : World)
  : Prop :=
  pending w = [] /\
  (exists r, In r (employees w) /\
             Employee._id r = ObjectId_cast L (UpdateArgs.eid a)) /\
  match UpdateArgs.email a with
  | Given e =>
      forall r, In r (employees w) -> Employee.email r = email_setters e ->
                Employee._id r = ObjectId_cast L (UpdateArgs.eid a)
  | Omitted | IsNull => True
  end.

(** The chains of [addEmployee]'s schema in the order they report: the
    six chains of one validator, then the two of two. *)
Definition addEmployee_reporting_order : schema :=
  [mkRule "first_name" false [(notEmpty, "First name is required.")];
   mkRule "last_name" false [(notEmpty, "Last name is required.")];
   mkRule "designation" false [(notEmpty, "Designation is required.")];
   mkRule "salary" false
     [(isFloat_min 1000, "Salary must be at least 1000.")];
   mkRule "department" false [(notEmpty, "Department is required.")];
   mkRule "employee_photo" true
     [(isString,
       "employee_photo must be a string (URL or base64 image data).")];
   mkRule "email" false
     [(notEmpty, "Email is required.");
      (isEmail, "Email format is invalid.")];
   mkRule "date_of_joining" false
     [(notEmpty, "Date of joining is required.");
      (isISO8601, "date_of_joining must be a valid date (YYYY-MM-DD).")]].

(** The world in which [updateEmployee] reaches its write: the email
    pre-check, when an email is supplied, has asked the store once. *)
Definition world_after_precheck (a : UpdateArgs.t) (w : World) : World :=
  if truthy (UpdateArgs.email a) then enter "Employee.findOne" w else w.

Definition salary_error : validation_error :=
  mkValidationError "salary" "Salary must be at least 1000.".

(** The account [login] looks up. *)
Definition account_seen (a : LoginArgs.t) (w : World) : option User.doc :=
  find (user_matches (login_query a)) (users_seen_by "User.findOne" w).

(** The first of the accounts whose field [field] is exactly [key]. *)
Definition held_by (field : User.doc -> string) (key : string)
           (us : list User.doc) : option User.doc :=
  find (fun u => String.eqb (field u) key) us.

(** ** What the validation schemas ask, on the typed arguments *)

Definition login_input_ok (a : LoginArgs.t) : bool :=
  (6 <=? String.length (LoginArgs.password a))%nat &&
  (truthy (LoginArgs.username a) || truthy (LoginArgs.email a)).

Definition signup_input_ok (L : Libs) (a : SignupArgs.t) : bool :=
  (3 <=? String.length (SignupArgs.username a))%nat &&
  negb (String.eqb (SignupArgs.email a) "") &&
  validator_isEmail L (SignupArgs.email a) &&
  (6 <=? String.length (SignupArgs.password a))%nat.

Definition add_input_ok (L : Libs) (a : AddArgs.t) : bool :=
  negb (String.eqb (AddArgs.first_name a) "") &&
  negb (String.eqb (AddArgs.last_name a) "") &&
  negb (String.eqb (AddArgs.email a) "") &&
  validator_isEmail L (AddArgs.email a) &&
  negb (String.eqb (AddArgs.designation a) "") &&
  Qle_bool 1000 (AddArgs.salary a) &&
  negb (String.eqb (AddArgs.date_of_joining a) "") &&
  validator_isISO8601 L (AddArgs.date_of_joining a) &&
  negb (String.eqb (AddArgs.department a) "") &&
  match AddArgs.employee_photo a with IsNull => false | _ => true end.

Definition update_input_ok (L : Libs) (a : UpdateArgs.t) : bool :=
  negb (String.eqb (UpdateArgs.eid a) "") &&
  match UpdateArgs.email a with
  | Omitted => true
  | IsNull => validator_isEmail L ""
  | Given e => validator_isEmail L e
  end &&
  match UpdateArgs.salary a with
  | Omitted => true
  | IsNull => false
  | Given q => Qle_bool 1000 q
  end.

(** ** Relations between the world before and after a call *)

(** [m] takes every world to one related to it by [R]. *)
Definition keeps (R : World -> World -> Prop) {A} (m : M A) : Prop :=
  forall w, R w (snd (m w)).

(** The calls logged between [w] and [w'] all satisfy [P]. *)
Definition calls_added (P : Call -> Prop) (w w' : World) : Prop :=
  exists added, calls w' = added ++ calls w /\ Forall P added.

Definition is_store_call (c : Call) : Prop :=
  match c with StoreCall _ => True | UploadCall _ _ => False end.

(** A store call, or the upload of [payload] to the employees folder. *)
Definition store_call_or_upload_of (payload : string) (c : Call) : Prop :=
  match c with
  | StoreCall _ => True
  | UploadCall p folder => p = payload /\ folder = "employee-management/employees"
  end.

(** ** What the schema of [models/Employee.js] guarantees of a record *)

Definition well_formed (d : Employee.doc) : Prop :=
  Employee.first_name d <> "" /\
  Employee.last_name d <> "" /\
  Employee.email d <> "" /\
  toLowerCase (Employee.email d) = Employee.email d /\
  Employee.designation d <> "" /\
  1000 <= Employee.salary d /\
  Employee.date_of_joining d <> "" /\
  Employee.department d <> "".

Definition write_well_formed (wr : Write) : Prop :=
  match wr with
  | PutEmployee e => well_formed e
  | PutUser _ | DropEmployee _ => True
  end.

(** The stored employees are well formed, and so are those that
    concurrent requests are about to write. *)
Definition store_well_formed (w : World) : Prop :=
  Forall well_formed (employees w) /\
  Forall (Forall write_well_formed) (pending w).

Definition stays_well_formed (w w' : World) : Prop :=
  store_well_formed w -> store_well_formed w'.

(** The error is the one [runValidation] throws: its details are the
    list of violations. *)
Definition reports_violations (e : error) : Prop :=
  match e with
  | GraphQLError _ _ (DetailList _) => True
  | _ => False
  end.

(** [.sort({ created_at: -1 })]: no record comes before a newer one. *)
Definition newest_first_order (l : list Employee.doc) : Prop :=
  StronglySorted
    (fun x y => (Employee.created_at y <= Employee.created_at x)%nat) l.

(** [new RegExp(source, 'i')] throws: the text is not a pattern. *)
Definition pattern_refused (L : Libs) (source : string) : bool :=
  match RegExp.compile source with
  | RegExp.Compiled _ => false
  | RegExp.SyntaxError => true
  | RegExp.Unsupported =>
      match regexp_beyond L source with Some _ => false | None => true end
  end.

(** The error is the store's duplicate-key error on the email index. *)
Definition is_duplicate_email (e : error) : bool :=
  match e with
  | MongoServerError code keyPattern =>
      (code =? 11000)%Z && existsb (String.eqb "email") keyPattern
  | _ => false
  end.

(** ** One email, one employee *)

(** Two stored records with the same email are records of the same id. *)
Definition emails_unique (w : World) : Prop :=
  forall x y, In x (employees w) -> In y (employees w) ->
              Employee.email x = Employee.email y ->
              Employee._id x = Employee._id y.

(** On a store no other request is writing to. *)
Definition stays_unique (w w' : World) : Prop :=
  pending w = [] /\ emails_unique w -> pending w' = [] /\ emails_unique w'.

(* ================================================================== *)
(** * Strings and patterns *)
(* ================================================================== *)

Lemma lower_char_idempotent (c : ascii) : lower_char (lower_char c) = lower_char c.
Proof. destruct c as [[] [] [] [] [] [] [] []]; reflexivity. Qed.

Lemma toLowerCase_idempotent (s : string) :
  toLowerCase (toLowerCase s) = toLowerCase s.
Proof.
  induction s as [|c s IH]; simpl; [reflexivity|].
  now rewrite lower_char_idempotent, IH.
Qed.

Lemma truthy_given (a : arg string) :
  truthy a = true -> a = Given (the_string a) /\ the_string a <> "".
Proof.
  destruct a as [| |s]; simpl; try discriminate.
  destruct s; simpl; [discriminate|]. intros _. split; [reflexivity|discriminate].
Qed.

Module RegExpFacts.
Import RegExp.

Lemma match_here_alt (s : list ascii) : forall r1 r2,
  match_here (Alt r1 r2) s = match_here r1 s || match_here r2 s.
Proof.
  induction s as [|c s IH]; intros r1 r2; simpl.
  - now destruct (nullable r1), (nullable r2).
  - rewrite IH. now destruct (nullable r1), (nullable r2), (match_here (deriv c r1) s).
Qed.

Lemma match_here_void_cat (s : list ascii) : forall r,
  match_here (Cat Void r) s = false.
Proof.
  induction s as [|c s IH]; intros r; simpl; [reflexivity|apply IH].
Qed.

Lemma match_here_eps_cat (r : regex) (s : list ascii) :
  match_here (Cat Eps r) s = match_here r s.
Proof.
  destruct s as [|c s]; simpl; [reflexivity|].
  now rewrite match_here_alt, match_here_void_cat.
Qed.

(** On a chain of literals the matcher is the case-blind prefix test. *)
Lemma match_here_literal (p : list ascii) : forall s,
  match_here (literal p) s = starts_with_ci p s.
Proof.
  induction p as [|a p IH]; intros s.
  - destruct s; reflexivity.
  - destruct s as [|c s]; [reflexivity|].
    cbn [literal fold_right match_here nullable deriv cset_mem starts_with_ci andb orb].
    destruct (Ascii.eqb (lower_char a) (lower_char c)); cbn [andb].
    + rewrite match_here_eps_cat. apply IH.
    + apply match_here_void_cat.
Qed.

Lemma search_literal (p s : list ascii) :
  search (literal p) s = includes_ci_chars p s.
Proof.
  induction s as [|c s IH]; cbn [search includes_ci_chars];
    rewrite match_here_literal; [reflexivity|now rewrite IH].
Qed.

Lemma syntax_char_false (c : ascii) :
  syntax_char c = false ->
  Ascii.eqb c "\" = false /\ Ascii.eqb c "." = false /\
  is_quantifier c = false /\ Ascii.eqb c "|" = false /\
  Ascii.eqb c "(" = false /\ Ascii.eqb c ")" = false.
Proof.
  unfold syntax_char, is_quantifier. cbn [list_ascii_of_string existsb].
  intros H. repeat (apply orb_false_elim in H; destruct H as [? H]).
  repeat split; try assumption.
  repeat (apply orb_false_intro); assumption.
Qed.

Lemma parse_plain_char (c : ascii) rest cur stack lt :
  syntax_char c = false ->
  parse (c :: rest) cur stack lt false =
  parse rest (push_item (sym c) cur) stack Atom false.
Proof.
  intros H. pose proof (syntax_char_false c H) as (E1 & E2 & E3 & E4 & E5 & E6).
  cbn [parse]. now rewrite E1, E2, E3, E4, E5, E6, H.
Qed.

Lemma parse_plain (p : list ascii) : forall its lt,
  forallb (fun c => negb (syntax_char c)) p = true ->
  parse p (mkFrame [] its) [] lt false =
  Compiled (cat_items (rev (map sym p) ++ its)).
Proof.
  induction p as [|c p IH]; intros its lt H.
  - reflexivity.
  - cbn [forallb] in H. apply andb_prop in H. destruct H as [Hc Hp].
    apply negb_true_iff in Hc.
    rewrite parse_plain_char by assumption.
    unfold push_item. cbn [alts items]. rewrite IH by assumption.
    cbn [map rev]. now rewrite <- app_assoc.
Qed.

Lemma cat_items_rev (p : list ascii) : cat_items (rev (map sym p)) = literal p.
Proof.
  unfold cat_items. rewrite <- fold_left_rev_right, rev_involutive.
  induction p as [|c p IH]; simpl; [reflexivity|now rewrite IH].
Qed.

(** A source without syntax characters compiles to its literal chain,
    and the resulting test is case-blind substring search. *)
Lemma compile_plain (source : string) :
  plain source = true ->
  compile source = Compiled (literal (list_ascii_of_string source)).
Proof.
  intros H. unfold compile. rewrite parse_plain by exact H.
  now rewrite app_nil_r, cat_items_rev.
Qed.

Lemma test_literal (source text : string) :
  test (literal (list_ascii_of_string source)) text = includes_ci source text.
Proof. apply search_literal. Qed.

End RegExpFacts.

(* ================================================================== *)
(** * The monad and the store *)
(* ================================================================== *)

Lemma In_insert_newest_first (e x : Employee.doc) (l : list Employee.doc) :
  In e (insert_newest_first x l) <-> x = e \/ In e l.
Proof.
  induction l as [|y l IH]; simpl; [tauto|].
  destruct (Employee.created_at y <=? Employee.created_at x)%nat; simpl; tauto.
Qed.

Lemma In_newest_first (e : Employee.doc) (l : list Employee.doc) :
  In e (newest_first l) <-> In e l.
Proof.
  induction l as [|x l IH]; simpl; [tauto|].
  rewrite In_insert_newest_first. tauto.
Qed.

Lemma filter_key_plain (L : Libs) (a : arg string) (w : World) :
  RegExp.plain (the_string a) = true ->
  exists k, filter_key L a w = (inr k, w) /\
            forall text, key_accepts k text = supplied_matches a text.
Proof.
  intros Hp. unfold filter_key, supplied_matches.
  destruct (truthy a).
  - unfold new_RegExp_i. rewrite RegExpFacts.compile_plain by exact Hp.
    eexists. split; [reflexivity|].
    intros text. apply RegExpFacts.test_literal.
  - exists None. split; reflexivity.
Qed.

Lemma land_write_JWT_SECRET (wr : Write) (w : World) :
  JWT_SECRET (land_write wr w) = JWT_SECRET w.
Proof. destruct wr; reflexivity. Qed.

Lemma land_batch_JWT_SECRET (batch : list Write) : forall w,
  JWT_SECRET (fold_left (fun acc wr => land_write wr acc) batch w) = JWT_SECRET w.
Proof.
  induction batch as [|wr batch IH]; intros w; simpl; [reflexivity|].
  now rewrite IH, land_write_JWT_SECRET.
Qed.

Lemma enter_JWT_SECRET (operation : string) (w : World) :
  JWT_SECRET (enter operation w) = JWT_SECRET w.
Proof.
  unfold enter. destruct (pending w) as [|batch later]; simpl; [reflexivity|].
  now rewrite land_batch_JWT_SECRET.
Qed.

Lemma find_no_match {A} (f : A -> bool) (l : list A) :
  (forall x, In x l -> f x = false) -> find f l = None.
Proof.
  induction l as [|x l IH]; intros H; simpl; [reflexivity|].
  rewrite (H x (or_introl eq_refl)). apply IH. intros y Hy. apply H. now right.
Qed.

Lemma no_record_with_id (L : Libs) (eid : string) (l : list Employee.doc) :
  (forall e, In e l -> Employee._id e <> ObjectId_cast L eid) ->
  find (has_id L eid) l = None.
Proof.
  intros H. apply find_no_match. intros e He. unfold has_id.
  apply String.eqb_neq. now apply H.
Qed.

(** The handler rethrows whatever is not a duplicate key on [email]. *)
Lemma handler_rethrows_GraphQLError {A} m c d (w : World) :
  @handleDuplicateEmailError A (GraphQLError m c d) w
  = (inl (GraphQLError m c d), w).
Proof. reflexivity. Qed.

Lemma handler_maps_duplicate_email {A} (keyPattern : list string) (w : World) :
  In "email" keyPattern ->
  @handleDuplicateEmailError A (MongoServerError 11000 keyPattern) w
  = (inl email_exists, w).
Proof.
  intros H. unfold handleDuplicateEmailError. cbn [Z.eqb Pos.eqb andb].
  replace (existsb (String.eqb "email") keyPattern) with true; [reflexivity|].
  symmetry. apply existsb_exists. exists "email". split; [exact H|reflexivity].
Qed.

Lemma runValidation_passes (L : Libs) (s : schema) (b : body) (w : World) :
  validate L s b = [] -> runValidation L s b w = (inr tt, w).
Proof. intros H. unfold runValidation. now rewrite H. Qed.

Lemma runValidation_fails (L : Libs) (s : schema) (b : body) (w : World) :
  validate L s b <> [] ->
  exists e, runValidation L s b w = (inl e, w) /\ InvalidInput e.
Proof.
  intros H. unfold runValidation. destruct (validate L s b) as [|x xs].
  - contradiction.
  - eexists. split; reflexivity.
Qed.

(** The schemas whose chains are all of one length report in the order
    they are written. *)
Lemma login_schema_order : completion_order login_schema = login_schema.
Proof. reflexivity. Qed.

Lemma signup_schema_order : completion_order signup_schema = signup_schema.
Proof. reflexivity. Qed.

Lemma updateEmployee_schema_order :
  completion_order updateEmployee_schema = updateEmployee_schema.
Proof. reflexivity. Qed.

Lemma addEmployee_schema_order :
  completion_order addEmployee_schema = addEmployee_reporting_order.
Proof. reflexivity. Qed.

Lemma login_password_valid (L : Libs) (a : LoginArgs.t) :
  (6 <= String.length (LoginArgs.password a))%nat ->
  validate L login_schema (login_body a) = [].
Proof.
  intros H. unfold validate. rewrite login_schema_order.
  unfold login_schema, password_rule, rule_errors, login_body.
  cbn [flat_map lookup String.eqb Ascii.eqb Bool.eqb field optional checks
       holds to_text fst snd app].
  apply Nat.leb_le in H. rewrite H.
  destruct (LoginArgs.password a) as [|c pw]; [discriminate H|reflexivity].
Qed.

(** Lines 88-102: after validation and with an identity supplied, a
    missing account and a failed comparison throw the same error. *)
Lemma login_rejects (L : Libs) (a : LoginArgs.t) (w : World) :
  (6 <= String.length (LoginArgs.password a))%nat ->
  truthy (LoginArgs.username a) = true \/ truthy (LoginArgs.email a) = true ->
  account_seen a w = None \/
  (exists u, account_seen a w = Some u /\
             bcrypt_compare L (LoginArgs.password a) (User.password u) = false) ->
  login L a w = (inl invalid_credentials, enter "User.findOne" w).
Proof.
  intros Hpw Hid Hacc. unfold login, bind.
  rewrite runValidation_passes by now apply login_password_valid.
  assert (negb (truthy (LoginArgs.username a)) &&
          negb (truthy (LoginArgs.email a)) = false) as ->.
  { destruct Hid as [-> | ->]; simpl; [reflexivity|apply andb_false_r]. }
  unfold User_findOne. unfold account_seen, users_seen_by in Hacc.
  destruct Hacc as [-> | (u & -> & Hcmp)]; [reflexivity|].
  now rewrite Hcmp.
Qed.

Lemma find_finds {A} (f : A -> bool) (l : list A) (x : A) :
  In x l -> f x = true -> exists y, find f l = Some y.
Proof.
  induction l as [|z l IH]; intros Hin Hf; [contradiction|]. simpl.
  destruct (f z) eqn:E; [now exists z|].
  destruct Hin as [-> | Hin]; [congruence|now apply IH].
Qed.

Lemma email_setters_lower (s : string) :
  email_setters (toLowerCase s) = email_setters s.
Proof. unfold email_setters. now rewrite toLowerCase_idempotent. Qed.

Lemma quiet_enter (operation : string) (w : World) :
  pending w = [] ->
  enter operation w
  = mkWorld (users w) (employees w) (S (clock w)) []
            (StoreCall operation :: calls w) (JWT_SECRET w).
Proof. intros H. unfold enter. rewrite H. cbv zeta iota. now rewrite H. Qed.

Lemma below_floor (q : Q) : q < 1000 -> Qle_bool 1000 q = false.
Proof.
  intros H. destruct (Qle_bool 1000 q) eqn:E; [|reflexivity].
  apply Qle_bool_iff in E. exfalso. lra.
Qed.

Lemma at_floor (q : Q) : q == 1000 -> Qle_bool 1000 q = true.
Proof. intros H. apply Qle_bool_iff. lra. Qed.

Lemma nonblank_nonempty (s : string) : nonblank s = true -> String.eqb s "" = false.
Proof. destruct s; [discriminate|reflexivity]. Qed.

Lemma email_nonempty (s : string) :
  String.eqb (email_setters s) "" = false -> String.eqb s "" = false.
Proof. destruct s; [discriminate|reflexivity]. Qed.

Lemma addEmployee_salary_rejected (L : Libs) (a : AddArgs.t) :
  AddArgs.salary a < 1000 ->
  validate L addEmployee_schema (addEmployee_body a) <> [].
Proof.
  intros Hlow Hnil.
  assert (In salary_error (validate L addEmployee_schema (addEmployee_body a))) as Hin.
  { unfold validate. rewrite addEmployee_schema_order. apply in_flat_map.
    exists (mkRule "salary" false
              [(isFloat_min 1000, "Salary must be at least 1000.")]).
    split; [cbn; tauto|].
    unfold rule_errors. cbn. rewrite (below_floor _ Hlow). now left. }
  rewrite Hnil in Hin. exact Hin.
Qed.

Lemma updateEmployee_salary_rejected (L : Libs) (a : UpdateArgs.t) (q : Q) :
  UpdateArgs.salary a = Given q -> q < 1000 ->
  validate L updateEmployee_schema (updateEmployee_body a) <> [].
Proof.
  intros Hq Hlow Hnil.
  assert (In salary_error
             (validate L updateEmployee_schema (updateEmployee_body a))) as Hin.
  { unfold validate. rewrite updateEmployee_schema_order. apply in_flat_map.
    exists (mkRule "salary" true
              [(isFloat_min 1000, "Salary must be at least 1000.")]).
    split; [cbn; tauto|].
    unfold rule_errors. cbn. rewrite Hq. cbn. rewrite (below_floor _ Hlow).
    now left. }
  rewrite Hnil in Hin. exact Hin.
Qed.

Lemma addEmployee_validation_passes (L : Libs) (a : AddArgs.t) :
  add_other_inputs_valid L a = true ->
  Qle_bool 1000 (AddArgs.salary a) = true ->
  validate L addEmployee_schema (addEmployee_body a) = [].
Proof.
  unfold add_other_inputs_valid. intros H Hq.
  repeat (apply andb_prop in H; destruct H as [H ?]).
  unfold validate. rewrite addEmployee_schema_order.
  unfold addEmployee_reporting_order, rule_errors, addEmployee_body.
  cbn [flat_map lookup String.eqb Ascii.eqb Bool.eqb field optional checks
       holds to_text fst snd app].
  repeat match goal with
         | Hn : nonblank ?s = true |- _ =>
             rewrite (nonblank_nonempty s Hn); clear Hn
         end.
  match goal with
  | He : negb (String.eqb (email_setters _) "") = true |- _ =>
      apply negb_true_iff in He; rewrite (email_nonempty _ He)
  end.
  match goal with
  | Hm : validator_isEmail _ _ = true |- _ => rewrite Hm
  end.
  match goal with
  | Hd : validator_isISO8601 _ _ = true |- _ => rewrite Hd
  end.
  rewrite Hq. cbn [negb app].
  destruct (AddArgs.employee_photo a); [reflexivity|discriminate|reflexivity].
Qed.

Lemma patch_text_ok_required (path : string) (a : arg string) :
  patch_text_ok a = true -> patch_required path (cast_text a) = [].
Proof.
  destruct a as [| |s]; cbn; [reflexivity|discriminate|].
  unfold nonblank, required. intros H. apply negb_true_iff in H. now rewrite H.
Qed.

Lemma updateEmployee_validation_passes (L : Libs) (a : UpdateArgs.t) (q : Q) :
  update_other_inputs_valid L a = true ->
  UpdateArgs.salary a = Given q ->
  Qle_bool 1000 q = true ->
  validate L updateEmployee_schema (updateEmployee_body a) = [].
Proof.
  unfold update_other_inputs_valid. intros H Hs Hq.
  repeat (apply andb_prop in H; destruct H as [H ?]).
  unfold validate. rewrite updateEmployee_schema_order.
  unfold updateEmployee_schema, rule_errors, updateEmployee_body.
  cbn [flat_map lookup String.eqb Ascii.eqb Bool.eqb field optional checks
       holds to_text fst snd app].
  rewrite Hs. cbn [num_value]. rewrite Hq.
  apply negb_true_iff in H. rewrite H. cbn [negb app].
  destruct (UpdateArgs.email a) as [| |e]; cbn [str_value to_text];
    [reflexivity|discriminate|].
  match goal with
  | Hm : validator_isEmail L e && _ = true |- _ =>
      apply andb_prop in Hm; destruct Hm as [-> _]
  end.
  reflexivity.
Qed.

Lemma not_taken (by_other_than : option string) (email : string)
      (l : list Employee.doc) :
  (forall e, In e l -> Employee.email e = email ->
             match by_other_than with
             | Some id => Employee._id e = id
             | None => False
             end) ->
  email_taken by_other_than email l = false.
Proof.
  intros H. unfold email_taken.
  destruct (existsb _ l) eqn:E; [|reflexivity].
  apply existsb_exists in E. destruct E as (e & Hin & He).
  apply andb_prop in He. destruct He as [Hid Hmail].
  apply String.eqb_eq in Hmail. specialize (H e Hin Hmail).
  destruct by_other_than as [id|]; [|contradiction].
  rewrite H, String.eqb_refl in Hid. discriminate.
Qed.

(** The write of [addEmployee] on a quiet store that does not hold the
    email. *)
Lemma Employee_create_succeeds (L : Libs) (a : AddArgs.t)
      (photoUrl : option string) (w : World) :
  add_other_inputs_valid L a = true ->
  Qle_bool 1000 (AddArgs.salary a) = true ->
  pending w = [] ->
  (forall e, In e (employees w) ->
             Employee.email e <> email_setters (AddArgs.email a)) ->
  exists d w',
    Employee_create L (create_fields a photoUrl) w = (inr d, w') /\
    Employee.salary d = AddArgs.salary a /\
    In d (employees w').
Proof.
  unfold add_other_inputs_valid. intros H Hq Hquiet Hfree.
  repeat (apply andb_prop in H; destruct H as [H ?]).
  unfold Employee_create. rewrite (quiet_enter _ _ Hquiet).
  cbn [users employees clock pending calls JWT_SECRET].
  unfold invalid_paths, new_employee, create_fields.
  cbn [Employee.first_name Employee.last_name Employee.email
       Employee.designation Employee.salary Employee.date_of_joining
       Employee.department Employee.f_first_name Employee.f_last_name
       Employee.f_email Employee.f_designation Employee.f_salary
       Employee.f_date_of_joining Employee.f_department].
  rewrite email_setters_lower.
  unfold nonblank in *.
  repeat match goal with
         | Hn : negb (String.eqb ?s "") = true |- _ =>
             apply negb_true_iff in Hn; unfold required; rewrite Hn; clear Hn
         end.
  unfold min_salary. rewrite Hq. cbn [app].
  rewrite not_taken.
  - do 2 eexists. split; [reflexivity|]. split; [reflexivity|].
    cbn [set_employees employees]. apply in_or_app. right. now left.
  - intros e Hin He. exact (Hfree e Hin He).
Qed.

Lemma try_catch_value {A} (body : M A) (handler : error -> M A)
      (w w' : World) (a : A) :
  body w = (inr a, w') -> try_catch body handler w = (inr a, w').
Proof. intros H. unfold try_catch. now rewrite H. Qed.

(** The email the pre-check puts in the update is, to the model's
    validators, the email that was supplied. *)
Lemma patch_invalid_paths_with_email (p : Employee.patch) (E : string) :
  Employee.p_email p = Given E ->
  patch_invalid_paths
    (cast_patch (Employee.with_email (Given (toLowerCase E)) p))
  = patch_invalid_paths (cast_patch p).
Proof.
  intros H. unfold patch_invalid_paths, cast_patch, Employee.with_email.
  cbn [Employee.p_first_name Employee.p_last_name Employee.p_email
       Employee.p_designation Employee.p_salary Employee.p_date_of_joining
       Employee.p_department].
  rewrite H. cbn [cast_email]. now rewrite email_setters_lower.
Qed.

(** The write of [updateEmployee] on a quiet store holding the record. *)
Lemma write_update_succeeds (L : Libs) (eid : string) (p : Employee.patch)
      (q : Q) (w : World) :
  pending w = [] ->
  (exists r, In r (employees w) /\ Employee._id r = ObjectId_cast L eid) ->
  patch_text_ok (Employee.p_first_name p) = true ->
  patch_text_ok (Employee.p_last_name p) = true ->
  patch_text_ok (Employee.p_designation p) = true ->
  patch_text_ok (Employee.p_date_of_joining p) = true ->
  patch_text_ok (Employee.p_department p) = true ->
  Employee.p_salary p = Given q ->
  Qle_bool 1000 q = true ->
  Employee.p_email p = Omitted \/
  (exists e, Employee.p_email p = Given e /\
             String.eqb (email_setters e) "" = false /\
             forall r, In r (employees w) ->
                       Employee.email r = email_setters e ->
                       Employee._id r = ObjectId_cast L eid) ->
  exists d w',
    write_update L eid p w = (inr d, w') /\
    Employee.salary d = q /\ Employee._id d = ObjectId_cast L eid /\
    In d (employees w').
Proof.
  intros Hquiet (r & Hr & Hrid) H1 H2 H3 H4 H5 Hs Hq Hmail.
  unfold write_update, try_catch, bind, Employee_findByIdAndUpdate.
  rewrite (quiet_enter _ _ Hquiet).
  cbn [users employees clock pending calls JWT_SECRET].
  assert (patch_invalid_paths (cast_patch p) = []) as ->.
  { unfold patch_invalid_paths, cast_patch.
    cbn [Employee.p_first_name Employee.p_last_name Employee.p_email
         Employee.p_designation Employee.p_salary Employee.p_date_of_joining
         Employee.p_department].
    rewrite !patch_text_ok_required by assumption.
    rewrite Hs. unfold min_salary. rewrite Hq.
    destruct Hmail as [-> | (e & -> & He & _)]; cbn; [reflexivity|].
    unfold required. now rewrite He. }
  destruct (find_finds (has_id L eid) (employees w) r Hr) as [old Hold].
  { unfold has_id. rewrite Hrid. apply String.eqb_refl. }
  rewrite Hold. pose proof (find_some _ _ Hold) as [Hin Hid].
  unfold has_id in Hid. apply String.eqb_eq in Hid.
  assert (negb (String.eqb (Employee.email
                              (apply_patch (S (clock w)) (cast_patch p) old))
                           (Employee.email old)) &&
          email_taken (Some (Employee._id old))
            (Employee.email (apply_patch (S (clock w)) (cast_patch p) old))
            (employees w) = false) as ->.
  { destruct Hmail as [Hom | (e & Hgiven & _ & Hown)].
    - cbn [apply_patch Employee.email cast_patch Employee.p_email].
      rewrite Hom. cbn [cast_email set_text]. now rewrite String.eqb_refl.
    - cbn [apply_patch Employee.email cast_patch Employee.p_email].
      rewrite Hgiven. cbn [cast_email set_text].
      rewrite not_taken; [apply andb_false_r|now rewrite Hid]. }
  do 2 eexists. split; [reflexivity|].
  cbn [apply_patch Employee.salary Employee._id cast_patch Employee.p_salary].
  rewrite Hs. split; [reflexivity|]. split; [exact Hid|].
  cbn [set_employees employees]. unfold replace_doc.
  apply in_map_iff. exists old. split; [|exact Hin].
  cbn [Employee._id]. now rewrite String.eqb_refl.
Qed.

(* ================================================================== *)
(** * Properties of the resolvers *)
(* ================================================================== *)

Section Claims.
Context (L : Libs).

(** C2, as amended.  [searchEmployee] fails with [BAD_USER_INPUT], before
    any store call, when neither filter is supplied.  When a filter is
    supplied and the supplied texts hold no regular-expression syntax
    character, the employees returned are exactly the stored ones whose
    designation and department contain the respective supplied text as a
    substring, letter case ignored, both conditions together. *)
Theorem searchEmployee_plain_filters (a : SearchArgs.t) (w : World) :
  (truthy (SearchArgs.designation a) = false ->
   truthy (SearchArgs.department a) = false ->
   exists e, searchEmployee L a w = (inl e, w) /\ InvalidInput e) /\
  (truthy (SearchArgs.designation a) = true \/
   truthy (SearchArgs.department a) = true ->
   RegExp.plain (the_string (SearchArgs.designation a)) = true ->
   RegExp.plain (the_string (SearchArgs.department a)) = true ->
   exists found,
     searchEmployee L a w = (inr found, enter "Employee.find" w) /\
     forall e,
       In e found <->
       In e (employees_seen_by "Employee.find" w) /\
       supplied_matches (SearchArgs.designation a) (Employee.designation e) = true /\
       supplied_matches (SearchArgs.department a) (Employee.department e) = true).
Proof.
  split.
  - intros H1 H2. unfold searchEmployee. rewrite H1, H2. simpl.
    eexists. split; [reflexivity|reflexivity].
  - intros Hsome Hp1 Hp2. unfold searchEmployee.
    assert (negb (truthy (SearchArgs.designation a)) &&
            negb (truthy (SearchArgs.department a)) = false) as ->.
    { destruct Hsome as [-> | ->]; simpl; [reflexivity|apply andb_false_r]. }
    destruct (filter_key_plain L _ w Hp1) as (k1 & E1 & K1).
    destruct (filter_key_plain L _ w Hp2) as (k2 & E2 & K2).
    unfold bind. rewrite E1, E2. unfold Employee_find.
    eexists. split; [reflexivity|].
    intros e. unfold employees_seen_by.
    rewrite In_newest_first, filter_In, andb_true_iff, K1, K2. tauto.
Qed.

(** C4.  For every [login] call whose password argument is valid (six
    characters or more) and that supplies a username or an email: when no
    account matches, and when an account matches but the password fails
    verification, the call fails with the one error
    [invalid_credentials], of code [UNAUTHENTICATED]; the message is the
    same text in both cases. *)
Theorem login_failures_indistinguishable (a : LoginArgs.t) (w : World) :
  (6 <= String.length (LoginArgs.password a))%nat ->
  truthy (LoginArgs.username a) = true \/ truthy (LoginArgs.email a) = true ->
  (account_seen a w = None ->
   login L a w = (inl invalid_credentials, enter "User.findOne" w)) /\
  (forall u, account_seen a w = Some u ->
             bcrypt_compare L (LoginArgs.password a) (User.password u) = false ->
             login L a w = (inl invalid_credentials, enter "User.findOne" w)) /\
  Unauthenticated invalid_credentials /\
  message_of invalid_credentials = "Invalid credentials.".
Proof.
  intros Hpw Hid. repeat split.
  - intros H. apply login_rejects; auto.
  - intros u H Hcmp. apply login_rejects; eauto.
Qed.

(** C10.  With the signing secret unset, a [login] call for which no
    account matches or the password fails verification ends in an error
    that is not [INTERNAL_SERVER_ERROR]; when the call reaches the lookup
    (valid password argument, a username or an email supplied) that error
    is [invalid_credentials], of code [UNAUTHENTICATED].  A call that
    fails with the missing-secret error found an account whose password
    verified, and valid credentials with the secret unset do give that
    error. *)
Theorem login_verifies_before_reading_secret (a : LoginArgs.t) (w : World) :
  JWT_SECRET w = None \/ JWT_SECRET w = Some "" ->
  (account_seen a w = None \/
   (exists u, account_seen a w = Some u /\
              bcrypt_compare L (LoginArgs.password a) (User.password u) = false) ->
   exists e w',
     login L a w = (inl e, w') /\ ~ InternalError e /\
     ((6 <= String.length (LoginArgs.password a))%nat ->
      truthy (LoginArgs.username a) = true \/
      truthy (LoginArgs.email a) = true ->
      e = invalid_credentials /\ Unauthenticated e)) /\
  (forall w', login L a w = (inl jwt_secret_missing, w') ->
     exists u, account_seen a w = Some u /\
               bcrypt_compare L (LoginArgs.password a) (User.password u) = true) /\
  ((6 <= String.length (LoginArgs.password a))%nat ->
   truthy (LoginArgs.username a) = true \/ truthy (LoginArgs.email a) = true ->
   forall u, account_seen a w = Some u ->
             bcrypt_compare L (LoginArgs.password a) (User.password u) = true ->
             login L a w = (inl jwt_secret_missing, enter "User.findOne" w) /\
             InternalError jwt_secret_missing).
Proof.
  intros Hsecret. split; [|split].
  - intros Hacc. unfold login, bind, runValidation.
    destruct (validate L login_schema (login_body a)) eqn:Hval.
    + cbn [ret].
      destruct (negb (truthy (LoginArgs.username a)) &&
                negb (truthy (LoginArgs.email a))) eqn:Hid.
      * do 2 eexists. split; [reflexivity|]. split; [discriminate|].
        intros _ Hsup. exfalso.
        apply andb_prop in Hid. destruct Hid as [H1 H2].
        apply negb_true_iff in H1, H2. destruct Hsup; congruence.
      * unfold User_findOne. unfold account_seen, users_seen_by in Hacc.
        exists invalid_credentials, (enter "User.findOne" w).
        split; [|split; [discriminate|intros _ _; split; reflexivity]].
        destruct Hacc as [-> | (u & -> & Hcmp)]; [reflexivity|].
        now rewrite Hcmp.
    + do 2 eexists. split; [reflexivity|]. split; [discriminate|].
      intros Hpw _. rewrite login_password_valid in Hval by exact Hpw.
      discriminate.
  - intros w'. unfold login, bind, runValidation.
    destruct (validate L login_schema (login_body a)); [|discriminate].
    cbn [ret].
    destruct (negb (truthy (LoginArgs.username a)) &&
              negb (truthy (LoginArgs.email a))); [discriminate|].
    unfold User_findOne, account_seen, users_seen_by.
    destruct (find (user_matches (login_query a))
                   (users (enter "User.findOne" w))) as [u|]; [|discriminate].
    destruct (bcrypt_compare L (LoginArgs.password a) (User.password u)) eqn:Hcmp;
      [|discriminate].
    intros _. now exists u.
  - intros Hpw Hid u Hacc Hcmp. split; [|reflexivity].
    unfold login, bind.
    rewrite runValidation_passes by now apply login_password_valid.
    assert (negb (truthy (LoginArgs.username a)) &&
            negb (truthy (LoginArgs.email a)) = false) as ->.
    { destruct Hid as [-> | ->]; simpl; [reflexivity|apply andb_false_r]. }
    unfold User_findOne. unfold account_seen, users_seen_by in Hacc.
    rewrite Hacc, Hcmp. cbn [negb]. unfold getenv_JWT_SECRET.
    rewrite enter_JWT_SECRET. now destruct Hsecret as [-> | ->].
Qed.

(** C6.  [getEmployeeById] and [deleteEmployee] fail with [BAD_USER_INPUT]
    on an identifier that is not structurally valid, leaving the world as
    it was (no store call is made); on a valid identifier they fail with
    [NOT_FOUND] when no stored record carries the ObjectId the identifier
    spells. *)
Theorem employee_id_checked_before_lookup (eid : string) (w : World) :
  (ObjectId_isValid L eid = false ->
   getEmployeeById L eid w = (inl invalid_employee_id, w) /\
   deleteEmployee L eid w = (inl invalid_employee_id, w) /\
   InvalidInput invalid_employee_id) /\
  (ObjectId_isValid L eid = true ->
   ((forall e, In e (employees_seen_by "Employee.findById" w) ->
               Employee._id e <> ObjectId_cast L eid) ->
    getEmployeeById L eid w
    = (inl employee_not_found, enter "Employee.findById" w)) /\
   ((forall e, In e (employees_seen_by "Employee.findByIdAndDelete" w) ->
               Employee._id e <> ObjectId_cast L eid) ->
    deleteEmployee L eid w
    = (inl employee_not_found, enter "Employee.findByIdAndDelete" w)) /\
   NotFound employee_not_found).
Proof.
  split.
  - intros H. unfold getEmployeeById, deleteEmployee. rewrite H.
    repeat split; reflexivity.
  - intros H. unfold getEmployeeById, deleteEmployee. rewrite H. cbn [negb].
    repeat split.
    + intros Hnone. unfold bind, Employee_findById.
      unfold employees_seen_by in Hnone.
      now rewrite (no_record_with_id L _ _ Hnone).
    + intros Hnone. unfold bind, Employee_findByIdAndDelete.
      unfold employees_seen_by in Hnone.
      now rewrite (no_record_with_id L _ _ Hnone).
Qed.


(** C9.  [uploadEmployeePhoto] returns [null] and leaves the world as it
    was (no call is logged) when the payload is absent; when a payload is
    present and the uploader rejects with message [m], the failure is
    thrown as the [GraphQLError] of message "Employee photo upload
    failed.", code [INTERNAL_SERVER_ERROR] and details [m], and no error
    of [uploadEmployeePhoto] is anything else.  In [addEmployee] the photo step makes no call for an absent
    payload, and a rejected upload ends the call with that typed error. *)
Theorem uploadEmployeePhoto_failure_is_typed (photo : arg string) (w : World) :
  (truthy photo = false -> uploadEmployeePhoto L photo w = (inr None, w)) /\
  (truthy photo = true ->
   forall m, cloudinary_upload L (the_string photo) = inl m ->
     exists w',
       uploadEmployeePhoto L photo w
       = (inl (GraphQLError "Employee photo upload failed."
                            "INTERNAL_SERVER_ERROR" (DetailText m)), w') /\
       calls w' = UploadCall (the_string photo) upload_folder :: calls w) /\
  (forall e w', uploadEmployeePhoto L photo w = (inl e, w') ->
     InternalError e /\
     exists m, cloudinary_upload L (the_string photo) = inl m /\
               e = GraphQLError "Employee photo upload failed."
                                "INTERNAL_SERVER_ERROR" (DetailText m)) /\
  (forall a : AddArgs.t,
     AddArgs.employee_photo a = photo ->
     (truthy photo = false -> photo_step L a w = (inr None, w)) /\
     (validate L addEmployee_schema (addEmployee_body a) = [] ->
      find (employee_matches L (EmailIs (toLowerCase (AddArgs.email a))))
           (employees_seen_by "Employee.findOne" w) = None ->
      truthy photo = true ->
      forall m, cloudinary_upload L (the_string photo) = inl m ->
        exists w',
          addEmployee L a w
          = (inl (GraphQLError "Employee photo upload failed."
                               "INTERNAL_SERVER_ERROR" (DetailText m)),
             w'))).
Proof.
  split; [|split; [|split]].
  - unfold uploadEmployeePhoto. intros ->. reflexivity.
  - unfold uploadEmployeePhoto. intros -> m Hm. cbn [negb].
    unfold try_catch, bind, cloudinary_uploader_upload. rewrite Hm.
    eexists. split; reflexivity.
  - unfold uploadEmployeePhoto. intros e w'.
    destruct (truthy photo); cbn [negb]; [|discriminate].
    unfold try_catch, bind, cloudinary_uploader_upload.
    destruct (cloudinary_upload L (the_string photo)) as [m|]; [|discriminate].
    intros H. inversion H; subst; clear H. split; [reflexivity|].
    now exists m.
  - intros a Ha. split.
    + intros Hf. unfold photo_step. rewrite Ha, Hf. reflexivity.
    + intros Hval Hfind Ht m Hm. unfold addEmployee, bind.
      rewrite runValidation_passes by exact Hval.
      unfold Employee_findOne. unfold employees_seen_by in Hfind.
      rewrite Hfind. unfold photo_step, uploadEmployeePhoto. rewrite Ha, Ht.
      cbn [negb]. unfold try_catch, bind, cloudinary_uploader_upload.
      rewrite Hm. eexists. reflexivity.
Qed.

(** C5.  In [signup], [addEmployee] and [updateEmployee], when the steps
    before the write passed and the store's write raises a duplicate-key
    error (code 11000) whose key pattern names [email], the call fails
    with [email_exists], the very error of the pre-check, of code
    [BAD_USER_INPUT]. *)
Theorem duplicate_key_becomes_email_exists (keyPattern : list string) :
  In "email" keyPattern ->
  (forall (a : SignupArgs.t) (w w2 : World),
     validate L signup_schema (signup_body a) = [] ->
     find (user_matches (ByEmail (toLowerCase (SignupArgs.email a))))
          (users_seen_by "User.findOne" w) = None ->
     User_create L (SignupArgs.username a) (toLowerCase (SignupArgs.email a))
                 (bcrypt_hash L (SignupArgs.password a) 10)
                 (enter "User.findOne" w)
     = (inl (MongoServerError 11000 keyPattern), w2) ->
     signup L a w = (inl email_exists, w2)) /\
  (forall (a : AddArgs.t) (photoUrl : option string) (w w2 w3 : World),
     validate L addEmployee_schema (addEmployee_body a) = [] ->
     find (employee_matches L (EmailIs (toLowerCase (AddArgs.email a))))
          (employees_seen_by "Employee.findOne" w) = None ->
     photo_step L a (enter "Employee.findOne" w) = (inr photoUrl, w2) ->
     Employee_create L (create_fields a photoUrl) w2
     = (inl (MongoServerError 11000 keyPattern), w3) ->
     addEmployee L a w = (inl email_exists, w3)) /\
  (forall (a : UpdateArgs.t) (updates : Employee.patch) (w w1 w2 : World),
     validate L updateEmployee_schema (updateEmployee_body a) = [] ->
     ObjectId_isValid L (UpdateArgs.eid a) = true ->
     check_update_email L (UpdateArgs.eid a) (updates_of a) w = (inr updates, w1) ->
     Employee_findByIdAndUpdate L (UpdateArgs.eid a) updates w1
     = (inl (MongoServerError 11000 keyPattern), w2) ->
     updateEmployee L a w = (inl email_exists, w2)) /\
  InvalidInput email_exists.
Proof.
  intros Hkey. repeat split.
  - intros a w w2 Hval Hfind Hcreate. unfold signup, bind.
    rewrite runValidation_passes by exact Hval.
    unfold User_findOne. unfold users_seen_by in Hfind. rewrite Hfind.
    unfold try_catch. rewrite Hcreate.
    now apply handler_maps_duplicate_email.
  - intros a photoUrl w w2 w3 Hval Hfind Hphoto Hcreate. unfold addEmployee, bind.
    rewrite runValidation_passes by exact Hval.
    unfold Employee_findOne. unfold employees_seen_by in Hfind. rewrite Hfind.
    rewrite Hphoto.
    unfold try_catch. rewrite Hcreate.
    now apply handler_maps_duplicate_email.
  - intros a updates w w1 w2 Hval Hid Hcheck Hupd. unfold updateEmployee, bind.
    rewrite runValidation_passes by exact Hval.
    rewrite Hid. cbn [negb]. rewrite Hcheck.
    unfold write_update, try_catch, bind. rewrite Hupd.
    now apply handler_maps_duplicate_email.
Qed.

(** C1, as amended.  For every successful [signup], the value the
    resolver returns is the account document the store created: the
    username as given, the email lower-cased, and the [password] field
    holding the bcrypt hash (cost 10) of the supplied password; that
    document is in the collection afterwards. *)
Theorem signup_returns_stored_document
        (a : SignupArgs.t) (w w' : World) (u : User.doc) :
  signup L a w = (inr u, w') ->
  User.username u = SignupArgs.username a /\
  User.email u = toLowerCase (SignupArgs.email a) /\
  User.password u = bcrypt_hash L (SignupArgs.password a) 10 /\
  In u (users w').
Proof.
  unfold signup, bind, runValidation.
  destruct (validate L signup_schema (signup_body a)); [|discriminate].
  cbn [ret]. unfold User_findOne.
  destruct (find _ (users (enter "User.findOne" w))); [discriminate|].
  unfold try_catch, User_create.
  destruct (existsb _ (users (enter "User.create" (enter "User.findOne" w)))).
  - discriminate.
  - intros H. inversion H; subst; clear H. cbn.
    repeat split. apply in_or_app. right. now left.
Qed.

(** C8.  For every [updateEmployee] call that supplies an email, ids
    being compared as the store compares them, [eid] read as the ObjectId
    it spells:
    (1) when a record with another id was stored with an email equal to
    the supplied one up to letter case, the call fails with
    [BAD_USER_INPUT];
    (2) when the only records holding it have the id of [eid], a call
    that passed validation goes on to the write, and the update it writes
    carries the lower-cased email;
    (3) the pre-check reads the supplied email only through its
    lower-casing;
    (4) on success the returned and stored record carries the supplied
    email lower-cased (and trimmed by the schema). *)
Theorem updateEmployee_email_precheck (a : UpdateArgs.t) (w : World) :
  truthy (UpdateArgs.email a) = true ->
  ((exists r written,
      In r (employees_seen_by "Employee.findOne" w) /\
      Employee._id r <> ObjectId_cast L (UpdateArgs.eid a) /\
      Employee.email r = email_setters written /\
      toLowerCase written = toLowerCase (the_string (UpdateArgs.email a))) ->
   exists e w', updateEmployee L a w = (inl e, w') /\ InvalidInput e) /\
  (validate L updateEmployee_schema (updateEmployee_body a) = [] ->
   ObjectId_isValid L (UpdateArgs.eid a) = true ->
   (forall r, In r (employees_seen_by "Employee.findOne" w) ->
              Employee.email r = email_setters (the_string (UpdateArgs.email a)) ->
              Employee._id r = ObjectId_cast L (UpdateArgs.eid a)) ->
   updateEmployee L a w
   = write_update L (UpdateArgs.eid a)
       (Employee.with_email
          (Given (toLowerCase (the_string (UpdateArgs.email a))))
          (updates_of a))
       (enter "Employee.findOne" w)) /\
  (forall other : string,
     toLowerCase other = toLowerCase (the_string (UpdateArgs.email a)) ->
     check_update_email L (UpdateArgs.eid a)
       (Employee.with_email (Given other) (updates_of a)) w
     = check_update_email L (UpdateArgs.eid a) (updates_of a) w) /\
  (forall d w', updateEmployee L a w = (inr d, w') ->
     Employee.email d = email_setters (the_string (UpdateArgs.email a)) /\
     In d (employees w')).
Proof.
  intros Hsupplied.
  destruct (truthy_given _ Hsupplied) as [Hgiven Hne].
  set (e := the_string (UpdateArgs.email a)) in *.
  assert (Hupd : Employee.p_email (updates_of a) = Given e) by exact Hgiven.
  split; [|split; [|split]].
  - intros (r & written & Hin & Hid & Hmail & Hcase).
    unfold employees_seen_by in Hin.
    assert (Employee.email r = email_setters e) as Hsame.
    { rewrite Hmail. unfold email_setters. now rewrite Hcase. }
    clear Hmail Hcase. rename Hsame into Hmail.
    unfold updateEmployee, bind.
    destruct (validate L updateEmployee_schema (updateEmployee_body a)) eqn:Hval.
    + rewrite runValidation_passes by exact Hval.
      destruct (ObjectId_isValid L (UpdateArgs.eid a)); cbn [negb].
      * unfold check_update_email, bind. rewrite Hupd. cbn [the_string].
        fold e in Hsupplied. rewrite Hgiven in Hsupplied. rewrite Hsupplied.
        unfold Employee_findOne.
        destruct (find_finds
                    (employee_matches L
                       (EmailIsAndIdIsNot (UpdateArgs.eid a) (toLowerCase e)))
                    _ r Hin) as [y ->].
        { cbn [employee_matches]. rewrite email_setters_lower, Hmail.
          rewrite String.eqb_refl. unfold has_id.
          apply String.eqb_neq in Hid. now rewrite Hid. }
        do 2 eexists. split; reflexivity.
      * do 2 eexists. split; reflexivity.
    + destruct (runValidation_fails L updateEmployee_schema
                  (updateEmployee_body a) w) as (err & -> & Herr);
        [rewrite Hval; discriminate|].
      exists err, w. split; [reflexivity|exact Herr].
  - intros Hval Hid Hown. unfold employees_seen_by in Hown.
    unfold updateEmployee, bind.
    rewrite runValidation_passes by exact Hval.
    rewrite Hid. cbn [negb].
    unfold check_update_email, bind. rewrite Hupd. cbn [the_string].
    fold e in Hsupplied. rewrite Hgiven in Hsupplied. rewrite Hsupplied.
    unfold Employee_findOne. rewrite find_no_match; [reflexivity|].
    intros r Hin. cbn [employee_matches]. rewrite email_setters_lower.
    destruct (String.eqb (Employee.email r) (email_setters e)) eqn:E.
    + apply String.eqb_eq in E. unfold has_id.
      rewrite (Hown r Hin E), String.eqb_refl.
      reflexivity.
    + apply andb_false_r.
  - intros other Hother. unfold check_update_email. rewrite Hupd.
    cbn [Employee.with_email Employee.p_email the_string].
    assert (truthy (Given other) = truthy (Given e)) as ->.
    { cbn [truthy]. destruct other, e; simpl in Hother; try reflexivity;
        discriminate. }
    rewrite Hother. rewrite Hgiven in Hsupplied. rewrite Hsupplied.
    reflexivity.
  - intros d w'. unfold updateEmployee, bind, runValidation.
    destruct (validate L updateEmployee_schema (updateEmployee_body a));
      [|discriminate].
    cbn [ret].
    destruct (ObjectId_isValid L (UpdateArgs.eid a)); cbn [negb]; [|discriminate].
    unfold check_update_email, bind. rewrite Hupd. cbn [the_string].
    fold e in Hsupplied. rewrite Hgiven in Hsupplied. rewrite Hsupplied.
    unfold Employee_findOne.
    destruct (find _ (employees (enter "Employee.findOne" w))); [discriminate|].
    cbn [ret]. unfold write_update, try_catch, bind, Employee_findByIdAndUpdate.
    set (w1 := enter "Employee.findByIdAndUpdate" (enter "Employee.findOne" w)).
    destruct (patch_invalid_paths _).
    2:{ cbn. discriminate. }
    destruct (find (has_id L (UpdateArgs.eid a)) (employees w1)) as [old|] eqn:Hold.
    2:{ cbn. discriminate. }
    match goal with |- context [if ?c then _ else _] => destruct c end.
    { cbn. discriminate. }
    cbn [ret]. intros H. inversion H; subst; clear H.
    split.
    + cbn. apply email_setters_lower.
    + cbn [set_employees employees]. unfold replace_doc.
      apply in_map_iff. exists old. split.
      * cbn [apply_patch Employee._id]. now rewrite String.eqb_refl.
      * apply find_some in Hold. tauto.
Qed.

(** C3.  For every salary under 1000, [addEmployee] fails with
    [BAD_USER_INPUT], and so does [updateEmployee] when that salary is
    supplied, whatever the other arguments and the world.  With the salary
    exactly 1000 and the other inputs valid, both succeed and the record
    returned and stored carries that salary; the record [updateEmployee]
    returns is the one whose id is the ObjectId that [eid] spells. *)
Theorem salary_floor_is_1000 :
  (forall (a : AddArgs.t) (w : World),
     AddArgs.salary a < 1000 ->
     exists e, addEmployee L a w = (inl e, w) /\ InvalidInput e) /\
  (forall (a : UpdateArgs.t) (q : Q) (w : World),
     UpdateArgs.salary a = Given q -> q < 1000 ->
     exists e, updateEmployee L a w = (inl e, w) /\ InvalidInput e) /\
  (forall (a : AddArgs.t) (w : World),
     AddArgs.salary a == 1000 ->
     add_other_inputs_valid L a = true ->
     add_can_proceed L a w ->
     exists d w', addEmployee L a w = (inr d, w') /\
                  Employee.salary d = AddArgs.salary a /\
                  In d (employees w')) /\
  (forall (a : UpdateArgs.t) (q : Q) (w : World),
     UpdateArgs.salary a = Given q -> q == 1000 ->
     update_other_inputs_valid L a = true ->
     update_can_proceed L a w ->
     exists d w', updateEmployee L a w = (inr d, w') /\
                  Employee.salary d = q /\
                  Employee._id d = ObjectId_cast L (UpdateArgs.eid a) /\
                  In d (employees w')).
Proof.
  split; [|split; [|split]].
  - intros a w Hlow. unfold addEmployee, bind.
    destruct (runValidation_fails L addEmployee_schema (addEmployee_body a) w
                (addEmployee_salary_rejected L a Hlow)) as (e & -> & He).
    now exists e.
  - intros a q w Hq Hlow. unfold updateEmployee, bind.
    destruct (runValidation_fails L updateEmployee_schema
                (updateEmployee_body a) w
                (updateEmployee_salary_rejected L a q Hq Hlow)) as (e & -> & He).
    now exists e.
  - intros a w Hsal Hvalid (Hquiet & Hfree & Hphoto).
    apply at_floor in Hsal.
    unfold addEmployee, bind.
    rewrite runValidation_passes
      by now apply addEmployee_validation_passes.
    unfold Employee_findOne. rewrite (quiet_enter _ _ Hquiet).
    cbn [users employees clock pending calls JWT_SECRET].
    rewrite find_no_match.
    2:{ intros e He. cbn [employee_matches]. rewrite email_setters_lower.
        apply String.eqb_neq. now apply Hfree. }
    unfold photo_step, uploadEmployeePhoto.
    destruct (truthy (AddArgs.employee_photo a)) eqn:Htruthy; cbn [negb].
    + destruct (Hphoto eq_refl) as [url Hurl].
      unfold try_catch at 1. unfold bind at 1. unfold cloudinary_uploader_upload.
      rewrite Hurl. cbn [ret users employees clock pending calls JWT_SECRET].
      edestruct (Employee_create_succeeds L a (Some url)) as (d & w' & Hc & Hd);
        [exact Hvalid|exact Hsal| | |exists d, w'; split;
                                      [apply try_catch_value; exact Hc|exact Hd]];
        [reflexivity|exact Hfree].
    + cbn [ret].
      edestruct (Employee_create_succeeds L a None) as (d & w' & Hc & Hd);
        [exact Hvalid|exact Hsal| | |exists d, w'; split;
                                      [apply try_catch_value; exact Hc|exact Hd]];
        [reflexivity|exact Hfree].
  - intros a q w Hq Hsal Hvalid (Hquiet & Hexists & Hown).
    apply at_floor in Hsal.
    unfold updateEmployee, bind.
    rewrite runValidation_passes
      by now apply (updateEmployee_validation_passes L a q).
    unfold update_other_inputs_valid in Hvalid.
    repeat (apply andb_prop in Hvalid; destruct Hvalid as [Hvalid ?]).
    match goal with
    | Hid : ObjectId_isValid L _ = true |- _ => rewrite Hid
    end.
    cbn [negb]. unfold check_update_email, bind.
    cbn [updates_of Employee.p_email].
    destruct (UpdateArgs.email a) as [| |e] eqn:Hmail; [|discriminate|].
    + cbn [truthy ret].
      apply (write_update_succeeds L _ _ q); try assumption.
      left. exact Hmail.
    + match goal with
      | Hm : validator_isEmail L e && _ = true |- _ =>
          apply andb_prop in Hm; destruct Hm as [_ Hne];
          apply negb_true_iff in Hne
      end.
      assert (truthy (Given e) = true) as ->.
      { destruct e; [discriminate Hne|reflexivity]. }
      cbn [the_string] in *.
      unfold Employee_findOne. rewrite (quiet_enter _ _ Hquiet).
      cbn [users employees clock pending calls JWT_SECRET].
      rewrite find_no_match.
      2:{ intros r Hr. cbn [employee_matches]. rewrite email_setters_lower.
          destruct (String.eqb (Employee.email r) (email_setters e)) eqn:E.
          - apply String.eqb_eq in E. unfold has_id.
            rewrite (Hown r Hr E), String.eqb_refl. reflexivity.
          - apply andb_false_r. }
      cbn [ret].
      apply (write_update_succeeds L _ _ q); try assumption; try reflexivity.
      right. exists (toLowerCase e). split; [reflexivity|].
      rewrite email_setters_lower. split; [exact Hne|exact Hown].
Qed.

End Claims.

(* ================================================================== *)
(** * Closed instances *)
(* ================================================================== *)

(** C2, counterexample.  The department filter ["."] returns an employee
    of department ["Eng"], which does not contain a full stop: the filter
    text is read as a pattern. *)
Lemma searchEmployee_dot_is_a_pattern :
  fst (searchEmployee Sample.libs (SearchArgs.mk Omitted (Given "."))
         (Sample.quiet [] [Sample.eng] None)) = inr [Sample.eng] /\
  supplied_matches (Given ".") (Employee.department Sample.eng) = false.
Proof. split; reflexivity. Qed.

Lemma searchEmployee_plain_filters_witness :
  exists found,
    searchEmployee Sample.libs (SearchArgs.mk (Given "ENG") (Given "e"))
      (Sample.quiet [] [Sample.eng; Sample.ops] None)
    = (inr found,
       enter "Employee.find" (Sample.quiet [] [Sample.eng; Sample.ops] None)) /\
    forall e,
      In e found <->
      In e (employees_seen_by "Employee.find"
              (Sample.quiet [] [Sample.eng; Sample.ops] None)) /\
      supplied_matches (Given "ENG") (Employee.designation e) = true /\
      supplied_matches (Given "e") (Employee.department e) = true.
Proof.
  apply (proj2 (searchEmployee_plain_filters Sample.libs
                  (SearchArgs.mk (Given "ENG") (Given "e"))
                  (Sample.quiet [] [Sample.eng; Sample.ops] None)));
    [left; reflexivity | reflexivity | reflexivity].
Defined.

(** C1, counterexample.  A successful [signup] returns a document whose
    [password] field is the hash. *)
Lemma signup_returns_password_hash :
  fst (signup Sample.libs (SignupArgs.mk "bob" "Bob@X.io" "secret1")
         (Sample.quiet [Sample.ada] [] None))
  = inr (User.mk (Sample.object_id 6) "bob" "bob@x.io" "$2b$10$secret1") /\
  bcrypt_hash Sample.libs "secret1" 10 = "$2b$10$secret1".
Proof. split; reflexivity. Qed.

Lemma signup_returns_stored_document_witness :
  exists u w',
    signup Sample.libs (SignupArgs.mk "bob" "Bob@X.io" "secret1")
           (Sample.quiet [Sample.ada] [] None) = (inr u, w') /\
    User.username u = "bob" /\
    User.email u = toLowerCase "Bob@X.io" /\
    User.password u = bcrypt_hash Sample.libs "secret1" 10 /\
    In u (users w').
Proof.
  do 2 eexists. split; [vm_compute; reflexivity|].
  apply (signup_returns_stored_document Sample.libs
           (SignupArgs.mk "bob" "Bob@X.io" "secret1")
           (Sample.quiet [Sample.ada] [] None)).
  vm_compute. reflexivity.
Defined.

Lemma salary_floor_is_1000_witness :
  (exists e, addEmployee Sample.libs
               (AddArgs.mk "Edsger" "Dijkstra" "Edsger@X.io" Omitted
                           "Researcher" 999.99 "2024-03-01" "Eng" Omitted)
               (Sample.quiet [] [Sample.eng] None)
             = (inl e, Sample.quiet [] [Sample.eng] None) /\ InvalidInput e) /\
  (exists e, updateEmployee Sample.libs
               (Sample.update_salary (Sample.object_id 2) 0)
               (Sample.quiet [] [Sample.eng] None)
             = (inl e, Sample.quiet [] [Sample.eng] None) /\ InvalidInput e) /\
  (exists d w', addEmployee Sample.libs Sample.new_hire
                  (Sample.quiet [] [Sample.eng] None) = (inr d, w') /\
                Employee.salary d = 1000 /\ In d (employees w')) /\
  (exists d w', updateEmployee Sample.libs
                  (Sample.update_salary (Sample.object_id 2) 1000)
                  (Sample.quiet [] [Sample.eng] None) = (inr d, w') /\
                Employee.salary d = 1000 /\
                Employee._id d = Sample.object_id 2 /\
                In d (employees w')).
Proof.
  destruct (salary_floor_is_1000 Sample.libs) as (Hadd & Hupd & Hadd_ok & Hupd_ok).
  split; [|split; [|split]].
  - apply Hadd. reflexivity.
  - apply (Hupd _ 0). reflexivity. reflexivity.
  - apply Hadd_ok.
    + reflexivity.
    + reflexivity.
    + split; [reflexivity|]. split.
      * intros e [<- | []]. discriminate.
      * discriminate.
  - apply (Hupd_ok (Sample.update_salary (Sample.object_id 2) 1000) 1000).
    + reflexivity.
    + reflexivity.
    + reflexivity.
    + split; [reflexivity|]. split.
      * exists Sample.eng. split; [now left|reflexivity].
      * exact I.
Defined.

Lemma login_failures_indistinguishable_witness :
  login Sample.libs (LoginArgs.mk (Given "ghost") Omitted "lovelace")
        (Sample.quiet [Sample.ada] [] (Some "s3cret"))
  = (inl invalid_credentials,
     enter "User.findOne" (Sample.quiet [Sample.ada] [] (Some "s3cret"))) /\
  login Sample.libs (LoginArgs.mk (Given "ada") Omitted "not-lovelace")
        (Sample.quiet [Sample.ada] [] (Some "s3cret"))
  = (inl invalid_credentials,
     enter "User.findOne" (Sample.quiet [Sample.ada] [] (Some "s3cret"))).
Proof.
  split.
  - apply (login_failures_indistinguishable Sample.libs
             (LoginArgs.mk (Given "ghost") Omitted "lovelace")
             (Sample.quiet [Sample.ada] [] (Some "s3cret"))).
    + simpl. lia.
    + left. reflexivity.
    + reflexivity.
  - apply (proj1 (proj2 (login_failures_indistinguishable Sample.libs
             (LoginArgs.mk (Given "ada") Omitted "not-lovelace")
             (Sample.quiet [Sample.ada] [] (Some "s3cret"))
             ltac:(simpl; lia) (or_introl eq_refl))) Sample.ada).
    + reflexivity.
    + reflexivity.
Defined.

Lemma duplicate_key_becomes_email_exists_witness :
  (exists w',
     signup Sample.libs (SignupArgs.mk "bob" "Bob@X.io" "secret1")
            (Sample.racing [Sample.ada] [] [PutUser Sample.eve])
     = (inl email_exists, w')) /\
  (exists w',
     addEmployee Sample.libs Sample.new_hire
                 (Sample.racing [] [Sample.eng] [PutEmployee Sample.twin])
     = (inl email_exists, w')) /\
  (exists w',
     updateEmployee Sample.libs
                    (Sample.update_email (Sample.object_id 2) "Edsger@X.io")
                    (Sample.racing [] [Sample.eng] [PutEmployee Sample.twin])
     = (inl email_exists, w')).
Proof.
  destruct (duplicate_key_becomes_email_exists Sample.libs ["email"]
              (or_introl eq_refl)) as (Hsignup & Hadd & Hupdate & _).
  split; [|split]; eexists.
  - apply Hsignup; vm_compute; reflexivity.
  - eapply Hadd; vm_compute; reflexivity.
  - eapply Hupdate; vm_compute; reflexivity.
Defined.

Lemma employee_id_checked_before_lookup_witness :
  getEmployeeById Sample.libs "not-an-id" (Sample.quiet [] [Sample.eng] None)
  = (inl invalid_employee_id, Sample.quiet [] [Sample.eng] None) /\
  getEmployeeById Sample.libs (Sample.object_id_in_capitals 7)
                  (Sample.quiet [] [Sample.eng] None)
  = (inl employee_not_found,
     enter "Employee.findById" (Sample.quiet [] [Sample.eng] None)) /\
  deleteEmployee Sample.libs (Sample.object_id 7)
                 (Sample.quiet [] [Sample.eng] None)
  = (inl employee_not_found,
     enter "Employee.findByIdAndDelete" (Sample.quiet [] [Sample.eng] None)).
Proof.
  split; [|split].
  - apply (employee_id_checked_before_lookup Sample.libs "not-an-id"
             (Sample.quiet [] [Sample.eng] None)).
    reflexivity.
  - apply (employee_id_checked_before_lookup Sample.libs
             (Sample.object_id_in_capitals 7)
             (Sample.quiet [] [Sample.eng] None)).
    + reflexivity.
    + intros e [<- | []]. vm_compute. discriminate.
  - apply (employee_id_checked_before_lookup Sample.libs (Sample.object_id 7)
             (Sample.quiet [] [Sample.eng] None)).
    + reflexivity.
    + intros e [<- | []]. vm_compute. discriminate.
Defined.



Lemma uploadEmployeePhoto_failure_is_typed_witness :
  uploadEmployeePhoto Sample.libs (Given "") (Sample.quiet [] [] None)
  = (inr None, Sample.quiet [] [] None) /\
  exists w',
    uploadEmployeePhoto Sample.libs (Given "file:///etc/passwd")
                        (Sample.quiet [] [] None)
    = (inl (GraphQLError "Employee photo upload failed."
                         "INTERNAL_SERVER_ERROR"
                         (DetailText "Invalid image file")), w') /\
    calls w' = [UploadCall "file:///etc/passwd" upload_folder].
Proof.
  split.
  - apply (uploadEmployeePhoto_failure_is_typed Sample.libs (Given "")
             (Sample.quiet [] [] None)).
    reflexivity.
  - apply (proj1 (proj2 (uploadEmployeePhoto_failure_is_typed Sample.libs
             (Given "file:///etc/passwd") (Sample.quiet [] [] None))));
      reflexivity.
Defined.

Lemma updateEmployee_email_precheck_witness :
  (exists e w',
     updateEmployee Sample.libs
       (Sample.update_email (Sample.object_id 2) "ALAN@x.io")
       (Sample.quiet [] [Sample.eng; Sample.ops] None) = (inl e, w') /\
     InvalidInput e) /\
  updateEmployee Sample.libs
    (Sample.update_email (Sample.object_id_in_capitals 2) "GRACE@x.io")
    (Sample.quiet [] [Sample.eng; Sample.ops] None)
  = write_update Sample.libs (Sample.object_id_in_capitals 2)
      (Employee.with_email (Given "grace@x.io")
         (updates_of (Sample.update_email (Sample.object_id_in_capitals 2)
                                          "GRACE@x.io")))
      (enter "Employee.findOne"
             (Sample.quiet [] [Sample.eng; Sample.ops] None)).
Proof.
  split.
  - apply (updateEmployee_email_precheck Sample.libs
             (Sample.update_email (Sample.object_id 2) "ALAN@x.io")
             (Sample.quiet [] [Sample.eng; Sample.ops] None) eq_refl).
    exists Sample.ops, "alan@x.io". split; [right; now left|].
    split; [vm_compute; discriminate|]. split; reflexivity.
  - apply (updateEmployee_email_precheck Sample.libs
             (Sample.update_email (Sample.object_id_in_capitals 2)
                                  "GRACE@x.io")
             (Sample.quiet [] [Sample.eng; Sample.ops] None) eq_refl).
    + reflexivity.
    + reflexivity.
    + intros r [<- | [<- | []]]; [reflexivity|discriminate].
Defined.

Lemma login_verifies_before_reading_secret_witness :
  (exists e w',
     login Sample.libs (LoginArgs.mk (Given "ada") Omitted "not-lovelace")
           (Sample.quiet [Sample.ada] [] None) = (inl e, w') /\
     ~ InternalError e /\
     ((6 <= String.length "not-lovelace")%nat ->
      truthy (Given "ada") = true \/ truthy (@Omitted string) = true ->
      e = invalid_credentials /\ Unauthenticated e)) /\
  login Sample.libs (LoginArgs.mk (Given "ada") Omitted "lovelace")
        (Sample.quiet [Sample.ada] [] None)
  = (inl jwt_secret_missing,
     enter "User.findOne" (Sample.quiet [Sample.ada] [] None)).
Proof.
  split.
  - apply (login_verifies_before_reading_secret Sample.libs
             (LoginArgs.mk (Given "ada") Omitted "not-lovelace")
             (Sample.quiet [Sample.ada] [] None) (or_introl eq_refl)).
    right. exists Sample.ada. split; reflexivity.
  - apply (proj2 (proj2 (login_verifies_before_reading_secret Sample.libs
             (LoginArgs.mk (Given "ada") Omitted "lovelace")
             (Sample.quiet [Sample.ada] [] None) (or_introl eq_refl)))
             ltac:(simpl; lia) (or_introl eq_refl) Sample.ada);
      reflexivity.
Defined.

(* ================================================================== *)
(** * Further properties of the resolvers *)
(* ================================================================== *)

Lemma land_batch_calls (batch : list Write) : forall w,
  calls (fold_left (fun acc wr => land_write wr acc) batch w) = calls w.
Proof.
  induction batch as [|wr batch IH]; intros w; simpl; [reflexivity|].
  rewrite IH. now destruct wr.
Qed.

Lemma calls_enter (operation : string) (w : World) :
  calls (enter operation w) = StoreCall operation :: calls w.
Proof.
  unfold enter. destruct (pending w) as [|batch later]; [reflexivity|].
  cbn [calls]. now rewrite land_batch_calls.
Qed.

Lemma validate_login (L : Libs) (a : LoginArgs.t) :
  validate L login_schema (login_body a) = [] <->
  (6 <= String.length (LoginArgs.password a))%nat.
Proof.
  split; [|apply login_password_valid].
  unfold validate. rewrite login_schema_order.
  unfold login_schema, password_rule, rule_errors, login_body.
  cbn [flat_map lookup String.eqb Ascii.eqb Bool.eqb field optional checks
       holds to_text fst snd app].
  destruct (6 <=? String.length (LoginArgs.password a))%nat eqn:E.
  - intros _. now apply Nat.leb_le.
  - destruct (negb (LoginArgs.password a =? "")); discriminate.
Qed.

Lemma validate_signup (L : Libs) (a : SignupArgs.t) :
  validate L signup_schema (signup_body a) = [] <-> signup_input_ok L a = true.
Proof.
  unfold validate. rewrite signup_schema_order.
  unfold signup_schema, password_rule, rule_errors, signup_body,
    signup_input_ok.
  cbn [flat_map lookup String.eqb Ascii.eqb Bool.eqb field optional checks
       holds to_text fst snd app].
  destruct (3 <=? String.length (SignupArgs.username a))%nat eqn:E1;
  destruct (SignupArgs.email a =? "") eqn:E2;
  destruct (validator_isEmail L (SignupArgs.email a)) eqn:E3;
  destruct (6 <=? String.length (SignupArgs.password a))%nat eqn:E4;
  destruct (SignupArgs.username a) as [|c1 u];
  destruct (SignupArgs.password a) as [|c2 p];
  cbn; split; try discriminate; try reflexivity.
Qed.

Lemma validate_addEmployee (L : Libs) (a : AddArgs.t) :
  validate L addEmployee_schema (addEmployee_body a) = [] <->
  add_input_ok L a = true.
Proof.
  unfold validate. rewrite addEmployee_schema_order.
  unfold addEmployee_reporting_order, rule_errors, addEmployee_body,
    add_input_ok.
  cbn [flat_map lookup String.eqb Ascii.eqb Bool.eqb field optional checks
       holds to_text fst snd app].
  split.
  - intros H.
    repeat match goal with
           | Hx : _ ++ _ = [] |- _ =>
               apply app_eq_nil in Hx; destruct Hx as [? ?]
           end.
    repeat match goal with
           | Hx : (if ?b then [] else _ :: _) = [] |- _ =>
               destruct b eqn:?; [clear Hx|discriminate Hx]
           end.
    repeat match goal with
           | Hx : ?b = true |- _ => rewrite Hx; clear Hx
           end.
    destruct (AddArgs.employee_photo a); cbn in *;
      [reflexivity|discriminate|reflexivity].
  - intros H. repeat (apply andb_prop in H; destruct H as [H ?]).
    repeat match goal with
           | Hx : ?b = true |- _ => rewrite Hx; clear Hx
           end.
    destruct (AddArgs.employee_photo a); [reflexivity|discriminate|reflexivity].
Qed.

Lemma validate_updateEmployee (L : Libs) (a : UpdateArgs.t) :
  validate L updateEmployee_schema (updateEmployee_body a) = [] <->
  update_input_ok L a = true.
Proof.
  unfold validate. rewrite updateEmployee_schema_order.
  unfold updateEmployee_schema, rule_errors, updateEmployee_body,
    update_input_ok.
  cbn [flat_map lookup String.eqb Ascii.eqb Bool.eqb field optional checks
       holds to_text fst snd app].
  destruct (UpdateArgs.eid a =? "");
  destruct (UpdateArgs.email a) as [| |e];
  destruct (UpdateArgs.salary a) as [| |q];
  cbn;
  try destruct (validator_isEmail L "");
  try destruct (validator_isEmail L e);
  try destruct (Qle_bool 1000 q);
  cbn; split; try discriminate; try reflexivity.
Qed.

Lemma rejected_at_validation (L : Libs) (s : schema) (b : body) (w : World) :
  validate L s b <> [] ->
  exists first others,
    validate L s b = first :: others /\
    runValidation L s b w
    = (inl (GraphQLError (msg first) "BAD_USER_INPUT"
                         (DetailList (first :: others))), w).
Proof.
  intros H. unfold runValidation. destruct (validate L s b) as [|x xs].
  - contradiction.
  - now exists x, xs.
Qed.

Lemma not_nil_of_not_ok {A} (l : list A) (b : bool) :
  (l = [] <-> b = true) -> b = false -> l <> [].
Proof. intros [H _] Hb Hl. rewrite (H Hl) in Hb. discriminate. Qed.

Section SignupValidation.
Context (L : Libs).

(** X1.  [signup] stops at validation, with a [BAD_USER_INPUT] error that
    carries the first violation as its message and every violation as
    details, and without any store call, exactly when the username is
    shorter than 3 characters, the email is empty or not an email, or the
    password is shorter than 6 characters. *)
Theorem signup_validation_gate (a : SignupArgs.t) (w : World) :
  (signup_input_ok L a = false ->
   exists first others,
     validate L signup_schema (signup_body a) = first :: others /\
     signup L a w
     = (inl (GraphQLError (msg first) "BAD_USER_INPUT"
                          (DetailList (first :: others))), w)) /\
  (signup_input_ok L a = true ->
   forall e w', signup L a w = (inl e, w') -> ~ reports_violations e).
Proof.
  split.
  - intros Hbad.
    destruct (rejected_at_validation L signup_schema (signup_body a) w
                (not_nil_of_not_ok _ _ (validate_signup L a) Hbad))
      as (first & others & Hv & Hr).
    exists first, others. split; [exact Hv|].
    unfold signup, bind. now rewrite Hr.
  - intros Hok e w'. apply validate_signup in Hok.
    unfold signup, bind. rewrite runValidation_passes by exact Hok.
    unfold User_findOne.
    destruct (find _ (users (enter "User.findOne" w)));
      [intros H; inversion H; subst; exact (fun F => F)|].
    unfold try_catch, User_create.
    destruct (existsb _ _); intros H; inversion H; subst; exact (fun F => F).
Qed.

End SignupValidation.

(** ** Composing relations along a resolver *)

Section Keeps.
Variable R : World -> World -> Prop.
Hypothesis R_refl : forall w, R w w.
Hypothesis R_trans : forall a b c, R a b -> R b c -> R a c.

Lemma keeps_ret {A} (a : A) : keeps R (ret a).
Proof. intros w. apply R_refl. Qed.

Lemma keeps_throw {A} (e : error) : keeps R (@throw A e).
Proof. intros w. apply R_refl. Qed.

Lemma keeps_bind {A B} (m : M A) (k : A -> M B) :
  keeps R m -> (forall a, keeps R (k a)) -> keeps R (bind m k).
Proof.
  intros Hm Hk w. unfold bind. specialize (Hm w).
  destruct (m w) as [[e|a] w1]; cbn [snd] in *; [exact Hm|].
  eapply R_trans; [exact Hm|apply Hk].
Qed.

Lemma keeps_try_catch {A} (body : M A) (handler : error -> M A) :
  keeps R body -> (forall e, keeps R (handler e)) -> keeps R (try_catch body handler).
Proof.
  intros Hb Hh w. unfold try_catch. specialize (Hb w).
  destruct (body w) as [[e|a] w1]; cbn [snd] in *; [|exact Hb].
  eapply R_trans; [exact Hb|apply Hh].
Qed.

Lemma keeps_handler {A} (e : error) : keeps R (@handleDuplicateEmailError A e).
Proof.
  destruct e; try apply keeps_throw. unfold handleDuplicateEmailError.
  destruct (_ && _); apply keeps_throw.
Qed.

Lemma keeps_runValidation (L : Libs) (s : schema) (b : body) :
  keeps R (runValidation L s b).
Proof.
  unfold runValidation. destruct (validate L s b); [apply keeps_ret|apply keeps_throw].
Qed.

Lemma keeps_getenv : keeps R getenv_JWT_SECRET.
Proof. intros w. apply R_refl. Qed.

Lemma keeps_new_RegExp_i (L : Libs) (source : string) : keeps R (new_RegExp_i L source).
Proof.
  unfold new_RegExp_i. destruct (RegExp.compile source);
    [apply keeps_ret|apply keeps_throw|].
  destruct (regexp_beyond L source); [apply keeps_ret|apply keeps_throw].
Qed.

(** The store calls and the upload are what a resolver does to the
    world; the rest follows from them. *)
Variable L : Libs.
Hypothesis R_enter : forall operation w, R w (enter operation w).
Hypothesis R_User_create : forall n e p, keeps R (User_create L n e p).
Hypothesis R_Employee_create : forall f, keeps R (Employee_create L f).
Hypothesis R_update : forall id p, keeps R (Employee_findByIdAndUpdate L id p).
Hypothesis R_delete : forall id, keeps R (Employee_findByIdAndDelete L id).

Ltac keeps_walk :=
  repeat first
    [ apply keeps_ret
    | apply keeps_throw
    | apply keeps_runValidation
    | apply keeps_getenv
    | apply keeps_handler
    | apply keeps_new_RegExp_i
    | apply R_User_create
    | apply R_Employee_create
    | apply R_update
    | apply R_delete
    | (intros w; apply R_enter)
    | apply keeps_bind; [|intros ?]
    | apply keeps_try_catch; [|intros ?]
    | match goal with
      | |- keeps _ (if ?b then _ else _) => destruct b
      | |- keeps _ (match ?x with _ => _ end) => destruct x
      end ].

Lemma keeps_login a : keeps R (login L a).
Proof. unfold login, User_findOne. keeps_walk. Qed.

Lemma keeps_getEmployees : keeps R getEmployees.
Proof. unfold getEmployees, Employee_find. keeps_walk. Qed.

Lemma keeps_getEmployeeById eid : keeps R (getEmployeeById L eid).
Proof. unfold getEmployeeById, Employee_findById. keeps_walk. Qed.

Lemma keeps_searchEmployee a : keeps R (searchEmployee L a).
Proof. unfold searchEmployee, filter_key, Employee_find. keeps_walk. Qed.

Lemma keeps_signup a : keeps R (signup L a).
Proof. unfold signup, User_findOne. keeps_walk. Qed.

Lemma keeps_updateEmployee a : keeps R (updateEmployee L a).
Proof.
  unfold updateEmployee, check_update_email, write_update, Employee_findOne.
  keeps_walk.
Qed.

Lemma keeps_deleteEmployee eid : keeps R (deleteEmployee L eid).
Proof. unfold deleteEmployee. keeps_walk. Qed.

Lemma keeps_addEmployee a :
  keeps R (photo_step L a) -> keeps R (addEmployee L a).
Proof.
  intros Hphoto. unfold addEmployee, Employee_findOne.
  keeps_walk. exact Hphoto.
Qed.

End Keeps.

(** ** The call log *)

Lemma calls_added_refl (P : Call -> Prop) (w : World) : calls_added P w w.
Proof. exists []. split; [reflexivity|constructor]. Qed.

Lemma calls_added_trans (P : Call -> Prop) (a b c : World) :
  calls_added P a b -> calls_added P b c -> calls_added P a c.
Proof.
  intros (l1 & E1 & F1) (l2 & E2 & F2). exists (l2 ++ l1). split.
  - now rewrite E2, E1, app_assoc.
  - apply Forall_app. now split.
Qed.

Section StoreCalls.
Variable P : Call -> Prop.
Hypothesis P_store : forall operation, P (StoreCall operation).

Lemma calls_added_enter (operation : string) (w : World) :
  calls_added P w (enter operation w).
Proof.
  exists [StoreCall operation]. split; [apply calls_enter|].
  constructor; [apply P_store|constructor].
Qed.

Lemma calls_added_same (w w' : World) : calls w' = calls w -> calls_added P w w'.
Proof. intros H. exists []. split; [exact H|constructor]. Qed.

Lemma calls_added_step (operation : string) (w w' : World) :
  calls w' = calls (enter operation w) -> calls_added P w w'.
Proof.
  intros H. eapply calls_added_trans; [apply calls_added_enter|].
  apply calls_added_same. exact H.
Qed.

Lemma calls_added_User_create (L : Libs) n e p :
  keeps (calls_added P) (User_create L n e p).
Proof.
  intros w. unfold User_create. apply (calls_added_step "User.create").
  destruct (existsb _ _); reflexivity.
Qed.

Lemma calls_added_Employee_create (L : Libs) f :
  keeps (calls_added P) (Employee_create L f).
Proof.
  intros w. unfold Employee_create. apply (calls_added_step "Employee.create").
  destruct (invalid_paths _); [|reflexivity].
  destruct (email_taken _ _ _); reflexivity.
Qed.

Lemma calls_added_update (L : Libs) id p :
  keeps (calls_added P) (Employee_findByIdAndUpdate L id p).
Proof.
  intros w. unfold Employee_findByIdAndUpdate.
  apply (calls_added_step "Employee.findByIdAndUpdate").
  destruct (patch_invalid_paths _); [|reflexivity].
  destruct (find _ _); [|reflexivity].
  destruct (_ && _); reflexivity.
Qed.

Lemma calls_added_delete (L : Libs) id :
  keeps (calls_added P) (Employee_findByIdAndDelete L id).
Proof.
  intros w. unfold Employee_findByIdAndDelete.
  apply (calls_added_step "Employee.findByIdAndDelete").
  destruct (find _ _); reflexivity.
Qed.

End StoreCalls.

Lemma photo_step_calls (L : Libs) (a : AddArgs.t) :
  keeps (calls_added
           (store_call_or_upload_of (the_string (AddArgs.employee_photo a))))
        (photo_step L a).
Proof.
  intros w. unfold photo_step, uploadEmployeePhoto.
  destruct (truthy (AddArgs.employee_photo a)); cbn [negb];
    [|apply calls_added_refl].
  unfold try_catch, bind, cloudinary_uploader_upload.
  exists [UploadCall (the_string (AddArgs.employee_photo a)) upload_folder].
  split.
  - destruct (cloudinary_upload L _); reflexivity.
  - constructor; [|constructor]. split; reflexivity.
Qed.

Lemma photo_step_silent (L : Libs) (a : AddArgs.t) :
  truthy (AddArgs.employee_photo a) = false ->
  keeps (calls_added is_store_call) (photo_step L a).
Proof.
  intros H w. unfold photo_step. rewrite H. apply calls_added_refl.
Qed.

Section CallLog.
Context (L : Libs).

(** X2.  Between the start and the end of any call of [login], [signup],
    [getEmployees], [getEmployeeById], [searchEmployee], [updateEmployee]
    or [deleteEmployee], whatever its outcome, every call that leaves the
    process is a store call: none of them reaches the image host, not
    even [updateEmployee] given an [employee_photo].  [addEmployee] makes
    no upload for an absent payload, and otherwise uploads nothing but
    the payload it was given, to the folder
    [employee-management/employees]. *)
Theorem only_addEmployee_uploads (w : World) :
  (forall a, calls_added is_store_call w (snd (login L a w))) /\
  (forall a, calls_added is_store_call w (snd (signup L a w))) /\
  calls_added is_store_call w (snd (getEmployees w)) /\
  (forall eid, calls_added is_store_call w (snd (getEmployeeById L eid w))) /\
  (forall a, calls_added is_store_call w (snd (searchEmployee L a w))) /\
  (forall a, calls_added is_store_call w (snd (updateEmployee L a w))) /\
  (forall eid, calls_added is_store_call w (snd (deleteEmployee L eid w))) /\
  (forall a, truthy (AddArgs.employee_photo a) = false ->
             calls_added is_store_call w (snd (addEmployee L a w))) /\
  (forall a, calls_added
               (store_call_or_upload_of (the_string (AddArgs.employee_photo a)))
               w (snd (addEmployee L a w))).
Proof.
  assert (Hs : forall operation, is_store_call (StoreCall operation))
    by (intros; exact I).
  pose proof (calls_added_refl is_store_call) as Hr.
  pose proof (calls_added_trans is_store_call) as Ht.
  pose proof (calls_added_enter is_store_call Hs) as He.
  repeat split; intros.
  - apply (keeps_login _ Hr Ht L He).
  - apply (keeps_signup _ Hr Ht L He (calls_added_User_create _ Hs L)).
  - apply (keeps_getEmployees _ He).
  - apply (keeps_getEmployeeById _ Hr Ht L He).
  - apply (keeps_searchEmployee _ Hr Ht L He).
  - apply (keeps_updateEmployee _ Hr Ht L He (calls_added_update _ Hs L)).
  - apply (keeps_deleteEmployee _ Hr Ht L (calls_added_delete _ Hs L)).
  - apply (keeps_addEmployee _ Hr Ht L He (calls_added_Employee_create _ Hs L)).
    now apply photo_step_silent.
  - assert (Hs' : forall operation,
               store_call_or_upload_of (the_string (AddArgs.employee_photo a))
                 (StoreCall operation)) by (intros; exact I).
    apply (keeps_addEmployee _ (calls_added_refl _) (calls_added_trans _) L
             (calls_added_enter _ Hs') (calls_added_Employee_create _ Hs' L)).
    apply photo_step_calls.
Qed.

End CallLog.

(** ** Well-formed records *)

Lemma is_space_lower (c : ascii) : is_space (lower_char c) = is_space c.
Proof. destruct c as [[] [] [] [] [] [] [] []]; reflexivity. Qed.

Lemma lower_trim_start (s : string) :
  toLowerCase (trim_start s) = trim_start (toLowerCase s).
Proof.
  induction s as [|c s IH]; [reflexivity|].
  cbn [trim_start toLowerCase]. rewrite is_space_lower.
  destruct (is_space c); [exact IH|reflexivity].
Qed.

Lemma lower_rev_string (s : string) : forall acc,
  toLowerCase (rev_string acc s) = rev_string (toLowerCase acc) (toLowerCase s).
Proof.
  induction s as [|c s IH]; intros acc; [reflexivity|].
  cbn [rev_string toLowerCase]. now rewrite IH.
Qed.

Lemma lower_trim (s : string) : toLowerCase (trim s) = trim (toLowerCase s).
Proof.
  unfold trim.
  now rewrite lower_rev_string, lower_trim_start, lower_rev_string,
    lower_trim_start.
Qed.

Lemma email_setters_is_lower (s : string) :
  toLowerCase (email_setters s) = email_setters s.
Proof. unfold email_setters. now rewrite lower_trim, toLowerCase_idempotent. Qed.

Lemma required_nil (path s : string) : required path s = [] -> s <> "".
Proof.
  unfold required. destruct (String.eqb_spec s ""); [discriminate|auto].
Qed.

Lemma min_salary_nil (q : Q) : min_salary q = [] -> 1000 <= q.
Proof.
  unfold min_salary. destruct (Qle_bool 1000 q) eqn:E; [|discriminate].
  intros _. now apply Qle_bool_iff.
Qed.

Lemma invalid_paths_nil (d : Employee.doc) :
  invalid_paths d = [] ->
  Employee.first_name d <> "" /\ Employee.last_name d <> "" /\
  Employee.email d <> "" /\ Employee.designation d <> "" /\
  1000 <= Employee.salary d /\ Employee.date_of_joining d <> "" /\
  Employee.department d <> "".
Proof.
  unfold invalid_paths. intros H.
  repeat (apply app_eq_nil in H; destruct H as [? H]).
  repeat split; eauto using required_nil, min_salary_nil.
Qed.

Lemma new_employee_well_formed (id : string) (now : nat) (f : Employee.fields) :
  invalid_paths (new_employee id now f) = [] ->
  well_formed (new_employee id now f).
Proof.
  intros H. apply invalid_paths_nil in H.
  destruct H as (H1 & H2 & H3 & H4 & H5 & H6 & H7).
  repeat split; try assumption. apply email_setters_is_lower.
Qed.

Lemma patch_required_nil (path : string) (a : arg string) (old : string) :
  patch_required path a = [] -> old <> "" -> set_text a old <> "".
Proof.
  destruct a as [| |s]; cbn; [auto|discriminate|].
  intros H _. now apply (required_nil path).
Qed.

Lemma patched_well_formed (now : nat) (p : Employee.patch) (old : Employee.doc) :
  patch_invalid_paths (cast_patch p) = [] ->
  well_formed old ->
  well_formed (apply_patch now (cast_patch p) old).
Proof.
  unfold patch_invalid_paths. intros H (W1 & W2 & W3 & W4 & W5 & W6 & W7 & W8).
  repeat (apply app_eq_nil in H; destruct H as [? H]).
  unfold well_formed, apply_patch.
  cbn [Employee.first_name Employee.last_name Employee.email
       Employee.designation Employee.salary Employee.date_of_joining
       Employee.department].
  repeat split; eauto using patch_required_nil.
  - cbn [cast_patch Employee.p_email].
    destruct (Employee.p_email p) as [| |s]; cbn [cast_email set_text];
      [assumption|assumption|apply email_setters_is_lower].
  - cbn [cast_patch Employee.p_salary] in *.
    destruct (Employee.p_salary p) as [| |q]; [assumption|assumption|].
    now apply min_salary_nil.
Qed.

Lemma stays_well_formed_refl (w : World) : stays_well_formed w w.
Proof. intros H. exact H. Qed.

Lemma stays_well_formed_trans (a b c : World) :
  stays_well_formed a b -> stays_well_formed b c -> stays_well_formed a c.
Proof. unfold stays_well_formed. auto. Qed.

Lemma land_write_well_formed (wr : Write) (w : World) :
  write_well_formed wr ->
  Forall well_formed (employees w) ->
  Forall well_formed (employees (land_write wr w)) /\
  pending (land_write wr w) = pending w.
Proof.
  intros Hwr Hw. destruct wr as [u|e|id]; cbn; split; try reflexivity;
    try assumption.
  - apply Forall_app. split; [assumption|]. constructor; [exact Hwr|constructor].
  - apply Forall_forall. intros x Hx. apply filter_In in Hx.
    rewrite Forall_forall in Hw. now apply Hw.
Qed.

Lemma land_batch_well_formed (batch : list Write) : forall w,
  Forall write_well_formed batch ->
  Forall well_formed (employees w) ->
  Forall well_formed
         (employees (fold_left (fun acc wr => land_write wr acc) batch w)) /\
  pending (fold_left (fun acc wr => land_write wr acc) batch w) = pending w.
Proof.
  induction batch as [|wr batch IH]; intros w Hb Hw; [now split|].
  inversion Hb as [|? ? Hwr Hrest]; subst. cbn [fold_left].
  destruct (land_write_well_formed wr w Hwr Hw) as [H1 H2].
  destruct (IH (land_write wr w) Hrest H1) as [H3 H4].
  split; [exact H3|]. now rewrite H4.
Qed.

Lemma stays_well_formed_enter (operation : string) (w : World) :
  stays_well_formed w (enter operation w).
Proof.
  intros [He Hp]. unfold enter.
  destruct (pending w) as [|batch later] eqn:Hpend.
  - split; cbn; [exact He|]. rewrite Hpend. constructor.
  - inversion Hp as [|? ? Hbatch Hlater]; subst.
    destruct (land_batch_well_formed batch
                (mkWorld (users w) (employees w) (clock w) later (calls w)
                         (JWT_SECRET w)) Hbatch He) as [H1 H2].
    split; cbn; [exact H1|]. rewrite H2. exact Hlater.
Qed.

Lemma stays_well_formed_step (operation : string) (w w' : World) :
  (store_well_formed (enter operation w) -> store_well_formed w') ->
  stays_well_formed w w'.
Proof. intros H Hw. apply H. now apply stays_well_formed_enter. Qed.

Lemma stays_well_formed_User_create (L : Libs) n e p :
  keeps stays_well_formed (User_create L n e p).
Proof.
  intros w. unfold User_create. apply (stays_well_formed_step "User.create").
  destruct (existsb _ _); cbn [snd]; [auto|]. intros [H1 H2]. now split.
Qed.

Lemma stays_well_formed_Employee_create (L : Libs) f :
  keeps stays_well_formed (Employee_create L f).
Proof.
  intros w. unfold Employee_create.
  apply (stays_well_formed_step "Employee.create").
  destruct (invalid_paths _) eqn:Hv; cbn [snd]; [|auto].
  destruct (email_taken _ _ _); cbn [snd]; [auto|].
  intros [H1 H2]. split; [|exact H2]. cbn [set_employees employees].
  apply Forall_app. split; [exact H1|].
  constructor; [|constructor]. now apply new_employee_well_formed.
Qed.

Lemma stays_well_formed_update (L : Libs) id p :
  keeps stays_well_formed (Employee_findByIdAndUpdate L id p).
Proof.
  intros w. unfold Employee_findByIdAndUpdate.
  apply (stays_well_formed_step "Employee.findByIdAndUpdate").
  destruct (patch_invalid_paths _) eqn:Hv; cbn [snd]; [|auto].
  destruct (find _ _) as [old|] eqn:Hold; cbn [snd]; [|auto].
  destruct (_ && _); cbn [snd]; [auto|].
  intros [H1 H2]. split; [|exact H2]. cbn [set_employees employees].
  unfold replace_doc. apply Forall_forall. intros x Hx.
  apply in_map_iff in Hx. destruct Hx as (y & Hy & Hin).
  rewrite Forall_forall in H1.
  destruct (String.eqb _ _); subst x; [|now apply H1].
  apply patched_well_formed; [exact Hv|].
  apply H1. apply find_some in Hold. tauto.
Qed.

Lemma stays_well_formed_delete (L : Libs) id :
  keeps stays_well_formed (Employee_findByIdAndDelete L id).
Proof.
  intros w. unfold Employee_findByIdAndDelete.
  apply (stays_well_formed_step "Employee.findByIdAndDelete").
  destruct (find _ _); cbn [snd]; [|auto].
  intros [H1 H2]. split; [|exact H2]. cbn [set_employees employees].
  apply Forall_forall. intros x Hx. apply filter_In in Hx.
  rewrite Forall_forall in H1. now apply H1.
Qed.

Lemma stays_well_formed_photo_step (L : Libs) a :
  keeps stays_well_formed (photo_step L a).
Proof.
  intros w. unfold photo_step, uploadEmployeePhoto.
  destruct (truthy _); cbn [negb]; [|apply stays_well_formed_refl].
  unfold try_catch, bind, cloudinary_uploader_upload.
  destruct (cloudinary_upload L _); cbn [snd]; intros H; exact H.
Qed.

Section WellFormedRecords.
Context (L : Libs).

(** X3.  If every stored employee, and every employee a concurrent
    request is about to write, has non-empty first name, last name,
    email, designation, date of joining and department, a lower-case
    email and a salary of at least 1000, then the same holds after any
    call of any resolver, whatever its arguments and its outcome. *)
Theorem resolvers_keep_records_well_formed (w : World) :
  store_well_formed w ->
  (forall a, store_well_formed (snd (addEmployee L a w))) /\
  (forall a, store_well_formed (snd (updateEmployee L a w))) /\
  (forall eid, store_well_formed (snd (deleteEmployee L eid w))) /\
  (forall a, store_well_formed (snd (signup L a w))) /\
  (forall a, store_well_formed (snd (login L a w))) /\
  store_well_formed (snd (getEmployees w)) /\
  (forall eid, store_well_formed (snd (getEmployeeById L eid w))) /\
  (forall a, store_well_formed (snd (searchEmployee L a w))).
Proof.
  intros Hw.
  pose proof stays_well_formed_refl as Hr.
  pose proof stays_well_formed_trans as Ht.
  pose proof stays_well_formed_enter as He.
  split; [|split; [|split; [|split; [|split; [|split; [|split]]]]]].
  - intros a. apply (keeps_addEmployee _ Hr Ht L He
                       (stays_well_formed_Employee_create L)
                       a (stays_well_formed_photo_step L a) w Hw).
  - intros a.
    apply (keeps_updateEmployee _ Hr Ht L He (stays_well_formed_update L) a w Hw).
  - intros eid.
    apply (keeps_deleteEmployee _ Hr Ht L (stays_well_formed_delete L) eid w Hw).
  - intros a.
    apply (keeps_signup _ Hr Ht L He (stays_well_formed_User_create L) a w Hw).
  - intros a. apply (keeps_login _ Hr Ht L He a w Hw).
  - apply (keeps_getEmployees _ He w Hw).
  - intros eid. apply (keeps_getEmployeeById _ Hr Ht L He eid w Hw).
  - intros a. apply (keeps_searchEmployee _ Hr Ht L He a w Hw).
Qed.

End WellFormedRecords.

(** ** [login] *)

Section LoginProperties.
Context (L : Libs).

(** X4.  [login] fails with [BAD_USER_INPUT] and makes no store call
    when the password is shorter than 6 characters or when neither a
    non-empty username nor a non-empty email is given; with a valid
    password and no identity the message is the one of line 83.  In every
    other case it makes exactly one store call, the account lookup. *)
Theorem login_input_gate (a : LoginArgs.t) (w : World) :
  (login_input_ok a = false ->
   exists e, login L a w = (inl e, w) /\ InvalidInput e) /\
  ((6 <= String.length (LoginArgs.password a))%nat ->
   truthy (LoginArgs.username a) = false ->
   truthy (LoginArgs.email a) = false ->
   login L a w
   = (inl (GraphQLError "Either username or email is required for login."
                        "BAD_USER_INPUT" NoDetail), w)) /\
  (login_input_ok a = true ->
   calls (snd (login L a w)) = StoreCall "User.findOne" :: calls w).
Proof.
  unfold login_input_ok. split; [|split].
  - intros Hbad. unfold login, bind.
    destruct (6 <=? String.length (LoginArgs.password a))%nat eqn:Hpw.
    + apply Nat.leb_le in Hpw.
      rewrite runValidation_passes by now apply login_password_valid.
      cbn [andb] in Hbad. apply orb_false_elim in Hbad.
      destruct Hbad as [-> ->]. cbn [negb andb].
      eexists. split; reflexivity.
    + destruct (runValidation_fails L login_schema (login_body a) w)
        as (e & -> & He).
      * intros Hv. apply validate_login in Hv. apply Nat.leb_le in Hv.
        congruence.
      * now exists e.
  - intros Hpw Hu He. unfold login, bind.
    rewrite runValidation_passes by now apply login_password_valid.
    now rewrite Hu, He.
  - intros Hok. apply andb_prop in Hok. destruct Hok as [Hpw Hid].
    apply Nat.leb_le in Hpw. unfold login, bind.
    rewrite runValidation_passes by now apply login_password_valid.
    assert (negb (truthy (LoginArgs.username a)) &&
            negb (truthy (LoginArgs.email a)) = false) as ->.
    { apply orb_prop in Hid. destruct Hid as [-> | ->]; simpl;
        [reflexivity|apply andb_false_r]. }
    unfold User_findOne.
    destruct (find _ _) as [u|]; [|apply calls_enter].
    destruct (bcrypt_compare L _ _); cbn [negb]; [|apply calls_enter].
    unfold getenv_JWT_SECRET.
    destruct (JWT_SECRET _) as [secret|]; [|apply calls_enter].
    destruct (truthy_string secret); apply calls_enter.
Qed.

(** X5.  With a valid password argument, an identity supplied, a
    matching account whose stored hash verifies the password, and a
    non-empty signing secret, [login] returns the token signed with that
    secret over the account's id, username and email, expiring in one
    day. *)
Theorem login_issues_token
        (a : LoginArgs.t) (w : World) (u : User.doc) (secret : string) :
  login_input_ok a = true ->
  account_seen a w = Some u ->
  bcrypt_compare L (LoginArgs.password a) (User.password u) = true ->
  JWT_SECRET w = Some secret ->
  secret <> "" ->
  login L a w
  = (inr (jwt_sign L (mkPayload (User._id u) (User.username u) (User.email u))
                   secret "1d"),
     enter "User.findOne" w).
Proof.
  intros Hok Hacc Hcmp Hsecret Hne.
  apply andb_prop in Hok. destruct Hok as [Hpw Hid].
  apply Nat.leb_le in Hpw. unfold login, bind.
  rewrite runValidation_passes by now apply login_password_valid.
  assert (negb (truthy (LoginArgs.username a)) &&
          negb (truthy (LoginArgs.email a)) = false) as ->.
  { apply orb_prop in Hid. destruct Hid as [-> | ->]; simpl;
      [reflexivity|apply andb_false_r]. }
  unfold User_findOne. unfold account_seen, users_seen_by in Hacc.
  rewrite Hacc, Hcmp. cbn [negb]. unfold getenv_JWT_SECRET.
  rewrite enter_JWT_SECRET, Hsecret.
  destruct secret; [contradiction|reflexivity].
Qed.

(** X6.  The account is looked up by the username, verbatim, whenever a
    non-empty username is given: the email argument then has no effect on
    the result.  Without a username the lookup is by the lower-cased
    email, so two emails that differ only in letter case give the same
    result.  The account [login] goes on with is the first one whose
    stored username is, character for character, the username given, or
    else whose stored email is the lower-cased email given: with none the
    call fails with "Invalid credentials.", and with one whose hash
    verifies the password the token is signed for that account. *)
Theorem login_lookup_key (username email : arg string) (password : string)
        (w : World) :
  (truthy username = true ->
   forall other : arg string,
     login L (LoginArgs.mk username other password) w
     = login L (LoginArgs.mk username email password) w) /\
  (truthy username = false ->
   forall e1 e2 : string,
     toLowerCase e1 = toLowerCase e2 ->
     login L (LoginArgs.mk username (Given e1) password) w
     = login L (LoginArgs.mk username (Given e2) password) w) /\
  ((6 <= String.length password)%nat ->
   truthy username = true \/ truthy email = true ->
   let found :=
     if truthy username
     then held_by User.username (the_string username)
                  (users_seen_by "User.findOne" w)
     else held_by User.email (toLowerCase (the_string email))
                  (users_seen_by "User.findOne" w) in
   (found = None ->
    login L (LoginArgs.mk username email password) w
    = (inl invalid_credentials, enter "User.findOne" w)) /\
   (forall (u : User.doc) (secret : string),
      found = Some u ->
      bcrypt_compare L password (User.password u) = true ->
      JWT_SECRET w = Some secret ->
      secret <> "" ->
      login L (LoginArgs.mk username email password) w
      = (inr (jwt_sign L
                (mkPayload (User._id u) (User.username u) (User.email u))
                secret "1d"),
         enter "User.findOne" w))).
Proof.
  split; [|split].
  - intros Hu other. unfold login, login_query, runValidation, bind.
    cbn [LoginArgs.username LoginArgs.email LoginArgs.password].
    rewrite Hu. reflexivity.
  - intros Hu e1 e2 Hcase. unfold login, login_query, runValidation, bind.
    cbn [LoginArgs.username LoginArgs.email LoginArgs.password the_string].
    rewrite Hu, Hcase.
    assert (truthy (Given e1) = truthy (Given e2)) as ->.
    { destruct e1, e2; simpl in Hcase; try reflexivity; discriminate. }
    reflexivity.
  - intros Hpw Hid found.
    assert (Hseen : account_seen (LoginArgs.mk username email password) w
                    = found).
    { unfold account_seen, login_query, found, held_by.
      cbn [LoginArgs.username LoginArgs.email].
      now destruct (truthy username). }
    split.
    + intros Hnone. apply login_rejects; [exact Hpw|exact Hid|].
      left. now rewrite Hseen.
    + intros u secret Hfound Hcmp Hsecret Hne.
      rewrite <- Hseen in Hfound. unfold login, bind.
      rewrite runValidation_passes by now apply login_password_valid.
      cbn [LoginArgs.username LoginArgs.email LoginArgs.password].
      assert (negb (truthy username) && negb (truthy email) = false) as ->.
      { destruct Hid as [-> | ->]; simpl; [reflexivity|apply andb_false_r]. }
      unfold User_findOne. unfold account_seen, users_seen_by in Hfound.
      rewrite Hfound, Hcmp. cbn [negb]. unfold getenv_JWT_SECRET.
      rewrite enter_JWT_SECRET, Hsecret.
      destruct secret; [contradiction|reflexivity].
Qed.

End LoginProperties.

(** ** [signup] *)

Lemma users_land_batch (u : User.doc) (batch : list Write) : forall w,
  In u (users w) ->
  In u (users (fold_left (fun acc wr => land_write wr acc) batch w)).
Proof.
  induction batch as [|wr batch IH]; intros w H; [exact H|].
  cbn [fold_left]. apply IH. destruct wr; cbn; [|exact H|exact H].
  apply in_or_app. now left.
Qed.

(** No write removes an account. *)
Lemma users_enter (u : User.doc) (operation : string) (w : World) :
  In u (users w) -> In u (users (enter operation w)).
Proof.
  intros H. unfold enter. destruct (pending w) as [|batch later]; [exact H|].
  cbn [users]. now apply users_land_batch.
Qed.

Lemma signup_success (L : Libs) (a : SignupArgs.t) (w w' : World) (u : User.doc) :
  signup L a w = (inr u, w') ->
  User.email u = toLowerCase (SignupArgs.email a) /\ In u (users w').
Proof.
  unfold signup, bind, runValidation.
  destruct (validate L signup_schema (signup_body a)); [|discriminate].
  cbn [ret]. unfold User_findOne.
  destruct (find _ (users (enter "User.findOne" w))); [discriminate|].
  unfold try_catch, User_create.
  destruct (existsb _ (users (enter "User.create" (enter "User.findOne" w)))).
  - discriminate.
  - intros H. inversion H; subst; clear H. cbn.
    split; [reflexivity|]. apply in_or_app. right. now left.
Qed.

Section SignupProperties.
Context (L : Libs).

(** X7.  When the arguments pass validation and an account already holds
    the lower-cased email, [signup] fails with the "Email already
    exists." error of code [BAD_USER_INPUT] after the lookup alone: the
    password is not written and the accounts are those the lookup saw. *)
Theorem signup_rejects_known_email (a : SignupArgs.t) (w : World) :
  signup_input_ok L a = true ->
  (exists u, In u (users_seen_by "User.findOne" w) /\
             User.email u = toLowerCase (SignupArgs.email a)) ->
  signup L a w = (inl email_exists, enter "User.findOne" w).
Proof.
  intros Hok (u & Hin & Hmail). apply validate_signup in Hok.
  unfold signup, bind. rewrite runValidation_passes by exact Hok.
  unfold User_findOne. unfold users_seen_by in Hin.
  destruct (find_finds (user_matches (ByEmail (toLowerCase (SignupArgs.email a))))
              _ u Hin) as [y ->]; [|reflexivity].
  cbn [user_matches]. rewrite Hmail. apply String.eqb_refl.
Qed.

(** X8.  After a successful [signup], any later [signup] whose email
    equals the first one up to letter case fails with [BAD_USER_INPUT],
    whatever else it carries and whatever other requests wrote in
    between. *)
Theorem signup_same_email_twice
        (a1 a2 : SignupArgs.t) (w w1 : World) (u : User.doc) :
  signup L a1 w = (inr u, w1) ->
  toLowerCase (SignupArgs.email a2) = toLowerCase (SignupArgs.email a1) ->
  exists e w2, signup L a2 w1 = (inl e, w2) /\ InvalidInput e.
Proof.
  intros Hfirst Hcase.
  destruct (signup_success L a1 w w1 u Hfirst) as [Hmail Hin].
  unfold signup, bind.
  destruct (validate L signup_schema (signup_body a2)) eqn:Hval.
  - rewrite runValidation_passes by exact Hval.
    unfold User_findOne.
    destruct (find_finds
                (user_matches (ByEmail (toLowerCase (SignupArgs.email a2))))
                (users (enter "User.findOne" w1)) u) as [y ->].
    + now apply users_enter.
    + cbn [user_matches]. rewrite Hmail, Hcase. apply String.eqb_refl.
    + do 2 eexists. split; reflexivity.
  - destruct (runValidation_fails L signup_schema (signup_body a2) w1)
      as (e & -> & He); [rewrite Hval; discriminate|].
    now exists e, w1.
Qed.

End SignupProperties.

(** ** [addEmployee] *)

Lemma Employee_create_result (L : Libs) (f : Employee.fields) (w w' : World)
      (d : Employee.doc) :
  Employee_create L f w = (inr d, w') ->
  let w1 := enter "Employee.create" w in
  d = new_employee (ObjectId_generate L (clock w1)) (clock w1) f /\
  invalid_paths d = [] /\
  email_taken None (Employee.email d) (employees w1) = false /\
  w' = set_employees (employees w1 ++ [d]) w1.
Proof.
  unfold Employee_create. cbv zeta.
  destruct (invalid_paths _) eqn:Hv; [|discriminate].
  destruct (email_taken _ _ _) eqn:Ht; [discriminate|].
  intros H. inversion H; subst; clear H. repeat split; assumption.
Qed.

Lemma email_taken_false (l : list Employee.doc) (email : string)
      (e : Employee.doc) :
  email_taken None email l = false -> In e l -> Employee.email e <> email.
Proof.
  unfold email_taken. intros H Hin Heq.
  assert (existsb (fun x => true && (Employee.email x =? email)) l = true) as Hc.
  { apply existsb_exists. exists e. split; [exact Hin|].
    cbn [andb]. now apply String.eqb_eq. }
  congruence.
Qed.

Lemma photo_step_result (L : Libs) (a : AddArgs.t) (w w' : World)
      (photoUrl : option string) :
  photo_step L a w = (inr photoUrl, w') ->
  (truthy (AddArgs.employee_photo a) = false -> photoUrl = None) /\
  (truthy (AddArgs.employee_photo a) = true ->
   exists url, cloudinary_upload L (the_string (AddArgs.employee_photo a))
               = inr url /\ photoUrl = Some url) /\
  employees w' = employees w /\ pending w' = pending w.
Proof.
  unfold photo_step, uploadEmployeePhoto.
  destruct (truthy (AddArgs.employee_photo a)); cbn [negb].
  - unfold try_catch, bind, cloudinary_uploader_upload.
    destruct (cloudinary_upload L _) as [m|url]; [discriminate|].
    intros H. inversion H; subst; clear H.
    repeat split; try discriminate. intros _. now exists url.
  - intros H. inversion H; subst; clear H.
    repeat split; discriminate.
Qed.

Lemma addEmployee_success (L : Libs) (a : AddArgs.t) (w w' : World)
      (d : Employee.doc) :
  addEmployee L a w = (inr d, w') ->
  exists photoUrl w2,
    photo_step L a (enter "Employee.findOne" w) = (inr photoUrl, w2) /\
    Employee_create L (create_fields a photoUrl) w2 = (inr d, w').
Proof.
  unfold addEmployee, bind, runValidation.
  destruct (validate L addEmployee_schema (addEmployee_body a)); [|discriminate].
  cbn [ret]. unfold Employee_findOne.
  destruct (find _ (employees (enter "Employee.findOne" w))); [discriminate|].
  destruct (photo_step L a (enter "Employee.findOne" w)) as [[e|photoUrl] w2];
    [discriminate|].
  unfold try_catch.
  destruct (Employee_create L (create_fields a photoUrl) w2) as [[e|d'] w3] eqn:Hc.
  - destruct e as [m c dt|code kp|paths|src|m]; try discriminate.
    unfold handleDuplicateEmailError. destruct (_ && _); discriminate.
  - intros H. inversion H; subst; clear H. now exists photoUrl, w2.
Qed.

Section AddEmployeeProperties.
Context (L : Libs).

(** X9.  [addEmployee] stops at validation, with [BAD_USER_INPUT] and
    without any store call or upload, exactly when a required text
    argument is the empty string, the email or the date is refused by
    its format test, the salary is under 1000, or [employee_photo] is
    [null].  The violations are listed as the chains report them, the
    chains of one validator before those of two: with the names and the
    designation given, a salary under 1000 is the first violation and
    gives the message, also when the email, written before it in the
    schema, is refused as well. *)
Theorem addEmployee_validation_gate (a : AddArgs.t) (w : World) :
  (add_input_ok L a = false ->
   exists first others,
     validate L addEmployee_schema (addEmployee_body a) = first :: others /\
     addEmployee L a w
     = (inl (GraphQLError (msg first) "BAD_USER_INPUT"
                          (DetailList (first :: others))), w)) /\
  (add_input_ok L a = true ->
   forall e w', addEmployee L a w = (inl e, w') -> ~ reports_violations e) /\
  (AddArgs.first_name a <> "" ->
   AddArgs.last_name a <> "" ->
   AddArgs.designation a <> "" ->
   Qle_bool 1000 (AddArgs.salary a) = false ->
   exists others,
     addEmployee L a w
     = (inl (GraphQLError "Salary must be at least 1000." "BAD_USER_INPUT"
               (DetailList
                  (mkValidationError "salary" "Salary must be at least 1000."
                   :: others))), w) /\
     (validator_isEmail L (AddArgs.email a) = false ->
      In (mkValidationError "email" "Email format is invalid.") others)).
Proof.
  split; [|split].
  3:{ intros H1 H2 H3 Hs.
      apply String.eqb_neq in H1, H2, H3.
      unfold addEmployee, bind, runValidation, validate.
      rewrite addEmployee_schema_order.
      unfold addEmployee_reporting_order, rule_errors, addEmployee_body.
      cbn [flat_map lookup String.eqb Ascii.eqb Bool.eqb field optional checks
           holds to_text fst snd app negb].
      rewrite H1, H2, H3, Hs. cbn [negb app].
      eexists. split; [reflexivity|].
      intros Hm. rewrite Hm.
      apply in_or_app. right. apply in_or_app. right.
      apply in_or_app. left. apply in_or_app. right.
      now left. }
  - intros Hbad.
    destruct (rejected_at_validation L addEmployee_schema (addEmployee_body a) w
                (not_nil_of_not_ok _ _ (validate_addEmployee L a) Hbad))
      as (first & others & Hv & Hr).
    exists first, others. split; [exact Hv|].
    unfold addEmployee, bind. now rewrite Hr.
  - intros Hok e w'. apply validate_addEmployee in Hok.
    unfold addEmployee, bind. rewrite runValidation_passes by exact Hok.
    unfold Employee_findOne.
    destruct (find _ (employees (enter "Employee.findOne" w)));
      [intros H; inversion H; subst; exact (fun F => F)|].
    unfold photo_step, uploadEmployeePhoto.
    destruct (truthy (AddArgs.employee_photo a)); cbn [negb].
    + unfold try_catch at 2. unfold bind, cloudinary_uploader_upload.
      destruct (cloudinary_upload L _);
        [intros H; inversion H; subst; exact (fun F => F)|].
      unfold ret, try_catch, Employee_create. cbv beta iota zeta.
      match goal with
      | |- context [invalid_paths ?d] => destruct (invalid_paths d)
      end; [|intros H; inversion H; subst; exact (fun F => F)].
      match goal with
      | |- context [email_taken ?o ?m ?l] => destruct (email_taken o m l)
      end; intros H; inversion H; subst; exact (fun F => F).
    + unfold ret, try_catch, Employee_create. cbv beta iota zeta.
      match goal with
      | |- context [invalid_paths ?d] => destruct (invalid_paths d)
      end; [|intros H; inversion H; subst; exact (fun F => F)].
      match goal with
      | |- context [email_taken ?o ?m ?l] => destruct (email_taken o m l)
      end; intros H; inversion H; subst; exact (fun F => F).
Qed.

(** X10.  When validated arguments carry a first name, last name,
    designation or department made of blanks only, and the email
    pre-check and the photo step pass, [addEmployee] fails at the write
    with the model's own validation error, which names the blank paths
    and carries none of the resolver's error codes; no record is added. *)
Theorem addEmployee_blank_text_fails_untyped
        (a : AddArgs.t) (photoUrl : option string) (w w2 : World) :
  add_input_ok L a = true ->
  trim (AddArgs.first_name a) = "" \/ trim (AddArgs.last_name a) = "" \/
  trim (AddArgs.designation a) = "" \/ trim (AddArgs.department a) = "" ->
  find (employee_matches L (EmailIs (toLowerCase (AddArgs.email a))))
       (employees_seen_by "Employee.findOne" w) = None ->
  photo_step L a (enter "Employee.findOne" w) = (inr photoUrl, w2) ->
  exists paths,
    addEmployee L a w = (inl (ValidationError paths), enter "Employee.create" w2) /\
    (trim (AddArgs.first_name a) = "" -> In "first_name" paths) /\
    (trim (AddArgs.last_name a) = "" -> In "last_name" paths) /\
    (trim (AddArgs.designation a) = "" -> In "designation" paths) /\
    (trim (AddArgs.department a) = "" -> In "department" paths) /\
    forall code, ~ has_code code (ValidationError paths).
Proof.
  intros Hok Hblank Hfind Hphoto. apply validate_addEmployee in Hok.
  set (d := new_employee
              (ObjectId_generate L (clock (enter "Employee.create" w2)))
              (clock (enter "Employee.create" w2)) (create_fields a photoUrl)).
  assert (Hpaths :
            (trim (AddArgs.first_name a) = "" -> In "first_name" (invalid_paths d)) /\
            (trim (AddArgs.last_name a) = "" -> In "last_name" (invalid_paths d)) /\
            (trim (AddArgs.designation a) = "" -> In "designation" (invalid_paths d)) /\
            (trim (AddArgs.department a) = "" -> In "department" (invalid_paths d))).
  { unfold invalid_paths, d, new_employee, create_fields, required.
    cbn [Employee.first_name Employee.last_name Employee.email
         Employee.designation Employee.salary Employee.date_of_joining
         Employee.department Employee.f_first_name Employee.f_last_name
         Employee.f_email Employee.f_designation Employee.f_salary
         Employee.f_date_of_joining Employee.f_department].
    repeat split; intros ->; cbn [String.eqb];
      repeat (apply in_or_app; first [left; now left | right]);
      now left. }
  exists (invalid_paths d).
  split; [|destruct Hpaths as (H1 & H2 & H3 & H4);
           repeat split; try assumption; intros code H; exact H].
  unfold addEmployee, bind. rewrite runValidation_passes by exact Hok.
  unfold Employee_findOne. unfold employees_seen_by in Hfind. rewrite Hfind.
  rewrite Hphoto. unfold try_catch, Employee_create. cbv zeta. fold d.
  destruct (invalid_paths d) as [|p ps] eqn:Hd; [|reflexivity].
  exfalso. destruct Hpaths as (H1 & H2 & H3 & H4).
  destruct Hblank as [H | [H | [H | H]]]; [apply H1 in H|apply H2 in H|
                                           apply H3 in H|apply H4 in H];
    exact H.
Qed.

(** X11.  When the arguments pass validation and a stored employee holds
    an email equal to the given one up to letter case, [addEmployee] fails
    with the "Email already exists." error after the lookup alone: nothing
    is uploaded and nothing is written. *)
Theorem addEmployee_known_email_stops_before_upload
        (a : AddArgs.t) (w : World) :
  add_input_ok L a = true ->
  (exists r written,
     In r (employees_seen_by "Employee.findOne" w) /\
     Employee.email r = email_setters written /\
     toLowerCase written = toLowerCase (AddArgs.email a)) ->
  addEmployee L a w = (inl email_exists, enter "Employee.findOne" w).
Proof.
  intros Hok (r & written & Hin & Hmail & Hcase).
  apply validate_addEmployee in Hok.
  unfold addEmployee, bind. rewrite runValidation_passes by exact Hok.
  unfold Employee_findOne. unfold employees_seen_by in Hin.
  destruct (find_finds
              (employee_matches L (EmailIs (toLowerCase (AddArgs.email a))))
              _ r Hin) as [y ->]; [|reflexivity].
  cbn [employee_matches]. rewrite email_setters_lower, Hmail.
  unfold email_setters. rewrite Hcase. apply String.eqb_refl.
Qed.

(** X12.  The record a successful [addEmployee] returns carries the text
    arguments trimmed, the email lower-cased and trimmed, the salary as
    given and at least 1000, the uploaded URL as photo exactly when a
    payload was given, and equal creation and update times; it is in the
    collection, and no other record there has its email. *)
Theorem addEmployee_returns_normalised_record
        (a : AddArgs.t) (w w' : World) (d : Employee.doc) :
  addEmployee L a w = (inr d, w') ->
  Employee.first_name d = trim (AddArgs.first_name a) /\
  Employee.last_name d = trim (AddArgs.last_name a) /\
  Employee.email d = email_setters (AddArgs.email a) /\
  Employee.gender d = match AddArgs.gender a with
                      | Given s => Some (trim s)
                      | Omitted | IsNull => None
                      end /\
  Employee.designation d = trim (AddArgs.designation a) /\
  Employee.salary d = AddArgs.salary a /\
  1000 <= Employee.salary d /\
  Employee.date_of_joining d = trim (AddArgs.date_of_joining a) /\
  Employee.department d = trim (AddArgs.department a) /\
  (truthy (AddArgs.employee_photo a) = false -> Employee.employee_photo d = None) /\
  (truthy (AddArgs.employee_photo a) = true ->
   exists url, cloudinary_upload L (the_string (AddArgs.employee_photo a))
               = inr url /\ Employee.employee_photo d = Some (trim url)) /\
  Employee.created_at d = Employee.updated_at d /\
  In d (employees w') /\
  (forall e, In e (employees w') -> Employee.email e = Employee.email d -> e = d).
Proof.
  intros H. destruct (addEmployee_success L a w w' d H) as (photoUrl & w2 & Hp & Hc).
  destruct (photo_step_result L a _ _ _ Hp) as (Hnone & Hsome & _ & _).
  destruct (Employee_create_result L _ _ _ _ Hc) as (Hd & Hv & Ht & Hw).
  apply invalid_paths_nil in Hv. destruct Hv as (_ & _ & _ & _ & Hsal & _ & _).
  assert (Hmail : Employee.email d = email_setters (AddArgs.email a)).
  { rewrite Hd. cbn. apply email_setters_lower. }
  split; [now rewrite Hd|]. split; [now rewrite Hd|]. split; [exact Hmail|].
  split; [rewrite Hd; cbn; now destruct (AddArgs.gender a)|].
  split; [now rewrite Hd|]. split; [now rewrite Hd|]. split; [exact Hsal|].
  split; [now rewrite Hd|]. split; [now rewrite Hd|].
  split; [intros Hf; rewrite Hd, (Hnone Hf); reflexivity|].
  split.
  { intros Ht'. destruct (Hsome Ht') as (url & Hu & ->). exists url.
    split; [exact Hu|]. now rewrite Hd. }
  split; [now rewrite Hd|].
  rewrite Hw. cbn [set_employees employees]. split.
  - apply in_or_app. right. now left.
  - intros e He Heq. apply in_app_or in He. destruct He as [He | [He | []]];
      [|now symmetry].
    exfalso. exact (email_taken_false _ _ e Ht He Heq).
Qed.

(** X13.  Round trip: the record a successful [addEmployee] returns is
    what [getEmployeeById] returns right afterwards for its id, in
    whatever valid spelling the id is given, when no other stored record
    carries the id and no other request writes in between. *)
Theorem addEmployee_then_getEmployeeById
        (a : AddArgs.t) (w w' : World) (d : Employee.doc) (eid : string) :
  addEmployee L a w = (inr d, w') ->
  pending w' = [] ->
  ObjectId_isValid L eid = true ->
  ObjectId_cast L eid = Employee._id d ->
  (forall e, In e (employees w') -> Employee._id e = Employee._id d -> e = d) ->
  getEmployeeById L eid w'
  = (inr d, enter "Employee.findById" w').
Proof.
  intros H Hquiet Hvalid Hspells Hfresh.
  destruct (addEmployee_success L a w w' d H) as (photoUrl & w2 & _ & Hc).
  destruct (Employee_create_result L _ _ _ _ Hc) as (_ & _ & _ & Hw).
  assert (Hin : In d (employees w')).
  { rewrite Hw. cbn [set_employees employees]. apply in_or_app. right. now left. }
  unfold getEmployeeById, bind. rewrite Hvalid. cbn [negb].
  unfold Employee_findById. rewrite (quiet_enter _ _ Hquiet).
  cbn [users employees clock pending calls JWT_SECRET].
  destruct (find_finds (has_id L eid) (employees w') d Hin)
    as [y Hy]; [unfold has_id; rewrite Hspells; apply String.eqb_refl|].
  rewrite Hy. apply find_some in Hy. destruct Hy as [Hyin Hyid].
  unfold has_id in Hyid. rewrite Hspells in Hyid.
  apply String.eqb_eq in Hyid. now rewrite (Hfresh y Hyin Hyid).
Qed.

End AddEmployeeProperties.

(** ** Reading: [getEmployees], [getEmployeeById], [searchEmployee] *)

Lemma new_RegExp_i_refused (L : Libs) (source : string) (w : World) :
  pattern_refused L source = true ->
  new_RegExp_i L source w = (inl (RegExpSyntaxError source), w).
Proof.
  unfold pattern_refused, new_RegExp_i.
  destruct (RegExp.compile source); [discriminate|reflexivity|].
  destruct (regexp_beyond L source); [discriminate|reflexivity].
Qed.

Lemma new_RegExp_i_accepted (L : Libs) (source : string) (w : World) :
  pattern_refused L source = false ->
  exists re, new_RegExp_i L source w = (inr re, w).
Proof.
  unfold pattern_refused, new_RegExp_i.
  destruct (RegExp.compile source) as [r| |]; [now eexists|discriminate|].
  destruct (regexp_beyond L source); [now eexists|discriminate].
Qed.

Lemma insert_newest_first_perm (e : Employee.doc) (l : list Employee.doc) :
  Permutation (insert_newest_first e l) (e :: l).
Proof.
  induction l as [|x l IH]; cbn; [reflexivity|].
  destruct (Employee.created_at x <=? Employee.created_at e)%nat; [reflexivity|].
  rewrite IH. apply perm_swap.
Qed.

Lemma newest_first_perm (l : list Employee.doc) : Permutation (newest_first l) l.
Proof.
  induction l as [|x l IH]; cbn; [reflexivity|].
  rewrite insert_newest_first_perm. now constructor.
Qed.

Lemma insert_newest_first_sorted (e : Employee.doc) (l : list Employee.doc) :
  newest_first_order l -> newest_first_order (insert_newest_first e l).
Proof.
  unfold newest_first_order. induction l as [|x l IH]; intros Hs; cbn.
  - constructor; constructor.
  - destruct (Employee.created_at x <=? Employee.created_at e)%nat eqn:E.
    + apply Nat.leb_le in E. constructor; [exact Hs|].
      inversion Hs as [|? ? Hl Hx]; subst. constructor; [exact E|].
      rewrite Forall_forall in *. intros y Hy. specialize (Hx y Hy). lia.
    + apply Nat.leb_gt in E. inversion Hs as [|? ? Hl Hx]; subst.
      constructor; [now apply IH|].
      rewrite Forall_forall in *. intros y Hy.
      apply In_insert_newest_first in Hy. destruct Hy as [<- | Hy]; [lia|auto].
Qed.

Lemma newest_first_sorted (l : list Employee.doc) :
  newest_first_order (newest_first l).
Proof.
  induction l as [|x l IH]; cbn; [constructor|].
  now apply insert_newest_first_sorted.
Qed.

Lemma filter_all {A} (l : list A) : filter (fun _ => true) l = l.
Proof. induction l as [|x l IH]; cbn; [reflexivity|now rewrite IH]. Qed.

Lemma searchEmployee_result (L : Libs) (a : SearchArgs.t) (w w' : World)
      (found : list Employee.doc) :
  searchEmployee L a w = (inr found, w') ->
  exists keep, found = newest_first (filter keep (employees (enter "Employee.find" w))) /\
               w' = enter "Employee.find" w.
Proof.
  unfold searchEmployee.
  destruct (_ && _); [discriminate|].
  unfold bind, filter_key, new_RegExp_i.
  destruct (truthy (SearchArgs.designation a));
  destruct (truthy (SearchArgs.department a));
  repeat match goal with
         | |- context [match RegExp.compile ?s with _ => _ end] =>
             destruct (RegExp.compile s)
         | |- context [match regexp_beyond L ?s with _ => _ end] =>
             destruct (regexp_beyond L s)
         end;
  cbn; try discriminate;
  intros H; inversion H; subst; eexists; split; reflexivity.
Qed.

Section ReadProperties.
Context (L : Libs).

(** X14.  [getEmployees] returns every employee the store holds at the
    time of the call, each exactly once, ordered so that no record comes
    before a newer one; it changes nothing in the collections. *)
Theorem getEmployees_lists_all_newest_first (w : World) :
  exists l,
    getEmployees w = (inr l, enter "Employee.find" w) /\
    Permutation l (employees_seen_by "Employee.find" w) /\
    newest_first_order l.
Proof.
  unfold getEmployees, Employee_find, employees_seen_by.
  eexists. split; [reflexivity|]. split.
  - rewrite newest_first_perm, filter_all. reflexivity.
  - apply newest_first_sorted.
Qed.

(** X15.  Whatever the filters, every employee [searchEmployee] returns
    is a stored one, and the list is ordered so that no record comes
    before a newer one. *)
Theorem searchEmployee_returns_stored_newest_first
        (a : SearchArgs.t) (w w' : World) (found : list Employee.doc) :
  searchEmployee L a w = (inr found, w') ->
  (forall e, In e found -> In e (employees_seen_by "Employee.find" w)) /\
  newest_first_order found /\
  employees w' = employees_seen_by "Employee.find" w.
Proof.
  intros H. destruct (searchEmployee_result L a w w' found H) as (keep & -> & ->).
  split; [|split; [apply newest_first_sorted|reflexivity]].
  intros e He. apply (proj1 (In_newest_first _ _)) in He.
  apply filter_In in He. unfold employees_seen_by. tauto.
Qed.

(** X16.  A filter given as the empty string or as [null] is ignored:
    the call behaves as if the argument had been left out. *)
Theorem searchEmployee_ignores_empty_filter
        (designation department : arg string) (w : World) :
  (truthy designation = false ->
   searchEmployee L (SearchArgs.mk designation department) w
   = searchEmployee L (SearchArgs.mk Omitted department) w) /\
  (truthy department = false ->
   searchEmployee L (SearchArgs.mk designation department) w
   = searchEmployee L (SearchArgs.mk designation Omitted) w).
Proof.
  split; intros H; unfold searchEmployee, filter_key;
    cbn [SearchArgs.designation SearchArgs.department truthy];
    rewrite H; reflexivity.
Qed.

(** X17.  When the text of a supplied filter is a pattern the [RegExp]
    constructor refuses (an unbalanced parenthesis, a quantifier with
    nothing to repeat, a trailing backslash), [searchEmployee] fails with
    the constructor's error, which carries none of the resolver's error
    codes, and makes no store call.  The designation is compiled first:
    its error is the one thrown when it is refused; the department's is
    thrown when the designation is absent or accepted. *)
Theorem searchEmployee_bad_pattern_fails_untyped (a : SearchArgs.t) (w : World) :
  (truthy (SearchArgs.designation a) = true ->
   pattern_refused L (the_string (SearchArgs.designation a)) = true ->
   searchEmployee L a w
   = (inl (RegExpSyntaxError (the_string (SearchArgs.designation a))), w)) /\
  (truthy (SearchArgs.designation a) = false \/
   pattern_refused L (the_string (SearchArgs.designation a)) = false ->
   truthy (SearchArgs.department a) = true ->
   pattern_refused L (the_string (SearchArgs.department a)) = true ->
   searchEmployee L a w
   = (inl (RegExpSyntaxError (the_string (SearchArgs.department a))), w)) /\
  (forall source, RegExp.compile source = RegExp.SyntaxError ->
                  pattern_refused L source = true) /\
  (forall source r, RegExp.compile source = RegExp.Compiled r ->
                    pattern_refused L source = false) /\
  (forall source code, ~ has_code code (RegExpSyntaxError source)).
Proof.
  split; [|split; [|split; [|split]]].
  - intros Ht Hr. unfold searchEmployee, filter_key, bind.
    rewrite Ht. cbn [negb andb].
    now rewrite (new_RegExp_i_refused L _ w Hr).
  - intros Hdes Ht Hr. unfold searchEmployee, filter_key, bind.
    rewrite Ht, andb_false_r.
    destruct (truthy (SearchArgs.designation a)) eqn:Hd.
    + destruct Hdes as [Hdes | Hdes]; [discriminate|].
      destruct (new_RegExp_i_accepted L _ w Hdes) as [re ->].
      cbn [ret]. now rewrite (new_RegExp_i_refused L _ w Hr).
    + cbn [ret]. now rewrite (new_RegExp_i_refused L _ w Hr).
  - intros source H. unfold pattern_refused. now rewrite H.
  - intros source r H. unfold pattern_refused. now rewrite H.
  - intros source code H. exact H.
Qed.

(** X18.  Whatever [getEmployeeById] returns is a stored record whose id
    is the ObjectId the requested id spells, the requested id is
    structurally valid, and the call wrote nothing. *)
Theorem getEmployeeById_returns_the_record
        (eid : string) (w w' : World) (d : Employee.doc) :
  getEmployeeById L eid w = (inr d, w') ->
  ObjectId_isValid L eid = true /\
  In d (employees_seen_by "Employee.findById" w) /\
  Employee._id d = ObjectId_cast L eid /\
  w' = enter "Employee.findById" w.
Proof.
  unfold getEmployeeById, bind, Employee_findById, employees_seen_by.
  destruct (ObjectId_isValid L eid); cbn [negb]; [|discriminate].
  destruct (find _ _) as [r|] eqn:Hf; [|discriminate].
  intros H. inversion H; subst; clear H.
  apply find_some in Hf. destruct Hf as [Hin Hid].
  apply String.eqb_eq in Hid. repeat split; assumption.
Qed.

End ReadProperties.

(** ** [updateEmployee] and [deleteEmployee] *)

Lemma check_update_email_result (L : Libs) (eid : string) (p updates : Employee.patch)
      (w w1 : World) :
  check_update_email L eid p w = (inr updates, w1) ->
  (truthy (Employee.p_email p) = false /\ updates = p /\ w1 = w) \/
  (truthy (Employee.p_email p) = true /\
   updates = Employee.with_email
               (Given (toLowerCase (the_string (Employee.p_email p)))) p /\
   w1 = enter "Employee.findOne" w).
Proof.
  unfold check_update_email, bind, Employee_findOne.
  destruct (truthy (Employee.p_email p)).
  - destruct (find _ _); [discriminate|].
    intros H. inversion H; subst. right. repeat split.
  - intros H. inversion H; subst. left. repeat split.
Qed.

Lemma update_result (L : Libs) (id : string) (p : Employee.patch) (w w' : World)
      (d : Employee.doc) :
  Employee_findByIdAndUpdate L id p w = (inr (Some d), w') ->
  exists old,
    find (has_id L id) (employees (enter "Employee.findByIdAndUpdate" w)) = Some old /\
    d = apply_patch (clock (enter "Employee.findByIdAndUpdate" w))
                    (cast_patch p) old /\
    patch_invalid_paths (cast_patch p) = [] /\
    w' = set_employees
           (replace_doc d (employees (enter "Employee.findByIdAndUpdate" w)))
           (enter "Employee.findByIdAndUpdate" w).
Proof.
  unfold Employee_findByIdAndUpdate. cbv zeta.
  destruct (patch_invalid_paths (cast_patch p)) eqn:Hv; [|discriminate].
  destruct (find _ _) as [old|] eqn:Hold; [|discriminate].
  destruct (_ && _); [discriminate|].
  intros H. inversion H; subst; clear H. exists old. repeat split.
Qed.

Lemma updateEmployee_success (L : Libs) (a : UpdateArgs.t) (w w' : World)
      (d : Employee.doc) :
  updateEmployee L a w = (inr d, w') ->
  exists updates w1,
    check_update_email L (UpdateArgs.eid a) (updates_of a) w = (inr updates, w1) /\
    Employee_findByIdAndUpdate L (UpdateArgs.eid a) updates w1 = (inr (Some d), w').
Proof.
  unfold updateEmployee, bind, runValidation.
  destruct (validate L updateEmployee_schema (updateEmployee_body a));
    [|discriminate].
  cbn [ret].
  destruct (ObjectId_isValid L (UpdateArgs.eid a)); cbn [negb]; [|discriminate].
  destruct (check_update_email _ _ _ w) as [[e|updates] w1]; [discriminate|].
  unfold write_update, try_catch, bind.
  destruct (Employee_findByIdAndUpdate _ _ updates w1) as [[e|[d'|]] w2] eqn:Hu.
  - destruct e as [m c dt|code kp|paths|src|m]; try discriminate.
    unfold handleDuplicateEmailError. destruct (_ && _); discriminate.
  - intros H. inversion H; subst; clear H. now exists updates, w1.
  - discriminate.
Qed.

Lemma handler_rethrows {A} (e : error) (w : World) :
  is_duplicate_email e = false ->
  @handleDuplicateEmailError A e w = (inl e, w).
Proof.
  destruct e; try reflexivity. cbn [is_duplicate_email].
  unfold handleDuplicateEmailError. now intros ->.
Qed.

Lemma patch_text_refused (path : string) (t : arg string) :
  patch_text_ok t = false -> In path (patch_required path (cast_text t)).
Proof.
  destruct t as [| |s]; cbn; [discriminate|now left|].
  unfold nonblank, required. intros H. apply negb_false_iff in H.
  rewrite H. now left.
Qed.

Section WriteProperties.
Context (L : Libs).

(** X19.  [updateEmployee] stops at validation, with [BAD_USER_INPUT] and
    no store call, exactly when [eid] is empty, a supplied email is
    refused by the email test, or a supplied salary is [null] or under
    1000; with valid input and a structurally invalid id it fails with
    "Invalid employee ID.", again before any store call. *)
Theorem updateEmployee_input_gate (a : UpdateArgs.t) (w : World) :
  (update_input_ok L a = false ->
   exists first others,
     validate L updateEmployee_schema (updateEmployee_body a) = first :: others /\
     updateEmployee L a w
     = (inl (GraphQLError (msg first) "BAD_USER_INPUT"
                          (DetailList (first :: others))), w)) /\
  (update_input_ok L a = true ->
   ObjectId_isValid L (UpdateArgs.eid a) = false ->
   updateEmployee L a w = (inl invalid_employee_id, w)) /\
  (update_input_ok L a = true ->
   forall e w', updateEmployee L a w = (inl e, w') -> ~ reports_violations e).
Proof.
  split; [|split].
  - intros Hbad.
    destruct (rejected_at_validation L updateEmployee_schema
                (updateEmployee_body a) w
                (not_nil_of_not_ok _ _ (validate_updateEmployee L a) Hbad))
      as (first & others & Hv & Hr).
    exists first, others. split; [exact Hv|].
    unfold updateEmployee, bind. now rewrite Hr.
  - intros Hok Hid. apply validate_updateEmployee in Hok.
    unfold updateEmployee, bind. rewrite runValidation_passes by exact Hok.
    now rewrite Hid.
  - intros Hok e w'. apply validate_updateEmployee in Hok.
    unfold updateEmployee, bind. rewrite runValidation_passes by exact Hok.
    destruct (ObjectId_isValid L (UpdateArgs.eid a)); cbn [negb];
      [|intros H; inversion H; subst; exact (fun F => F)].
    unfold check_update_email, bind, Employee_findOne.
    destruct (truthy _).
    + destruct (find _ _);
        [intros H; inversion H; subst; exact (fun F => F)|].
      unfold ret, write_update, try_catch, bind, Employee_findByIdAndUpdate.
      cbv beta iota zeta.
      match goal with
      | |- context [patch_invalid_paths ?p] => destruct (patch_invalid_paths p)
      end; [|intros H; inversion H; subst; exact (fun F => F)].
      destruct (find _ _);
        [|intros H; inversion H; subst; exact (fun F => F)].
      destruct (_ && _); intros H; inversion H; subst; exact (fun F => F).
    + unfold ret, write_update, try_catch, bind, Employee_findByIdAndUpdate.
      cbv beta iota zeta.
      match goal with
      | |- context [patch_invalid_paths ?p] => destruct (patch_invalid_paths p)
      end; [|intros H; inversion H; subst; exact (fun F => F)].
      destruct (find _ _);
        [|intros H; inversion H; subst; exact (fun F => F)].
      destruct (_ && _); intros H; inversion H; subst; exact (fun F => F).
Qed.

(** X20.  Partial update: on a store no other request is writing to, the
    record a successful [updateEmployee] returns is the stored record
    whose id is the ObjectId that [eid] spells, with each supplied field
    replaced (text trimmed, email
    lower-cased and trimmed, a [null] gender or photo cleared) and every
    field that was left out unchanged; id and creation time are kept, the
    record is in the collection afterwards, and records with other ids
    are untouched. *)
Theorem updateEmployee_changes_only_supplied_fields
        (a : UpdateArgs.t) (w w' : World) (d : Employee.doc) :
  updateEmployee L a w = (inr d, w') ->
  pending w = [] ->
  exists old,
    In old (employees w) /\
    Employee._id old = ObjectId_cast L (UpdateArgs.eid a) /\
    Employee._id d = ObjectId_cast L (UpdateArgs.eid a) /\
    Employee.created_at d = Employee.created_at old /\
    Employee.first_name d
    = match UpdateArgs.first_name a with
      | Given s => trim s | Omitted | IsNull => Employee.first_name old end /\
    Employee.last_name d
    = match UpdateArgs.last_name a with
      | Given s => trim s | Omitted | IsNull => Employee.last_name old end /\
    Employee.email d
    = match UpdateArgs.email a with
      | Given s => email_setters s | Omitted | IsNull => Employee.email old end /\
    Employee.gender d
    = match UpdateArgs.gender a with
      | Given s => Some (trim s) | IsNull => None
      | Omitted => Employee.gender old end /\
    Employee.designation d
    = match UpdateArgs.designation a with
      | Given s => trim s | Omitted | IsNull => Employee.designation old end /\
    Employee.salary d
    = match UpdateArgs.salary a with
      | Given q => q | Omitted | IsNull => Employee.salary old end /\
    Employee.date_of_joining d
    = match UpdateArgs.date_of_joining a with
      | Given s => trim s | Omitted | IsNull => Employee.date_of_joining old end /\
    Employee.department d
    = match UpdateArgs.department a with
      | Given s => trim s | Omitted | IsNull => Employee.department old end /\
    Employee.employee_photo d
    = match UpdateArgs.employee_photo a with
      | Given s => Some (trim s) | IsNull => None
      | Omitted => Employee.employee_photo old end /\
    In d (employees w') /\
    (forall x, In x (employees w) ->
               Employee._id x <> ObjectId_cast L (UpdateArgs.eid a) ->
               In x (employees w')).
Proof.
  intros H Hquiet.
  destruct (updateEmployee_success L a w w' d H) as (updates & w1 & Hc & Hu).
  destruct (update_result L _ _ _ _ _ Hu) as (old & Hold & Hd & Hv & Hw).
  assert (Hw1 : pending w1 = [] /\ employees w1 = employees w).
  { destruct (check_update_email_result L _ _ _ _ _ Hc)
      as [(_ & _ & ->) | (_ & _ & ->)]; [now split|].
    rewrite (quiet_enter _ _ Hquiet). now split. }
  destruct Hw1 as [Hq1 He1].
  rewrite (quiet_enter _ _ Hq1) in Hold, Hd, Hw.
  cbn [users employees clock pending calls JWT_SECRET] in Hold, Hd, Hw.
  rewrite He1 in Hold, Hw.
  pose proof (find_some _ _ Hold) as [Hin Hid].
  unfold has_id in Hid. apply String.eqb_eq in Hid.
  assert (Hmail : Employee.email d
                  = match UpdateArgs.email a with
                    | Given s => email_setters s
                    | Omitted | IsNull => Employee.email old
                    end).
  { destruct (check_update_email_result L _ _ _ _ _ Hc)
      as [(Ht & -> & _) | (Ht & -> & _)]; rewrite Hd; cbn in *.
    - destruct (UpdateArgs.email a) as [| |s]; reflexivity.
    - destruct (UpdateArgs.email a) as [| |s]; try discriminate Ht.
      cbn. apply email_setters_lower. }
  assert (Hrest : forall p,
            p = updates_of a \/
            p = Employee.with_email
                  (Given (toLowerCase (the_string (UpdateArgs.email a))))
                  (updates_of a) ->
            Employee.p_first_name p = UpdateArgs.first_name a /\
            Employee.p_last_name p = UpdateArgs.last_name a /\
            Employee.p_gender p = UpdateArgs.gender a /\
            Employee.p_designation p = UpdateArgs.designation a /\
            Employee.p_salary p = UpdateArgs.salary a /\
            Employee.p_date_of_joining p = UpdateArgs.date_of_joining a /\
            Employee.p_department p = UpdateArgs.department a /\
            Employee.p_employee_photo p = UpdateArgs.employee_photo a).
  { intros p [-> | ->]; repeat split. }
  destruct (Hrest updates) as (P1 & P2 & P3 & P4 & P5 & P6 & P7 & P8).
  { destruct (check_update_email_result L _ _ _ _ _ Hc)
      as [(_ & -> & _) | (_ & -> & _)]; [now left|now right]. }
  exists old. split; [exact Hin|]. split; [exact Hid|].
  split; [rewrite Hd; exact Hid|]. split; [now rewrite Hd|].
  split; [rewrite Hd; cbn; rewrite P1; now destruct (UpdateArgs.first_name a)|].
  split; [rewrite Hd; cbn; rewrite P2; now destruct (UpdateArgs.last_name a)|].
  split; [exact Hmail|].
  split; [rewrite Hd; cbn; rewrite P3; now destruct (UpdateArgs.gender a)|].
  split; [rewrite Hd; cbn; rewrite P4; now destruct (UpdateArgs.designation a)|].
  split; [rewrite Hd; cbn; rewrite P5; now destruct (UpdateArgs.salary a)|].
  split; [rewrite Hd; cbn; rewrite P6; now destruct (UpdateArgs.date_of_joining a)|].
  split; [rewrite Hd; cbn; rewrite P7; now destruct (UpdateArgs.department a)|].
  split; [rewrite Hd; cbn; rewrite P8; now destruct (UpdateArgs.employee_photo a)|].
  rewrite Hw. cbn [set_employees employees]. unfold replace_doc. split.
  - apply in_map_iff. exists old. split; [|exact Hin].
    replace (Employee._id d) with (Employee._id old)
      by (rewrite Hd; reflexivity).
    now rewrite String.eqb_refl.
  - intros x Hx Hne. apply in_map_iff. exists x. split; [|exact Hx].
    replace (Employee._id d) with (ObjectId_cast L (UpdateArgs.eid a))
      by (rewrite Hd; cbn; now rewrite Hid).
    apply String.eqb_neq in Hne. now rewrite Hne.
Qed.

(** X21.  The validation schema of [updateEmployee] looks at [eid],
    [email] and [salary] only.  A call that passes it and the email
    pre-check, with a valid id, and whose update the model's validators
    refuse (a first name, last name, designation, date of joining or
    department that is [null] or blank once trimmed) fails with the
    model's validation error naming the refused paths: the handler
    passes it on untranslated, it carries none of the resolver's error
    codes, and nothing is written.  This is so whether or not a record
    carries the id. *)
Theorem updateEmployee_model_validation_fails_untyped
        (a : UpdateArgs.t) (w : World) :
  update_input_ok L a = true ->
  ObjectId_isValid L (UpdateArgs.eid a) = true ->
  (truthy (UpdateArgs.email a) = true ->
   forall e, In e (employees_seen_by "Employee.findOne" w) ->
             Employee.email e
             = email_setters (the_string (UpdateArgs.email a)) ->
             Employee._id e = ObjectId_cast L (UpdateArgs.eid a)) ->
  patch_text_ok (UpdateArgs.first_name a) &&
  patch_text_ok (UpdateArgs.last_name a) &&
  patch_text_ok (UpdateArgs.designation a) &&
  patch_text_ok (UpdateArgs.date_of_joining a) &&
  patch_text_ok (UpdateArgs.department a) = false ->
  exists paths,
    updateEmployee L a w
    = (inl (ValidationError paths),
       enter "Employee.findByIdAndUpdate" (world_after_precheck a w)) /\
    paths = patch_invalid_paths (cast_patch (updates_of a)) /\
    (patch_text_ok (UpdateArgs.first_name a) = false ->
     In "first_name" paths) /\
    (patch_text_ok (UpdateArgs.last_name a) = false ->
     In "last_name" paths) /\
    (patch_text_ok (UpdateArgs.designation a) = false ->
     In "designation" paths) /\
    (patch_text_ok (UpdateArgs.date_of_joining a) = false ->
     In "date_of_joining" paths) /\
    (patch_text_ok (UpdateArgs.department a) = false ->
     In "department" paths) /\
    (forall code, ~ has_code code (ValidationError paths)).
Proof.
  intros Hok Hid Hmail Hblank.
  exists (patch_invalid_paths (cast_patch (updates_of a))).
  assert (Hpaths :
    (patch_text_ok (UpdateArgs.first_name a) = false ->
     In "first_name" (patch_invalid_paths (cast_patch (updates_of a)))) /\
    (patch_text_ok (UpdateArgs.last_name a) = false ->
     In "last_name" (patch_invalid_paths (cast_patch (updates_of a)))) /\
    (patch_text_ok (UpdateArgs.designation a) = false ->
     In "designation" (patch_invalid_paths (cast_patch (updates_of a)))) /\
    (patch_text_ok (UpdateArgs.date_of_joining a) = false ->
     In "date_of_joining" (patch_invalid_paths (cast_patch (updates_of a)))) /\
    (patch_text_ok (UpdateArgs.department a) = false ->
     In "department" (patch_invalid_paths (cast_patch (updates_of a))))).
  { unfold patch_invalid_paths, cast_patch, updates_of.
    cbn [Employee.p_first_name Employee.p_last_name Employee.p_email
         Employee.p_designation Employee.p_salary Employee.p_date_of_joining
         Employee.p_department].
    split; [|split; [|split; [|split]]]; intros H;
      [apply (patch_text_refused "first_name") in H
      |apply (patch_text_refused "last_name") in H
      |apply (patch_text_refused "designation") in H
      |apply (patch_text_refused "date_of_joining") in H
      |apply (patch_text_refused "department") in H];
      repeat (apply in_or_app; first [left; exact H | right]);
      exact H. }
  split; [|split; [reflexivity|]].
  - assert (Hsome : patch_invalid_paths (cast_patch (updates_of a)) <> []).
    { destruct Hpaths as (H1 & H2 & H3 & H4 & H5). intros Hnil.
      rewrite Hnil in H1, H2, H3, H4, H5.
      destruct (patch_text_ok (UpdateArgs.first_name a)); [|now apply H1].
      destruct (patch_text_ok (UpdateArgs.last_name a)); [|now apply H2].
      destruct (patch_text_ok (UpdateArgs.designation a)); [|now apply H3].
      destruct (patch_text_ok (UpdateArgs.date_of_joining a)); [|now apply H4].
      destruct (patch_text_ok (UpdateArgs.department a)); [|now apply H5].
      discriminate Hblank. }
    apply validate_updateEmployee in Hok.
    unfold updateEmployee, bind. rewrite runValidation_passes by exact Hok.
    rewrite Hid. cbn [negb].
    unfold world_after_precheck, check_update_email.
    cbn [updates_of Employee.p_email].
    destruct (truthy (UpdateArgs.email a)) eqn:Ht.
    + pose proof (truthy_given _ Ht) as [Hgiven _].
      unfold bind, Employee_findOne. rewrite find_no_match.
      * cbn [ret]. unfold write_update, try_catch, bind,
          Employee_findByIdAndUpdate.
        rewrite (patch_invalid_paths_with_email (updates_of a) _ Hgiven).
        destruct (patch_invalid_paths (cast_patch (updates_of a)));
          [contradiction|reflexivity].
      * intros e He. cbn [employee_matches]. rewrite email_setters_lower.
        destruct (String.eqb (Employee.email e) _) eqn:E;
          [|apply andb_false_r].
        apply String.eqb_eq in E. unfold has_id.
        rewrite (Hmail eq_refl e He E), String.eqb_refl. reflexivity.
    + cbn [ret]. unfold write_update, try_catch, bind,
        Employee_findByIdAndUpdate.
      destruct (patch_invalid_paths (cast_patch (updates_of a)));
        [contradiction|reflexivity].
  - destruct Hpaths as (H1 & H2 & H3 & H4 & H5).
    repeat split; try assumption. intros code H. exact H.
Qed.

(** X22.  [deleteEmployee] on a valid id, when a stored record carries
    the ObjectId it spells, returns the confirmation text and removes
    exactly the records of that id; asked again on the resulting store, with no other request writing,
    [getEmployeeById] and [deleteEmployee] both fail with [NOT_FOUND]. *)
Theorem deleteEmployee_removes_the_record
        (eid : string) (w : World) (r : Employee.doc) :
  ObjectId_isValid L eid = true ->
  In r (employees_seen_by "Employee.findByIdAndDelete" w) ->
  Employee._id r = ObjectId_cast L eid ->
  exists w',
    deleteEmployee L eid w = (inr "Employee deleted successfully.", w') /\
    (forall e, In e (employees w') <->
               In e (employees_seen_by "Employee.findByIdAndDelete" w) /\
               Employee._id e <> ObjectId_cast L eid) /\
    (pending w' = [] ->
     getEmployeeById L eid w'
     = (inl employee_not_found, enter "Employee.findById" w') /\
     deleteEmployee L eid w'
     = (inl employee_not_found, enter "Employee.findByIdAndDelete" w')).
Proof.
  intros Hvalid Hin Hid. unfold employees_seen_by in *.
  set (w1 := enter "Employee.findByIdAndDelete" w) in *.
  destruct (find_finds (has_id L eid) (employees w1) r Hin) as [old Hold].
  { unfold has_id. rewrite Hid. apply String.eqb_refl. }
  exists (set_employees (filter (fun x => negb (has_id L eid x)) (employees w1)) w1).
  assert (Hmem : forall e,
             In e (filter (fun x => negb (has_id L eid x)) (employees w1)) <->
             In e (employees w1) /\ Employee._id e <> ObjectId_cast L eid).
  { intros e. rewrite filter_In. unfold has_id.
    destruct (String.eqb_spec (Employee._id e) (ObjectId_cast L eid)); cbn;
      intuition congruence. }
  split; [|split].
  - unfold deleteEmployee, bind, Employee_findByIdAndDelete.
    rewrite Hvalid. cbn [negb]. fold w1. now rewrite Hold.
  - exact Hmem.
  - intros Hquiet.
    assert (Hnone : forall op,
               find (has_id L eid)
                    (employees (enter op
                       (set_employees
                          (filter (fun x => negb (has_id L eid x)) (employees w1))
                          w1))) = None).
    { intros op. rewrite (quiet_enter _ _ Hquiet).
      cbn [users employees clock pending calls JWT_SECRET set_employees].
      apply no_record_with_id. intros e He. apply Hmem in He. tauto. }
    unfold getEmployeeById, deleteEmployee, bind, Employee_findById,
      Employee_findByIdAndDelete.
    rewrite Hvalid. cbn [negb]. now rewrite !Hnone.
Qed.

End WriteProperties.

(** ** One email, one employee *)

Lemma stays_unique_refl (w : World) : stays_unique w w.
Proof. intros H. exact H. Qed.

Lemma stays_unique_trans (a b c : World) :
  stays_unique a b -> stays_unique b c -> stays_unique a c.
Proof. unfold stays_unique. auto. Qed.

Lemma stays_unique_same (w w' : World) :
  pending w' = pending w -> employees w' = employees w -> stays_unique w w'.
Proof.
  intros Hp He [Hq Hu]. split; [congruence|].
  unfold emails_unique in *. rewrite He. exact Hu.
Qed.

Lemma stays_unique_enter (operation : string) (w : World) :
  stays_unique w (enter operation w).
Proof.
  intros [Hq Hu]. rewrite (quiet_enter _ _ Hq). split; [reflexivity|exact Hu].
Qed.

Lemma stays_unique_step (operation : string) (w w' : World) :
  stays_unique (enter operation w) w' -> stays_unique w w'.
Proof. apply stays_unique_trans, stays_unique_enter. Qed.

Lemma not_taken_by_others (id email : string) (l : list Employee.doc)
      (y : Employee.doc) :
  email_taken (Some id) email l = false -> In y l ->
  Employee.email y = email -> Employee._id y = id.
Proof.
  unfold email_taken. intros H Hin Heq.
  destruct (String.eqb_spec (Employee._id y) id) as [E|E]; [exact E|].
  assert (existsb (fun x => negb (Employee._id x =? id) &&
                            (Employee.email x =? email)) l = true) as Hc.
  { apply existsb_exists. exists y. split; [exact Hin|].
    apply String.eqb_neq in E. rewrite E. cbn. now apply String.eqb_eq. }
  congruence.
Qed.

Lemma stays_unique_Employee_create (L : Libs) f :
  keeps stays_unique (Employee_create L f).
Proof.
  intros w. unfold Employee_create. apply (stays_unique_step "Employee.create").
  cbv zeta.
  match goal with
  | |- context [invalid_paths ?d] => destruct (invalid_paths d)
  end; cbn [snd]; [|apply stays_unique_refl].
  match goal with
  | |- context [email_taken ?o ?m ?l] => destruct (email_taken o m l) eqn:Ht
  end; cbn [snd]; [apply stays_unique_refl|].
  intros [Hq Hu]. split; [exact Hq|].
  unfold emails_unique. cbn [set_employees employees]. intros x y Hx Hy Heq.
  apply in_app_or in Hx. apply in_app_or in Hy.
  destruct Hx as [Hx | [<- | []]]; destruct Hy as [Hy | [<- | []]].
  - now apply Hu.
  - exfalso. exact (email_taken_false _ _ x Ht Hx Heq).
  - exfalso. symmetry in Heq. exact (email_taken_false _ _ y Ht Hy Heq).
  - reflexivity.
Qed.

Lemma stays_unique_update (L : Libs) id p :
  keeps stays_unique (Employee_findByIdAndUpdate L id p).
Proof.
  intros w. unfold Employee_findByIdAndUpdate.
  apply (stays_unique_step "Employee.findByIdAndUpdate"). cbv zeta.
  set (w1 := enter "Employee.findByIdAndUpdate" w).
  destruct (patch_invalid_paths _); cbn [snd]; [|apply stays_unique_refl].
  destruct (find _ _) as [old|] eqn:Hold; cbn [snd]; [|apply stays_unique_refl].
  set (d := apply_patch (clock w1) (cast_patch p) old).
  destruct (_ && _) eqn:Hdup; cbn [snd]; [apply stays_unique_refl|].
  intros [Hq Hu]. split; [exact Hq|].
  pose proof (find_some _ _ Hold) as [Hoin _].
  assert (Hdid : Employee._id d = Employee._id old) by reflexivity.
  (* a record of another id with the email of [d] cannot be stored *)
  assert (Hclash : forall y, In y (employees w1) ->
                             Employee.email y = Employee.email d ->
                             Employee._id y = Employee._id old).
  { intros y Hy Heq. apply andb_false_iff in Hdup. destruct Hdup as [Hsame|Hfree].
    - apply negb_false_iff, String.eqb_eq in Hsame.
      apply Hu; [exact Hy|exact Hoin|congruence].
    - exact (not_taken_by_others _ _ _ y Hfree Hy Heq). }
  unfold emails_unique. cbn [set_employees employees]. unfold replace_doc.
  intros x y Hx Hy Heq.
  apply in_map_iff in Hx. destruct Hx as (x0 & Hx0 & Hxin).
  apply in_map_iff in Hy. destruct Hy as (y0 & Hy0 & Hyin).
  rewrite Hdid in Hx0, Hy0.
  destruct (String.eqb_spec (Employee._id x0) (Employee._id old)) as [Ex|Ex];
  destruct (String.eqb_spec (Employee._id y0) (Employee._id old)) as [Ey|Ey];
    subst x y.
  - reflexivity.
  - rewrite Hdid. symmetry. apply Hclash; [exact Hyin|now symmetry].
  - rewrite Hdid. apply Hclash; [exact Hxin|exact Heq].
  - now apply Hu.
Qed.

Lemma stays_unique_delete (L : Libs) id :
  keeps stays_unique (Employee_findByIdAndDelete L id).
Proof.
  intros w. unfold Employee_findByIdAndDelete.
  apply (stays_unique_step "Employee.findByIdAndDelete").
  destruct (find _ _); cbn [snd]; [|apply stays_unique_refl].
  intros [Hq Hu]. split; [exact Hq|].
  unfold emails_unique. cbn [set_employees employees]. intros x y Hx Hy.
  apply filter_In in Hx. apply filter_In in Hy. apply Hu; tauto.
Qed.

Lemma stays_unique_photo_step (L : Libs) a : keeps stays_unique (photo_step L a).
Proof.
  intros w. unfold photo_step, uploadEmployeePhoto.
  destruct (truthy _); cbn [negb]; [|apply stays_unique_refl].
  unfold try_catch, bind, cloudinary_uploader_upload.
  destruct (cloudinary_upload L _); cbn [snd]; intros H; exact H.
Qed.

Section UniqueEmails.
Context (L : Libs).

(** X23.  On a store no other request is writing to, in which two
    records with the same email are records of the same id, that is still
    so after any call of [addEmployee], [updateEmployee] or
    [deleteEmployee], whatever its arguments and its outcome. *)
Theorem mutations_keep_emails_unique (w : World) :
  pending w = [] ->
  emails_unique w ->
  (forall a, emails_unique (snd (addEmployee L a w))) /\
  (forall a, emails_unique (snd (updateEmployee L a w))) /\
  (forall eid, emails_unique (snd (deleteEmployee L eid w))).
Proof.
  intros Hq Hu.
  pose proof stays_unique_refl as Hr.
  pose proof stays_unique_trans as Ht.
  pose proof stays_unique_enter as He.
  split; [|split].
  - intros a. apply (keeps_addEmployee _ Hr Ht L He
                       (stays_unique_Employee_create L)
                       a (stays_unique_photo_step L a) w). now split.
  - intros a. apply (keeps_updateEmployee _ Hr Ht L He (stays_unique_update L) a w).
    now split.
  - intros eid. apply (keeps_deleteEmployee _ Hr Ht L (stays_unique_delete L) eid w).
    now split.
Qed.

End UniqueEmails.

(* ================================================================== *)
(** * Closed instances of the further properties *)
(* ================================================================== *)

Lemma signup_validation_gate_witness :
  exists first others,
    validate Sample.libs signup_schema
             (signup_body (SignupArgs.mk "al" "al@x.io" "secret1"))
    = first :: others /\
    signup Sample.libs (SignupArgs.mk "al" "al@x.io" "secret1")
           (Sample.quiet [Sample.ada] [] None)
    = (inl (GraphQLError (msg first) "BAD_USER_INPUT"
                         (DetailList (first :: others))),
       Sample.quiet [Sample.ada] [] None).
Proof.
  apply (signup_validation_gate Sample.libs
           (SignupArgs.mk "al" "al@x.io" "secret1")
           (Sample.quiet [Sample.ada] [] None)).
  reflexivity.
Defined.

Lemma only_addEmployee_uploads_witness :
  calls_added is_store_call (Sample.quiet [] [Sample.eng] None)
    (snd (addEmployee Sample.libs Sample.new_hire
            (Sample.quiet [] [Sample.eng] None))).
Proof.
  apply (only_addEmployee_uploads Sample.libs
           (Sample.quiet [] [Sample.eng] None)).
  reflexivity.
Defined.

Lemma resolvers_keep_records_well_formed_witness :
  store_well_formed
    (snd (updateEmployee Sample.libs
            (Sample.update_salary (Sample.object_id 2) 1500)
            (Sample.quiet [] [Sample.eng; Sample.ops] None))).
Proof.
  apply (resolvers_keep_records_well_formed Sample.libs
           (Sample.quiet [] [Sample.eng; Sample.ops] None)).
  split; [|constructor].
  repeat constructor; try discriminate.
Defined.

Lemma login_input_gate_witness :
  (exists e,
     login Sample.libs (LoginArgs.mk (Given "ada") Omitted "short")
           (Sample.quiet [Sample.ada] [] None)
     = (inl e, Sample.quiet [Sample.ada] [] None) /\ InvalidInput e) /\
  login Sample.libs (LoginArgs.mk (Given "") IsNull "lovelace")
        (Sample.quiet [Sample.ada] [] None)
  = (inl (GraphQLError "Either username or email is required for login."
                       "BAD_USER_INPUT" NoDetail),
     Sample.quiet [Sample.ada] [] None).
Proof.
  split.
  - apply (login_input_gate Sample.libs
             (LoginArgs.mk (Given "ada") Omitted "short")
             (Sample.quiet [Sample.ada] [] None)).
    reflexivity.
  - apply (login_input_gate Sample.libs
             (LoginArgs.mk (Given "") IsNull "lovelace")
             (Sample.quiet [Sample.ada] [] None)).
    + simpl. lia.
    + reflexivity.
    + reflexivity.
Defined.

Lemma login_issues_token_witness :
  login Sample.libs (LoginArgs.mk Omitted (Given "Ada@X.io") "lovelace")
        (Sample.quiet [Sample.ada] [] (Some "s3cret"))
  = (inr (jwt_sign Sample.libs
            (mkPayload (Sample.object_id 1) "ada" "ada@x.io") "s3cret" "1d"),
     enter "User.findOne" (Sample.quiet [Sample.ada] [] (Some "s3cret"))).
Proof.
  apply (login_issues_token Sample.libs
           (LoginArgs.mk Omitted (Given "Ada@X.io") "lovelace")
           (Sample.quiet [Sample.ada] [] (Some "s3cret")) Sample.ada "s3cret").
  - reflexivity.
  - reflexivity.
  - reflexivity.
  - reflexivity.
  - discriminate.
Defined.

Lemma login_lookup_key_witness :
  login Sample.libs (LoginArgs.mk (Given "ada") (Given "nobody@x.io") "lovelace")
        (Sample.quiet [Sample.ada] [] (Some "s3cret"))
  = login Sample.libs (LoginArgs.mk (Given "ada") Omitted "lovelace")
          (Sample.quiet [Sample.ada] [] (Some "s3cret")) /\
  login Sample.libs (LoginArgs.mk Omitted (Given "ADA@x.io") "lovelace")
        (Sample.quiet [Sample.ada] [] (Some "s3cret"))
  = login Sample.libs (LoginArgs.mk Omitted (Given "ada@X.IO") "lovelace")
          (Sample.quiet [Sample.ada] [] (Some "s3cret")) /\
  login Sample.libs (LoginArgs.mk (Given "Ada") (Given "ada@x.io") "lovelace")
        (Sample.quiet [Sample.ada] [] (Some "s3cret"))
  = (inl invalid_credentials,
     enter "User.findOne" (Sample.quiet [Sample.ada] [] (Some "s3cret"))) /\
  login Sample.libs (LoginArgs.mk (Given "") (Given "ADA@x.io") "lovelace")
        (Sample.quiet [Sample.ada] [] (Some "s3cret"))
  = (inr (jwt_sign Sample.libs
            (mkPayload (Sample.object_id 1) "ada" "ada@x.io") "s3cret" "1d"),
     enter "User.findOne" (Sample.quiet [Sample.ada] [] (Some "s3cret"))).
Proof.
  split; [|split; [|split]].
  - refine (proj1 (login_lookup_key Sample.libs (Given "ada") Omitted
                     "lovelace"
                     (Sample.quiet [Sample.ada] [] (Some "s3cret"))) _ _).
    reflexivity.
  - refine (proj1 (proj2 (login_lookup_key Sample.libs Omitted Omitted
                            "lovelace"
                            (Sample.quiet [Sample.ada] [] (Some "s3cret"))))
                  _ _ _ _).
    + reflexivity.
    + reflexivity.
  - refine (proj1 (proj2 (proj2 (login_lookup_key Sample.libs (Given "Ada")
                                   (Given "ada@x.io") "lovelace"
                                   (Sample.quiet [Sample.ada] []
                                                 (Some "s3cret"))))
                         _ _) _).
    + simpl. lia.
    + left. reflexivity.
    + reflexivity.
  - refine (proj2 (proj2 (proj2 (login_lookup_key Sample.libs (Given "")
                                   (Given "ADA@x.io") "lovelace"
                                   (Sample.quiet [Sample.ada] []
                                                 (Some "s3cret"))))
                         _ _) Sample.ada "s3cret" _ _ _ _).
    + simpl. lia.
    + right. reflexivity.
    + reflexivity.
    + reflexivity.
    + reflexivity.
    + discriminate.
Defined.

Lemma signup_rejects_known_email_witness :
  signup Sample.libs (SignupArgs.mk "ada2" "ADA@x.io" "secret1")
         (Sample.quiet [Sample.ada] [] None)
  = (inl email_exists, enter "User.findOne" (Sample.quiet [Sample.ada] [] None)).
Proof.
  apply (signup_rejects_known_email Sample.libs
           (SignupArgs.mk "ada2" "ADA@x.io" "secret1")
           (Sample.quiet [Sample.ada] [] None)).
  - reflexivity.
  - exists Sample.ada. split; [now left|reflexivity].
Defined.

Lemma signup_same_email_twice_witness :
  exists e w2,
    signup Sample.libs (SignupArgs.mk "robert" "BOB@x.io" "another1")
           (snd (signup Sample.libs (SignupArgs.mk "bob" "Bob@X.io" "secret1")
                        (Sample.quiet [Sample.ada] [] None)))
    = (inl e, w2) /\ InvalidInput e.
Proof.
  eapply (signup_same_email_twice Sample.libs
            (SignupArgs.mk "bob" "Bob@X.io" "secret1")
            (SignupArgs.mk "robert" "BOB@x.io" "another1")
            (Sample.quiet [Sample.ada] [] None)).
  - vm_compute. reflexivity.
  - reflexivity.
Defined.

Lemma addEmployee_validation_gate_witness :
  (exists first others,
     validate Sample.libs addEmployee_schema
              (addEmployee_body
                 (AddArgs.mk "Edsger" "" "edsger@x.io" Omitted "Researcher"
                             1500 "2024-03-01" "Eng" Omitted))
     = first :: others /\
     addEmployee Sample.libs
       (AddArgs.mk "Edsger" "" "edsger@x.io" Omitted "Researcher" 1500
                   "2024-03-01" "Eng" Omitted)
       (Sample.quiet [] [Sample.eng] None)
     = (inl (GraphQLError (msg first) "BAD_USER_INPUT"
                          (DetailList (first :: others))),
        Sample.quiet [] [Sample.eng] None)) /\
  (exists others,
     addEmployee Sample.libs
       (AddArgs.mk "Edsger" "Dijkstra" "" Omitted "Researcher" 500
                   "2024-03-01" "Eng" Omitted)
       (Sample.quiet [] [Sample.eng] None)
     = (inl (GraphQLError "Salary must be at least 1000." "BAD_USER_INPUT"
               (DetailList
                  (mkValidationError "salary" "Salary must be at least 1000."
                   :: others))),
        Sample.quiet [] [Sample.eng] None) /\
     In (mkValidationError "email" "Email format is invalid.") others).
Proof.
  split.
  - refine (proj1 (addEmployee_validation_gate Sample.libs
                     (AddArgs.mk "Edsger" "" "edsger@x.io" Omitted
                                 "Researcher" 1500 "2024-03-01" "Eng" Omitted)
                     (Sample.quiet [] [Sample.eng] None)) _).
    reflexivity.
  - destruct (proj2 (proj2 (addEmployee_validation_gate Sample.libs
                     (AddArgs.mk "Edsger" "Dijkstra" "" Omitted "Researcher"
                                 500 "2024-03-01" "Eng" Omitted)
                     (Sample.quiet [] [Sample.eng] None)))
               ltac:(discriminate) ltac:(discriminate) ltac:(discriminate)
               eq_refl) as (others & Hrun & Hmail).
    exists others. split; [exact Hrun|]. apply Hmail. reflexivity.
Defined.

Lemma addEmployee_blank_text_fails_untyped_witness :
  exists paths,
    addEmployee Sample.libs
      (AddArgs.mk "   " "Dijkstra" "edsger@x.io" Omitted "Researcher" 1500
                  "2024-03-01" "Eng" Omitted)
      (Sample.quiet [] [Sample.eng] None)
    = (inl (ValidationError paths),
       enter "Employee.create"
             (enter "Employee.findOne" (Sample.quiet [] [Sample.eng] None))) /\
    In "first_name" paths.
Proof.
  destruct (addEmployee_blank_text_fails_untyped Sample.libs
              (AddArgs.mk "   " "Dijkstra" "edsger@x.io" Omitted "Researcher"
                          1500 "2024-03-01" "Eng" Omitted)
              None
              (Sample.quiet [] [Sample.eng] None)
              (enter "Employee.findOne" (Sample.quiet [] [Sample.eng] None))
              eq_refl (or_introl eq_refl) eq_refl eq_refl)
    as (paths & Hrun & Hfirst & _).
  exists paths. split; [exact Hrun|]. apply Hfirst. reflexivity.
Defined.

Lemma addEmployee_known_email_stops_before_upload_witness :
  addEmployee Sample.libs
    (AddArgs.mk "Grace" "Murray" "GRACE@x.io" Omitted "Admiral" 9000
                "2024-03-01" "Navy" (Given "data:image/png;base64,AAAA"))
    (Sample.quiet [] [Sample.eng] None)
  = (inl email_exists,
     enter "Employee.findOne" (Sample.quiet [] [Sample.eng] None)).
Proof.
  apply (addEmployee_known_email_stops_before_upload Sample.libs
           (AddArgs.mk "Grace" "Murray" "GRACE@x.io" Omitted "Admiral" 9000
                       "2024-03-01" "Navy" (Given "data:image/png;base64,AAAA"))
           (Sample.quiet [] [Sample.eng] None)).
  - reflexivity.
  - exists Sample.eng, "grace@x.io". split; [now left|]. split; reflexivity.
Defined.

Lemma addEmployee_returns_normalised_record_witness :
  exists d w',
    addEmployee Sample.libs
      (AddArgs.mk " Edsger " "Dijkstra" "Edsger@X.io" (Given "male")
                  "Researcher" 1500 "2024-03-01" "Eng"
                  (Given "data:image/png;base64,AAAA"))
      (Sample.quiet [] [Sample.eng] None) = (inr d, w') /\
    Employee.first_name d = "Edsger" /\
    Employee.email d = "edsger@x.io" /\
    Employee.employee_photo d
    = Some "https://res.cloudinary.com/demo/photo.png" /\
    In d (employees w').
Proof.
  do 2 eexists. split; [vm_compute; reflexivity|].
  match goal with
  | |- context [Employee.first_name ?d] =>
      match goal with
      | |- context [employees ?w'] =>
          destruct (addEmployee_returns_normalised_record Sample.libs
                      (AddArgs.mk " Edsger " "Dijkstra" "Edsger@X.io"
                                  (Given "male") "Researcher" 1500
                                  "2024-03-01" "Eng"
                                  (Given "data:image/png;base64,AAAA"))
                      (Sample.quiet [] [Sample.eng] None) w' d)
            as (H1 & _ & H3 & _ & _ & _ & _ & _ & _ & _ & _ & _ & H13 & _)
      end
  end.
  - vm_compute. reflexivity.
  - split; [exact H1|]. split; [exact H3|]. split; [reflexivity|exact H13].
Defined.

Lemma addEmployee_then_getEmployeeById_witness :
  exists d w',
    addEmployee Sample.libs Sample.new_hire (Sample.quiet [] [Sample.eng] None)
    = (inr d, w') /\
    getEmployeeById Sample.libs (Sample.object_id_in_capitals 6) w'
    = (inr d, enter "Employee.findById" w').
Proof.
  do 2 eexists. split; [vm_compute; reflexivity|].
  eapply (addEmployee_then_getEmployeeById Sample.libs Sample.new_hire
            (Sample.quiet [] [Sample.eng] None)).
  - vm_compute. reflexivity.
  - reflexivity.
  - reflexivity.
  - reflexivity.
  - intros e [<- | [<- | []]]; [discriminate|reflexivity].
Defined.

Lemma searchEmployee_returns_stored_newest_first_witness :
  newest_first_order
    [Sample.ops; Sample.eng] /\
  fst (searchEmployee Sample.libs (SearchArgs.mk Omitted (Given "."))
         (Sample.quiet [] [Sample.eng; Sample.ops] None))
  = inr [Sample.ops; Sample.eng].
Proof.
  split; [|reflexivity].
  apply (searchEmployee_returns_stored_newest_first Sample.libs
           (SearchArgs.mk Omitted (Given "."))
           (Sample.quiet [] [Sample.eng; Sample.ops] None)
           (enter "Employee.find" (Sample.quiet [] [Sample.eng; Sample.ops] None))
           [Sample.ops; Sample.eng]).
  reflexivity.
Defined.

Lemma searchEmployee_ignores_empty_filter_witness :
  searchEmployee Sample.libs (SearchArgs.mk (Given "") (Given "eng"))
                 (Sample.quiet [] [Sample.eng; Sample.ops] None)
  = searchEmployee Sample.libs (SearchArgs.mk Omitted (Given "eng"))
                   (Sample.quiet [] [Sample.eng; Sample.ops] None).
Proof.
  apply (searchEmployee_ignores_empty_filter Sample.libs (Given "") (Given "eng")
           (Sample.quiet [] [Sample.eng; Sample.ops] None)).
  reflexivity.
Defined.

Lemma searchEmployee_bad_pattern_fails_untyped_witness :
  searchEmployee Sample.libs (SearchArgs.mk (Given "(senior") Omitted)
                 (Sample.quiet [] [Sample.eng; Sample.ops] None)
  = (inl (RegExpSyntaxError "(senior"),
     Sample.quiet [] [Sample.eng; Sample.ops] None) /\
  searchEmployee Sample.libs (SearchArgs.mk (Given "senior") (Given "eng("))
                 (Sample.quiet [] [Sample.eng; Sample.ops] None)
  = (inl (RegExpSyntaxError "eng("),
     Sample.quiet [] [Sample.eng; Sample.ops] None).
Proof.
  split.
  - refine (proj1 (searchEmployee_bad_pattern_fails_untyped Sample.libs
                     (SearchArgs.mk (Given "(senior") Omitted)
                     (Sample.quiet [] [Sample.eng; Sample.ops] None)) _ _).
    + reflexivity.
    + reflexivity.
  - refine (proj1 (proj2 (searchEmployee_bad_pattern_fails_untyped Sample.libs
                     (SearchArgs.mk (Given "senior") (Given "eng("))
                     (Sample.quiet [] [Sample.eng; Sample.ops] None)))
                  _ _ _).
    + right. reflexivity.
    + reflexivity.
    + reflexivity.
Defined.

Lemma getEmployeeById_returns_the_record_witness :
  ObjectId_isValid Sample.libs (Sample.object_id_in_capitals 3) = true /\
  In Sample.ops
     (employees_seen_by "Employee.findById"
        (Sample.quiet [] [Sample.eng; Sample.ops] None)) /\
  Employee._id Sample.ops
  = ObjectId_cast Sample.libs (Sample.object_id_in_capitals 3) /\
  enter "Employee.findById" (Sample.quiet [] [Sample.eng; Sample.ops] None)
  = enter "Employee.findById" (Sample.quiet [] [Sample.eng; Sample.ops] None).
Proof.
  apply (getEmployeeById_returns_the_record Sample.libs
           (Sample.object_id_in_capitals 3)
           (Sample.quiet [] [Sample.eng; Sample.ops] None)).
  reflexivity.
Defined.

Lemma updateEmployee_input_gate_witness :
  (exists first others,
     validate Sample.libs updateEmployee_schema
              (updateEmployee_body
                 (Sample.update_email (Sample.object_id 2) "not-an-email"))
     = first :: others /\
     updateEmployee Sample.libs
       (Sample.update_email (Sample.object_id 2) "not-an-email")
       (Sample.quiet [] [Sample.eng] None)
     = (inl (GraphQLError (msg first) "BAD_USER_INPUT"
                          (DetailList (first :: others))),
        Sample.quiet [] [Sample.eng] None)) /\
  updateEmployee Sample.libs (Sample.update_salary "42" 1500)
                 (Sample.quiet [] [Sample.eng] None)
  = (inl invalid_employee_id, Sample.quiet [] [Sample.eng] None).
Proof.
  split.
  - apply (updateEmployee_input_gate Sample.libs
             (Sample.update_email (Sample.object_id 2) "not-an-email")
             (Sample.quiet [] [Sample.eng] None)).
    reflexivity.
  - apply (updateEmployee_input_gate Sample.libs
             (Sample.update_salary "42" 1500)
             (Sample.quiet [] [Sample.eng] None)).
    + reflexivity.
    + reflexivity.
Defined.

Lemma updateEmployee_changes_only_supplied_fields_witness :
  exists d w' old,
    updateEmployee Sample.libs
                   (Sample.update_salary (Sample.object_id_in_capitals 2) 1500)
                   (Sample.quiet [] [Sample.eng; Sample.ops] None)
    = (inr d, w') /\
    In old [Sample.eng; Sample.ops] /\
    Employee._id old = Sample.object_id 2 /\
    Employee.salary d = 1500 /\
    Employee.first_name d = Employee.first_name old /\
    Employee.email d = Employee.email old /\
    In Sample.ops (employees w').
Proof.
  do 2 eexists.
  match goal with
  | |- exists old, ?run = (inr ?d, ?w') /\ _ =>
      assert (Hrun : run = (inr d, w')) by (vm_compute; reflexivity);
      destruct (updateEmployee_changes_only_supplied_fields Sample.libs
                  (Sample.update_salary (Sample.object_id_in_capitals 2) 1500)
                  (Sample.quiet [] [Sample.eng; Sample.ops] None)
                  w' d Hrun eq_refl)
        as (old & Hin & Hid & _ & _ & Hfirst & _ & Hmail & _ & _ & Hsal & _ & _
            & _ & _ & Hothers)
  end.
  exists old. split; [exact Hrun|]. split; [exact Hin|].
  split; [exact Hid|].
  split; [exact Hsal|]. split; [exact Hfirst|]. split; [exact Hmail|].
  apply Hothers; [right; now left|vm_compute; discriminate].
Defined.

Lemma updateEmployee_model_validation_fails_untyped_witness :
  exists paths,
    updateEmployee Sample.libs
      (Sample.update_first_name (Sample.object_id 2) "  ")
      (Sample.quiet [] [Sample.eng] None)
    = (inl (ValidationError paths),
       enter "Employee.findByIdAndUpdate"
             (Sample.quiet [] [Sample.eng] None)) /\
    In "first_name" paths /\
    employees (enter "Employee.findByIdAndUpdate"
                     (Sample.quiet [] [Sample.eng] None)) = [Sample.eng].
Proof.
  destruct (updateEmployee_model_validation_fails_untyped Sample.libs
              (Sample.update_first_name (Sample.object_id 2) "  ")
              (Sample.quiet [] [Sample.eng] None)
              eq_refl eq_refl ltac:(discriminate) eq_refl)
    as (paths & Hrun & _ & Hfirst & _).
  exists paths. split; [exact Hrun|]. split; [|reflexivity].
  apply Hfirst. reflexivity.
Defined.

Lemma deleteEmployee_removes_the_record_witness :
  exists w',
    deleteEmployee Sample.libs (Sample.object_id_in_capitals 2)
                   (Sample.quiet [] [Sample.eng; Sample.ops] None)
    = (inr "Employee deleted successfully.", w') /\
    (In Sample.ops (employees w') /\ ~ In Sample.eng (employees w')) /\
    getEmployeeById Sample.libs (Sample.object_id_in_capitals 2) w'
    = (inl employee_not_found, enter "Employee.findById" w').
Proof.
  destruct (deleteEmployee_removes_the_record Sample.libs
              (Sample.object_id_in_capitals 2)
              (Sample.quiet [] [Sample.eng; Sample.ops] None) Sample.eng
              eq_refl (or_introl eq_refl) eq_refl)
    as (w' & Hrun & Hmem & Hagain).
  exists w'. split; [exact Hrun|]. split.
  - split.
    + apply Hmem. split; [right; now left|vm_compute; discriminate].
    + intros Hin. apply Hmem in Hin. destruct Hin as [_ Hne]. now apply Hne.
  - apply Hagain.
    assert (Hw : w' = snd (deleteEmployee Sample.libs
                             (Sample.object_id_in_capitals 2)
                             (Sample.quiet [] [Sample.eng; Sample.ops] None)))
      by (rewrite Hrun; reflexivity).
    rewrite Hw. reflexivity.
Defined.

Lemma mutations_keep_emails_unique_witness :
  emails_unique
    (snd (addEmployee Sample.libs Sample.new_hire
            (Sample.quiet [] [Sample.eng; Sample.ops] None))).
Proof.
  refine (proj1 (mutations_keep_emails_unique Sample.libs
                   (Sample.quiet [] [Sample.eng; Sample.ops] None) eq_refl _)
                Sample.new_hire).
  intros x y [<- | [<- | []]] [<- | [<- | []]] Heq;
    first [reflexivity | discriminate Heq].
Defined.
